(** * Excel Processor Pro: data-quality assessment, NaN remediation, aggregation

    A shallow embedding of the decision logic of
    - [src/ai_assistant_dialog.py]  (class [DataQualityAssessment] and the
                                     thresholds of [IntelligentAnalysisDialog]),
    - [src/data_processor.py]       (class [FlexibleDataProcessor]),
    - [src/validators.py]           (class [DataValidator]),
    - [src/gui_components.py]       (the NaN strategy panel: its widgets, its
                                     buttons and [get_nan_strategy]),
    - [src/excel_processor.py]      (class [FlexibleExcelProcessor]: preview
                                     and [process_data]),
    - [src/chart_creator.py]        (the rows of the pie chart),
    - [src/gui_app.py]              (the strategy handed to the processor),
    and the properties of it that the specification states, followed by
    further properties of the same code.

    Modelling conventions.
    - A pandas cell is a number, a string or the missing marker.  Numbers are
      rationals ([Q]); the tables of the model hold no infinite number.
    - What numpy and pandas compute in binary floating point or in 64-bit
      integers, and the order pandas' sort gives to equal values, is not
      fixed by the code of this repository: the rounded percentage, the sum
      and the mean of a group and the sort of the result are the fields of
      [Numerics], together with the laws the proofs rely on.  [textbook] is
      the instance the examples are run with.
    - A [DataFrame] is kept row-major together with the dtype of every column;
      [pd.api.types.is_numeric_dtype] reads that dtype.  Columns are addressed
      by name, as in the source; the model follows pandas for tables whose
      column names are unique (the table invariant of the specification).
    - Python dicts used as maps are [gmap string _].
    - Exceptions are values of [exn]; a function that can raise returns
      [result exn _].  Log calls have no effect on results and are left out. *)

From Stdlib Require Import QArith Qround Qabs Lqa Ascii String.
From Stdlib Require OrderedTypeEx.
From stdpp Require Import gmap strings list sorting.

Close Scope Q_scope.
Local Open Scope string_scope.

(** ** Python floats as rationals *)

Definition Qltb (x y : Q) : bool := negb (Qle_bool y x).
Definition Qgtb (x y : Q) : bool := Qltb y x.

Definition Qnat (n : nat) : Q := inject_Z (Z.of_nat n).

(** [round(x, 2)] of a number held exactly: to two decimals, ties to the
    even neighbour. *)
Definition round2 (x : Q) : Q :=
  let z := (x * 100)%Q in
  let f := Qfloor z in
  let r := (z - inject_Z f)%Q in
  let up := (inject_Z (f + 1) / 100)%Q in
  let down := (inject_Z f / 100)%Q in
  if Qltb r (1 # 2) then down
  else if Qltb (1 # 2) r then up
  else if Z.even f then down else up.

Definition Qsum (l : list Q) : Q := foldr Qplus 0%Q l.

Definition Qmin' (x y : Q) : Q := if Qle_bool x y then x else y.
Definition Qmax' (x y : Q) : Q := if Qle_bool x y then y else x.

(** Ascending insertion sort of numbers (the order statistics below read it). *)
Fixpoint Qinsert (x : Q) (l : list Q) : list Q :=
  match l with
  | [] => [x]
  | y :: l' => if Qle_bool x y then x :: l else y :: Qinsert x l'
  end.

Definition Qsort (l : list Q) : list Q := foldr Qinsert [] l.

(** [Series.quantile(p)] with pandas' default linear interpolation, on a
    non-empty list: position [(n-1)*p] between the two neighbouring order
    statistics. *)
Definition quantile (p : Q) (l : list Q) : Q :=
  let s := Qsort l in
  let h := (Qnat (length s - 1) * p)%Q in
  let lo := Z.to_nat (Qfloor h) in
  let frac := (h - inject_Z (Qfloor h))%Q in
  let a := default 0%Q (s !! lo) in
  let b := default a (s !! S lo) in
  (a + frac * (b - a))%Q.

Definition Qmean (l : list Q) : Q := (Qsum l / Qnat (length l))%Q.
Definition Qmedian (l : list Q) : Q := quantile (1 # 2) l.

(** ** Cells, dtypes and data frames *)

Inductive cell : Type :=
  | Num (q : Q)
  | Str (s : string)
  | NaN.

Inductive dtype : Type := Numeric | Object.

Definition isnull (c : cell) : bool :=
  match c with NaN => true | _ => false end.

(** Equality of cell values ([==] of pandas on values; missing equals missing
    only where pandas says so, in [drop_duplicates]). *)
Definition cell_eqb (a b : cell) : bool :=
  match a, b with
  | Num x, Num y => Qeq_bool x y
  | Str s, Str t => String.eqb s t
  | NaN, NaN => true
  | _, _ => false
  end.

(** The order pandas sorts group keys and modes by: numbers before strings,
    numbers by value, strings by code point. *)
Definition cell_ltb (a b : cell) : bool :=
  match a, b with
  | Num x, Num y => Qltb x y
  | Num _, Str _ => true
  | Str s, Str t => String.ltb s t
  | _, _ => false
  end.

Record DataFrame : Type := {
  columns : list (string * dtype);
  rows : list (list cell)
}.

Definition column_names (df : DataFrame) : list string := (columns df).*1.

(** [len(df)], [df.size], [df.empty] *)
Definition len (df : DataFrame) : nat := length (rows df).
Definition size (df : DataFrame) : nat := len df * length (columns df).
Definition empty (df : DataFrame) : bool := bool_decide (size df = 0).

Definition col_index (df : DataFrame) (col : string) : option nat :=
  fst <$> list_find (λ c, c.1 = col) (columns df).

Definition has_column (df : DataFrame) (col : string) : bool :=
  bool_decide (col ∈ column_names df).

(** [df[col]]: the cells of a column, top to bottom. *)
Definition cell_at (i : nat) (r : list cell) : cell := default NaN (r !! i).

Definition series (df : DataFrame) (col : string) : list cell :=
  match col_index df col with
  | Some i => cell_at i <$> rows df
  | None => []
  end.

Definition dtype_of (df : DataFrame) (col : string) : dtype :=
  match list_find (λ c, c.1 = col) (columns df) with
  | Some (_, (_, d)) => d
  | None => Object
  end.

Definition is_numeric_dtype (d : dtype) : bool :=
  match d with Numeric => true | Object => false end.

(** [s.isnull().sum()], [s.dropna()] *)
Definition isnull_sum (s : list cell) : nat := length (filter (λ c, isnull c = true) s).
Definition dropna (s : list cell) : list cell := filter (λ c, isnull c = false) s.

(** The numbers of a series ([dropna] of a numeric column). *)
Definition numbers (s : list cell) : list Q :=
  omap (λ c, match c with Num q => Some q | _ => None end) s.

(** [s.value_counts()]: how often a value occurs. *)
Definition occurrences (v : cell) (s : list cell) : nat :=
  length (filter (λ c, cell_eqb c v = true) s).

(** Distinct values in order of first appearance ([s.unique()] without NaN). *)
Fixpoint unique (s : list cell) : list cell :=
  match s with
  | [] => []
  | c :: s' => c :: filter (λ d, cell_eqb d c = false) (unique s')
  end.

Definition nunique (s : list cell) : nat := length (unique (dropna s)).

(** [s.mode().iloc[0]]: the most frequent value, the smallest among equals. *)
Definition mode_better (s : list cell) (a b : cell) : bool :=
  let na := occurrences a s in
  let nb := occurrences b s in
  (nb <? na)%nat || ((na =? nb)%nat && cell_ltb a b).

Definition series_mode (s : list cell) : option cell :=
  foldr (λ c best,
           match best with
           | None => Some c
           | Some b => if mode_better s c b then Some c else Some b
           end) None (unique (dropna s)).

(** The mode of a numeric column, [0] when it has no value. *)
Definition Qmode (l : list Q) : Q :=
  match series_mode (Num <$> l) with Some (Num q) => q | _ => 0%Q end.

Definition Qminimum (l : list Q) : Q :=
  match l with [] => 0%Q | x :: l' => foldl Qmin' x l' end.
Definition Qmaximum (l : list Q) : Q :=
  match l with [] => 0%Q | x :: l' => foldl Qmax' x l' end.

(** [s.value_counts().index[0]]: the most frequent value, the first met
    among equals. *)
Definition most_common (s : list cell) : option cell :=
  foldr (λ c best,
           match best with
           | None => Some c
           | Some b => if (occurrences c s <? occurrences b s)%nat then Some b else Some c
           end) None (unique (dropna s)).

(** ** Exceptions and results *)

Inductive exn : Type :=
  | EmptyDataError (msg : string)
  | DataValidationError (msg : string)
  | ZeroDivisionError
  | ValueError (msg : string)
  (** [raise DataProcessingError(f"...: {e}")] inside [except Exception as e] *)
  | DataProcessingError (cause : exn).

Inductive result (E A : Type) : Type :=
  | Ok (a : A)
  | Err (e : E).
Arguments Ok {E A} a.
Arguments Err {E A} e.

(** Sequencing of fallible steps: stdpp's [x ← r; k] and [r;; k]. *)
#[export] Instance result_ret {E} : MRet (result E) := λ A a, Ok a.
#[export] Instance result_bind {E} : MBind (result E) :=
  λ A B k r, match r with Ok a => k a | Err e => Err e end.

(** [try: body except Exception as e: raise DataProcessingError(...)] *)
Definition reraise_processing {A} (body : result exn A) : result exn A :=
  match body with Ok a => Ok a | Err e => Err (DataProcessingError e) end.

(** * What numpy and pandas compute

    The code rounds percentages it computed in binary floating point, sums
    and averages groups of an int64 or float64 column, and sorts the result
    with pandas' default sort.  None of this is code of the repository, and
    none of it is exact arithmetic: a float sum rounds, an int64 sum wraps,
    [round] sees the float and not the ratio, and the sort promises no order
    among equal values.  The functions below take these operations from a
    [Numerics]; its laws state what holds of the library. *)

(** The order of [sort_values(y_col, ascending=False)]: a greater number
    first, a missing value after every number. *)
Definition value_before (a b : cell) : bool :=
  match a, b with
  | Num x, Num y => Qltb y x
  | Num _, _ => true
  | _, _ => false
  end.

(** Row [r1] may stand before row [r2]. *)
Definition descending (r1 r2 : cell * cell) : Prop :=
  value_before r2.2 r1.2 = false.

(** Whole numbers whose absolute values add up to at most 2^53: every sum of
    some of them is the same in int64, in float64 and in exact arithmetic,
    in whatever order it is taken. *)
Definition is_integer (q : Q) : bool := (Z.pos (Qden (Qred q)) =? 1)%Z.

Definition small_integers (l : list Q) : bool :=
  forallb is_integer l && Qle_bool (Qsum (Qabs <$> l)) (inject_Z (2 ^ 53)).

Record Numerics : Type := {
  (** [round((a / b) * 100, 2)] for two counts *)
  round_percentage : nat → nat → Q;
  (** [groupby(...)[y_col].sum()] and [.mean()] on the numbers of a group *)
  group_sum : list Q → Q;
  group_mean : list Q → Q;
  (** [result.sort_values(y_col, ascending=False)] *)
  sort_values : list (cell * cell) → list (cell * cell);

  (** The rounded percentage is a number of hundredths, one of the (at most
      two) nearest to the exact percentage; at an exact tie the float
      decides which.  (This holds of the float computation for every table
      of fewer than 2^37 cells; a worksheet has at most 2^34.) *)
  round_percentage_hundredths :
    ∀ a b, ∃ k : Z, (round_percentage a b == k # 100)%Q;
  round_percentage_nearest :
    ∀ a b, (0 < b)%nat →
      (round_percentage a b - Qnat a / Qnat b * 100 <= 1 # 200)%Q
      ∧ (Qnat a / Qnat b * 100 - round_percentage a b <= 1 # 200)%Q;
  (** On small whole numbers the sum is exact, and so is the mean when it is
      a whole number itself. *)
  group_sum_exact :
    ∀ l, small_integers l = true → (group_sum l == Qsum l)%Q;
  group_mean_exact :
    ∀ l, l ≠ [] → small_integers l = true → is_integer (Qmean l) = true →
      (group_mean l == Qmean l)%Q;
  (** The sort returns the rows it was given, in descending order. *)
  sort_values_perm : ∀ l, sort_values l ≡ₚ l;
  sort_values_sorted : ∀ l, StronglySorted descending (sort_values l)
}.

Existing Class Numerics.

(** * [ai_assistant_dialog.py]: [DataQualityAssessment] *)

Module DataQualityAssessment.

(** An entry of an [issues] list.  The [message] text only formats the
    other fields and is left out. *)
Record Issue : Type := {
  type_ : string;
  severity : string;
  count : option nat;
  percentage : option Q
}.

Inductive Suggestions : Type :=
  | NoSuggestions
    (** [std] needs a square root and feeds no decision; it is left out. *)
  | NumericSuggestions (mean_ median_ : Q) (mode_ : cell)
  | CategoricalSuggestions (mode_ : cell) (unique_count most_common_count : nat).

Record ColumnAnalysis : Type := {
  data_type : string;
  null_count : nat;
  null_percentage : Q;
  suggestions : Suggestions;
  issues : list Issue
}.

(** The missing percentage of a series before it is rounded.  It is only
    compared with 50, 20 and 0, and the float [(a / b) * 100] compares with
    them as the exact ratio does. *)
Definition null_pct (s : list cell) : Q :=
  if (0 <? length s)%nat
  then (Qnat (isnull_sum s) / Qnat (length s) * 100)%Q
  else 0%Q.

(** Tukey's fences [q1 - 1.5 iqr] and [q3 + 1.5 iqr] on the valid numbers of
    a column, and the values outside them. *)
Definition fences (valid : list Q) : Q * Q :=
  let q1 := quantile (1 # 4) valid in
  let q3 := quantile (3 # 4) valid in
  let iqr := (q3 - q1)%Q in
  ((q1 - (3 # 2) * iqr)%Q, (q3 + (3 # 2) * iqr)%Q).

Definition outside (f : Q * Q) (v : Q) : bool := Qltb v f.1 || Qgtb v f.2.

Definition outlier_values (valid : list Q) : list Q :=
  let f := fences valid in
  filter (λ v, outside f v = true) valid.

Definition outlier_issues (d : dtype) (s : list cell) : list Issue :=
  if is_numeric_dtype d then
    let valid := numbers s in
    let outlier_count := length (outlier_values valid) in
    if (0 <? length valid)%nat && (0 <? outlier_count)%nat then
      [ {| type_ := "outliers";
           severity := if (outlier_count <=? 5)%nat then "medium" else "high";
           count := Some outlier_count;
           percentage := None |} ]
    else []
  else [].

Definition missing_issues (s : list cell) : list Issue :=
  let p := null_pct s in
  if Qgtb p 50 then
    [ {| type_ := "high_missing"; severity := "critical";
         count := None; percentage := Some p |} ]
  else if Qgtb p 20 then
    [ {| type_ := "medium_missing"; severity := "medium";
         count := None; percentage := Some p |} ]
  else if Qgtb p 0 then
    [ {| type_ := "low_missing"; severity := "low";
         count := None; percentage := Some p |} ]
  else [].

Definition column_suggestions (d : dtype) (s : list cell) : Suggestions :=
  if is_numeric_dtype d then
    let valid := numbers s in
    if (0 <? length valid)%nat then
      NumericSuggestions (round2 (Qmean valid)) (round2 (Qmedian valid))
                         (Num (Qmode valid))
    else NoSuggestions
  else
    let valid := dropna s in
    if (0 <? length valid)%nat then
      let m := default (Str "Unknown") (most_common valid) in
      CategoricalSuggestions m (nunique valid) (occurrences m valid)
    else NoSuggestions.

Section Assessment.

Variable np : Numerics.

(** [round((a / b) * 100 if b > 0 else 0, 2)] *)
Definition rounded_percentage (a b : nat) : Q :=
  if (0 <? b)%nat then round_percentage np a b else 0%Q.

(** [_analyze_column(series, col_name)]: the outlier issue, if any, is
    appended before the missing-value issue. *)
Definition _analyze_column (d : dtype) (s : list cell) : ColumnAnalysis :=
  {| data_type := if is_numeric_dtype d then "numeric" else "categorical";
     null_count := isnull_sum s;
     null_percentage := rounded_percentage (isnull_sum s) (length s);
     suggestions := column_suggestions d s;
     issues := outlier_issues d s ++ missing_issues s |}.

End Assessment.

Definition count_severity (sev : string) (l : list Issue) : nat :=
  length (filter (λ i, severity i = sev) l).

Definition clamp01 (x : Q) : Q := Qmax' 0 (Qmin' 1 x).

(** [_calculate_quality_score(nan_percentage, issues, df)] *)
Definition _calculate_quality_score
    (nan_percentage : Q) (issues : list Issue) (df : DataFrame) : Q :=
  let base_score := 1%Q in
  let base_score :=
    if Qgtb nan_percentage 50 then (base_score - (5 # 10))%Q
    else if Qgtb nan_percentage 20 then (base_score - (3 # 10))%Q
    else if Qgtb nan_percentage 5 then (base_score - (1 # 10))%Q
    else base_score in
  let critical_issues := count_severity "critical" issues in
  let medium_issues := count_severity "medium" issues in
  let base_score := (base_score - Qnat critical_issues * (2 # 10))%Q in
  let base_score := (base_score - Qnat medium_issues * (1 # 10))%Q in
  let base_score :=
    if (1000 <? len df)%nat then (base_score + (5 # 100))%Q else base_score in
  let base_score :=
    if (5 <? length (columns df))%nat then (base_score + (5 # 100))%Q else base_score in
  clamp01 base_score.

(** [df.isnull().sum().sum()] *)
Definition total_nan (df : DataFrame) : nat :=
  sum_list ((λ c, isnull_sum (series df c)) <$> column_names df).

Definition nan_percentage_of (df : DataFrame) : Q :=
  if (0 <? size df)%nat
  then (Qnat (total_nan df) / Qnat (size df) * 100)%Q
  else 0%Q.

Section Columns.

Variable np : Numerics.

Definition analyze_columns (df : DataFrame) : list (string * ColumnAnalysis) :=
  (λ c, (c.1, _analyze_column np c.2 (series df c.1))) <$> columns df.

(** [overall_issues]: every column's issues, in column order. *)
Definition overall_issues_of (df : DataFrame) : list Issue :=
  mjoin ((λ ca, issues ca.2) <$> analyze_columns df).

End Columns.

(** [_detect_outliers(df)]: per numeric column, at most five outliers. *)
Definition _detect_outliers (df : DataFrame) : list (string * list Q) :=
  omap (λ c, if is_numeric_dtype c.2 then
               let o := outlier_values (numbers (series df c.1)) in
               match o with [] => None | _ => Some (c.1, take 5 o) end
             else None) (columns df).

Record Recommendation : Type := {
  priority : string;
  action : string;
  confidence : Q
}.

(** [_generate_recommendations(nan_percentage, column_analysis, outliers)] *)
Definition _generate_recommendations
    (nan_percentage : Q) (outliers : list (string * list Q)) : list Recommendation :=
  (if Qgtb nan_percentage 50 then
     [ {| priority := "critical"; action := "review_data_source"; confidence := 9 # 10 |} ]
   else if Qgtb nan_percentage 20 then
     [ {| priority := "high"; action := "statistical_imputation"; confidence := 8 # 10 |} ]
   else if Qgtb nan_percentage 0 then
     [ {| priority := "medium"; action := "conservative_fill"; confidence := 85 # 100 |} ]
   else [])
  ++ match outliers with
     | [] => []
     | _ => [ {| priority := "medium"; action := "investigate_outliers"; confidence := 7 # 10 |} ]
     end.

Record QualityReport : Type := {
  quality_score : Q;
  total_rows : nat;
  total_columns : nat;
  total_nan_cells : nat;
  nan_percentage : Q;
  column_analysis : list (string * ColumnAnalysis);
  outliers : list (string * list Q);
  overall_issues : list Issue;
  recommendations : list Recommendation
}.

(** [assess_data_quality(df)]: the score and the recommendations read the
    percentage before it is rounded. *)
Definition assess_data_quality (np : Numerics) (df : DataFrame) : QualityReport :=
  let pct := nan_percentage_of df in
  let all_issues := overall_issues_of np df in
  let out := _detect_outliers df in
  {| quality_score := _calculate_quality_score pct all_issues df;
     total_rows := len df;
     total_columns := length (columns df);
     total_nan_cells := total_nan df;
     nan_percentage := rounded_percentage np (total_nan df) (size df);
     column_analysis := analyze_columns np df;
     outliers := out;
     overall_issues := all_issues;
     recommendations := _generate_recommendations pct out |}.

End DataQualityAssessment.

(** * Reading a number from text

    Python's [float(text)] and the string branch of [pd.to_numeric] are not
    code of this repository: the functions below take the reader as a
    parameter.  The reader of [pd.to_numeric] is a [string → option Q]
    ([None]: the text is no number).  [float] also reads the literals
    [nan], [inf] and [infinity] and returns an infinity for a literal
    beyond the range of a float: its reader is a [string → option pyfloat]
    ([None]: [ValueError]).

    [parse_float] and [python_float] are the readers used to run the
    functions on concrete input: decimal literals with optional sign,
    fraction and exponent, surrounding white space ignored (digit separators
    are not read). *)

(** What [float(text)] returns. *)
Inductive pyfloat : Type :=
  | Finite (q : Q)
  | Infinity (negative : bool)
  | NotANumber.

Definition is_digit (a : ascii) : bool :=
  let n := nat_of_ascii a in (48 <=? n)%nat && (n <=? 57)%nat.

Definition is_space (a : ascii) : bool :=
  let n := nat_of_ascii a in (n =? 32)%nat || ((9 <=? n)%nat && (n <=? 13)%nat).

Definition digit_value (a : ascii) : Z := Z.of_nat (nat_of_ascii a - 48).

(** Leading digits of [l]: their value on top of [acc], how many, the rest. *)
Fixpoint read_digits (l : list ascii) (acc : Z) (n : nat) : Z * nat * list ascii :=
  match l with
  | a :: l' => if is_digit a then read_digits l' (acc * 10 + digit_value a)%Z (S n)
               else (acc, n, l)
  | [] => (acc, n, [])
  end.

Definition read_sign (l : list ascii) : bool * list ascii :=
  match l with
  | "-"%char :: l' => (true, l')
  | "+"%char :: l' => (false, l')
  | _ => (false, l)
  end.

Definition read_exponent (l : list ascii) : option Z :=
  match l with
  | [] => Some 0%Z
  | a :: l' =>
      if bool_decide (a = "e"%char ∨ a = "E"%char) then
        let '(neg, l1) := read_sign l' in
        let '(e, n, rest) := read_digits l1 0%Z 0 in
        match n, rest with
        | S _, [] => Some (if neg then - e else e)%Z
        | _, _ => None
        end
      else None
  end.

Definition scale10 (m e : Z) : Q :=
  if (0 <=? e)%Z then inject_Z (m * 10 ^ e)
  else Qmake m (Z.to_pos (10 ^ (- e))).

Definition strip (l : list ascii) : list ascii :=
  let drop_front := fix go (l : list ascii) :=
    match l with
    | a :: l' => if is_space a then go l' else l
    | [] => []
    end in
  reverse (drop_front (reverse (drop_front l))).

Definition parse_float (s : string) : option Q :=
  let '(neg, l) := read_sign (strip (list_ascii_of_string s)) in
  let '(ip, n_int, l1) := read_digits l 0%Z 0 in
  let '(m, n_frac, l2) :=
    match l1 with
    | "."%char :: l1' => read_digits l1' ip 0
    | _ => (ip, 0, l1)
    end in
  if (n_int + n_frac =? 0)%nat then None
  else
    e ← read_exponent l2;
    Some (scale10 (if neg then - m else m) (e - Z.of_nat n_frac)).

Definition lower (a : ascii) : ascii :=
  let n := nat_of_ascii a in
  if (65 <=? n)%nat && (n <=? 90)%nat then ascii_of_nat (n + 32) else a.

(** A literal at or beyond this bound rounds to an infinite float. *)
Definition float_overflow : Q := inject_Z (2 ^ 1024 - 2 ^ 970).

Definition python_float (s : string) : option pyfloat :=
  let '(neg, l) := read_sign (lower <$> strip (list_ascii_of_string s)) in
  let word := string_of_list_ascii l in
  if String.eqb word "nan" then Some NotANumber
  else if String.eqb word "inf" || String.eqb word "infinity" then
    Some (Infinity neg)
  else
    q ← parse_float s;
    Some (if Qle_bool float_overflow (Qabs q) then Infinity (Qltb q 0)
          else Finite q).

(** * [validators.py]: [DataValidator] *)

Module DataValidator.

(** [validate_dataframe(df)] with no required columns. *)
Definition validate_dataframe (df : DataFrame) : result exn unit :=
  if empty df then Err (EmptyDataError "DataFrame is empty") else Ok ().

(** [validate_column_selection(df, x_col, y_col)]: the trial conversion of a
    non-numeric measure column coerces and cannot raise. *)
Definition validate_column_selection
    (df : DataFrame) (x_col y_col : string) : result exn unit :=
  if negb (has_column df x_col) then
    Err (DataValidationError "X-axis column not found in data")
  else if negb (has_column df y_col) then
    Err (DataValidationError "Y-axis column not found in data")
  else Ok ().

(** [analyze_dataframe_structure(df)]: numeric columns, categorical columns
    (at most half of the rows distinct) and the suggested pair. *)
Definition numeric_columns (df : DataFrame) : list string :=
  (filter (λ c, is_numeric_dtype c.2 = true) (columns df)).*1.

Definition categorical_columns (df : DataFrame) : list string :=
  (filter (λ c, is_numeric_dtype c.2 = false
                ∧ (2 * nunique (series df c.1) ≤ len df)%nat) (columns df)).*1.

Definition suggested_columns (df : DataFrame) : option (string * string) :=
  match categorical_columns df, numeric_columns df, column_names df with
  | x :: _, y :: _, _ => Some (x, y)
  | _, _, c0 :: c1 :: _ => Some (c0, c1)
  | _, _, _ => None
  end.

End DataValidator.

(** * [data_processor.py]: [FlexibleDataProcessor] *)

(** A strategy entry [{"method": ..., "value": ...}]; either key may be
    absent.  A strategy is a [gmap string StrategyEntry]. *)
Record StrategyEntry : Type := {
  method : option string;
  value : option cell
}.

Definition fill_with (v : cell) : StrategyEntry :=
  {| method := Some "fill"; value := Some v |}.
Definition method_only (m : string) : StrategyEntry :=
  {| method := Some m; value := None |}.

(** ** Column operations of pandas *)

(** [df[col].fillna(v)]: every missing cell of the column becomes [v]; a
    numeric column that takes a string this way becomes an object column. *)
Definition fillna_row (i : nat) (v : cell) (r : list cell) : list cell :=
  if isnull (cell_at i r) then <[i := v]> r else r.

Definition fillna_dtype (d : dtype) (v : cell) (filled : bool) : dtype :=
  match d, v with
  | Numeric, Str _ => if filled then Object else Numeric
  | _, _ => d
  end.

Definition fillna (df : DataFrame) (col : string) (v : cell) : DataFrame :=
  match col_index df col with
  | Some i =>
      {| columns := (λ c, if bool_decide (c.1 = col)
                          then (c.1, fillna_dtype c.2 v (0 <? isnull_sum (series df col))%nat)
                          else c) <$> columns df;
         rows := fillna_row i v <$> rows df |}
  | None => df
  end.

(** [df.dropna(subset=[col])] *)
Definition dropna_subset (df : DataFrame) (col : string) : DataFrame :=
  match col_index df col with
  | Some i =>
      {| columns := columns df;
         rows := filter (λ r, isnull (cell_at i r) = false) (rows df) |}
  | None => df
  end.

(** [df.drop_duplicates()]: of rows equal in every column the first stays. *)
Fixpoint row_eqb (r1 r2 : list cell) : bool :=
  match r1, r2 with
  | [], [] => true
  | a :: r1', b :: r2' => cell_eqb a b && row_eqb r1' r2'
  | _, _ => false
  end.

Fixpoint drop_duplicate_rows (l : list (list cell)) : list (list cell) :=
  match l with
  | [] => []
  | r :: l' => r :: filter (λ r', row_eqb r' r = false) (drop_duplicate_rows l')
  end.

Definition drop_duplicates (df : DataFrame) : DataFrame :=
  {| columns := columns df; rows := drop_duplicate_rows (rows df) |}.

Module FlexibleDataProcessor.

(** Keys of a ["suggestions"] dict. *)
Inductive stat : Type := Mean | Median | Mode | Min | Max.

Record NumericSuggestions : Type := {
  mean : Q; median : Q; mode : Q; min : Q; max : Q
}.

Definition suggestion (k : stat) (s : NumericSuggestions) : Q :=
  match k with
  | Mean => mean s | Median => median s | Mode => mode s
  | Min => min s | Max => max s
  end.

Inductive Recommendation : Type :=
  | NumericRec (suggestions : NumericSuggestions) (recommended : stat)
  | CategoricalRec (mode_value : cell) (unique_values : nat) (recommended : string).

Record NanInfo : Type := {
  count : nat;
  percentage : Q;
  dtype_ : dtype
}.

Record NanAnalysis : Type := {
  total_rows : nat;
  total_cells : nat;
  columns_with_nan : gmap string NanInfo;
  total_nan_cells : nat;
  nan_percentage : Q;
  recommendations : gmap string Recommendation
}.

(** What [analyze_nan_values] returns: the analysis, or [{}]. *)
Inductive AnalysisDict : Type :=
  | EmptyDict
  | Analysis (a : NanAnalysis).

(** [nan_analysis.get("columns_with_nan", {})] and
    [nan_analysis.get("recommendations", {})] *)
Definition get_columns_with_nan (d : AnalysisDict) : gmap string NanInfo :=
  match d with Analysis a => columns_with_nan a | EmptyDict => ∅ end.
Definition get_recommendations (d : AnalysisDict) : gmap string Recommendation :=
  match d with Analysis a => recommendations a | EmptyDict => ∅ end.

Definition numeric_suggestions (s : list cell) : NumericSuggestions :=
  let valid_data := numbers s in
  if (0 <? length valid_data)%nat then
    {| mean := round2 (Qmean valid_data);
       median := round2 (Qmedian valid_data);
       mode := Qmode valid_data;
       min := Qminimum valid_data;
       max := Qmaximum valid_data |}
  else {| mean := 0; median := 0; mode := 0; min := 0; max := 0 |}.

Definition recommend (d : dtype) (s : list cell) : Recommendation :=
  if is_numeric_dtype d then
    NumericRec (numeric_suggestions s) Median
  else
    let valid_data := dropna s in
    let mode_value :=
      if (0 <? length valid_data)%nat
      then default (Str "Unknown") (series_mode valid_data)
      else Str "Unknown" in
    let unique_count :=
      if (0 <? length valid_data)%nat then nunique valid_data else 0 in
    CategoricalRec mode_value unique_count
      (if (unique_count <? 20)%nat then "mode" else "unknown").

Section Library.

Variable np : Numerics.

(** The body of the loop [for col in df.columns] of [analyze_nan_values];
    the percentage recorded is [round((nan_count / len(df)) * 100, 2)]. *)
Definition analyze_column (df : DataFrame) (acc : NanAnalysis) (col : string)
    : NanAnalysis :=
  let s := series df col in
  let nan_count := isnull_sum s in
  if (0 <? nan_count)%nat then
    {| total_rows := total_rows acc;
       total_cells := total_cells acc;
       columns_with_nan :=
         <[col := {| count := nan_count;
                     percentage := round_percentage np nan_count (len df);
                     dtype_ := dtype_of df col |}]> (columns_with_nan acc);
       total_nan_cells := total_nan_cells acc + nan_count;
       nan_percentage := FlexibleDataProcessor.nan_percentage acc;
       recommendations :=
         <[col := recommend (dtype_of df col) s]> (recommendations acc) |}
  else acc.

(** The [try] block of [analyze_nan_values]: the closing division raises on
    a table without cells. *)
Definition analyze_nan_values_body (df : DataFrame) : result exn NanAnalysis :=
  let nan_analysis :=
    foldl (analyze_column df)
          {| total_rows := len df; total_cells := size df;
             columns_with_nan := ∅; total_nan_cells := 0;
             nan_percentage := 0; recommendations := ∅ |}
          (column_names df) in
  if (total_cells nan_analysis =? 0)%nat then Err ZeroDivisionError
  else Ok {| total_rows := total_rows nan_analysis;
             total_cells := total_cells nan_analysis;
             columns_with_nan := columns_with_nan nan_analysis;
             total_nan_cells := total_nan_cells nan_analysis;
             nan_percentage :=
               round_percentage np (total_nan_cells nan_analysis)
                                   (total_cells nan_analysis);
             recommendations := recommendations nan_analysis |}.

(** [analyze_nan_values(df)]: [except Exception: ... return {}] *)
Definition analyze_nan_values (df : DataFrame) : AnalysisDict :=
  match analyze_nan_values_body df with
  | Ok a => Analysis a
  | Err _ => EmptyDict
  end.

(** The value [rec["suggestions"][rec["recommended"]]] of a numeric
    recommendation; [None] when the recommendation is not numeric. *)
Definition recommended_number (r : option Recommendation) : option Q :=
  match r with
  | Some (NumericRec s k) => Some (suggestion k s)
  | _ => None
  end.

(** [recommendations.get("mode", "Unknown")] *)
Definition get_mode (r : option Recommendation) : cell :=
  match r with
  | Some (CategoricalRec m _ _) => m
  | _ => Str "Unknown"
  end.

(** The entry [_get_default_nan_strategy] writes for one column. *)
Definition default_entry (nan_analysis : AnalysisDict) (col : string) : StrategyEntry :=
  match get_columns_with_nan nan_analysis !! col with
  | Some nan_info =>
      let recommendations := get_recommendations nan_analysis !! col in
      let nan_percentage := percentage nan_info in
      if Qgtb nan_percentage 50 then fill_with (Str "N/A")
      else if Qgtb nan_percentage 20 then
        match recommended_number recommendations with
        | Some recommended_value => fill_with (Num recommended_value)
        | None => fill_with (Str "Unknown")
        end
      else
        match recommended_number recommendations with
        | Some recommended_value => fill_with (Num recommended_value)
        | None => fill_with (get_mode recommendations)
        end
  | None => method_only "keep"
  end.

(** [_get_default_nan_strategy(df, nan_analysis)] *)
Definition _get_default_nan_strategy (df : DataFrame) (nan_analysis : AnalysisDict)
    : gmap string StrategyEntry :=
  foldl (λ strategy col, <[col := default_entry nan_analysis col]> strategy)
        ∅ (column_names df).

(** The fill value used when a ["fill"] entry carries none. *)
Definition suggested_fill (nan_analysis : AnalysisDict) (df_cleaned : DataFrame)
    (col : string) : cell :=
  match get_recommendations nan_analysis !! col with
  | Some (NumericRec s k) => Num (suggestion k s)
  | Some (CategoricalRec m _ _) => m
  | None => if is_numeric_dtype (dtype_of df_cleaned col) then Num 0 else Str "Unknown"
  end.

(** One round of the loop [for col in df_cleaned.columns] of
    [clean_data_with_strategy]. *)
Definition apply_strategy (nan_analysis : AnalysisDict)
    (nan_strategy : gmap string StrategyEntry)
    (df_cleaned : DataFrame) (col : string) : DataFrame :=
  match nan_strategy !! col with
  | Some strategy =>
      let method := default "fill" (method strategy) in
      if String.eqb method "fill" then
        let fill_value :=
          match value strategy with
          | Some v => v
          | None => suggested_fill nan_analysis df_cleaned col
          end in
        fillna df_cleaned col fill_value
      else if String.eqb method "drop" then dropna_subset df_cleaned col
      else if String.eqb method "keep" then df_cleaned
      else df_cleaned
  | None => df_cleaned
  end.

Definition apply_all (nan_analysis : AnalysisDict)
    (nan_strategy : gmap string StrategyEntry) (df : DataFrame) : DataFrame :=
  foldl (apply_strategy nan_analysis nan_strategy) df (column_names df).

Definition clean_data_with_strategy_body
    (df : DataFrame) (nan_strategy : option (gmap string StrategyEntry))
    : result exn DataFrame :=
  DataValidator.validate_dataframe df;;
  let nan_analysis := analyze_nan_values df in
  let nan_strategy :=
    match nan_strategy with
    | Some s => s
    | None => _get_default_nan_strategy df nan_analysis
    end in
  Ok (drop_duplicates (apply_all nan_analysis nan_strategy df)).

(** [clean_data_with_strategy(df, nan_strategy=None)] *)
Definition clean_data_with_strategy
    (df : DataFrame) (nan_strategy : option (gmap string StrategyEntry))
    : result exn DataFrame :=
  reraise_processing (clean_data_with_strategy_body df nan_strategy).

Definition clean_data (df : DataFrame) : result exn DataFrame :=
  clean_data_with_strategy df None.

(** ** Aggregation *)

(** [df.groupby(x_col)]: the distinct non-missing keys, sorted ascending
    (pandas' default [sort=True]). *)
Fixpoint insert_key (k : cell) (ks : list cell) : list cell :=
  match ks with
  | [] => [k]
  | k' :: ks' =>
      if cell_eqb k k' then ks
      else if cell_ltb k k' then k :: ks
      else k' :: insert_key k ks'
  end.

Definition group_keys (xs : list cell) : list cell :=
  foldl (λ ks k, insert_key k ks) [] (dropna xs).

(** The measure cells of the rows whose key is [k]. *)
Definition group_values (k : cell) (pairs : list (cell * cell)) : list cell :=
  (filter (λ p, cell_eqb p.1 k = true) pairs).*2.

(** The group-wise reductions of pandas: missing cells are skipped; the sum
    of nothing is 0, the mean, max and min of nothing are missing.  Sum and
    mean are the library's; a count, a maximum and a minimum are exact. *)
Definition aggregate (operation : string) (vals : list cell) : cell :=
  let nums := numbers vals in
  if String.eqb operation "sum" then Num (group_sum np nums)
  else if String.eqb operation "mean" then
    match nums with [] => NaN | _ => Num (group_mean np nums) end
  else if String.eqb operation "count" then Num (Qnat (length nums))
  else if String.eqb operation "max" then
    match nums with [] => NaN | _ => Num (Qmaximum nums) end
  else if String.eqb operation "min" then
    match nums with [] => NaN | _ => Num (Qminimum nums) end
  else Num (group_sum np nums).

(** [df.groupby(x_col)[y_col].<operation>().reset_index()]: one row per
    key.  [reset_index] cannot insert the key column beside a measure
    column of the same name and raises. *)
Definition groupby_aggregate (df : DataFrame) (x_col y_col operation : string)
    : result exn (list (cell * cell)) :=
  if String.eqb x_col y_col then
    Err (ValueError "cannot insert column, already exists")
  else
    let pairs := zip (series df x_col) (series df y_col) in
    Ok ((λ k, (k, aggregate operation (group_values k pairs)))
          <$> group_keys (series df x_col)).

Section Aggregation.

(** The string reader of [pd.to_numeric]. *)
Variable to_number : string → option Q.

(** [pd.to_numeric(s, errors='coerce')], cell by cell. *)
Definition to_numeric_cell (c : cell) : cell :=
  match c with
  | Str s => match to_number s with Some q => Num q | None => NaN end
  | _ => c
  end.

Definition to_numeric (df : DataFrame) (col : string) : DataFrame :=
  match col_index df col with
  | Some i =>
      {| columns := (λ c, if bool_decide (c.1 = col) then (c.1, Numeric) else c)
                      <$> columns df;
         rows := alter to_numeric_cell i <$> rows df |}
  | None => df
  end.

(** The NaN handling of [analyze_data_flexible], from [df.copy()] to the
    grouping: the table that is grouped. *)
Definition nan_handling (df : DataFrame) (x_col y_col operation : string)
    : DataFrame :=
  let x_nan_count := isnull_sum (series df x_col) in
  let y_nan_count := isnull_sum (series df y_col) in
  let df_analysis := df in
  let df_analysis :=
    if (0 <? x_nan_count)%nat then fillna df_analysis x_col (Str "Unknown")
    else df_analysis in
  let df_analysis :=
    if (0 <? y_nan_count)%nat then
      let df_analysis :=
        if negb (is_numeric_dtype (dtype_of df_analysis y_col))
        then to_numeric df_analysis y_col else df_analysis in
      if String.eqb operation "sum" || String.eqb operation "count"
      then fillna df_analysis y_col (Num 0)
      else df_analysis
    else df_analysis in
  if negb (is_numeric_dtype (dtype_of df_analysis y_col))
  then fillna (to_numeric df_analysis y_col) y_col (Num 0)
  else df_analysis.

Definition analyze_data_flexible_body
    (df : DataFrame) (x_col y_col operation : string)
    : result exn (list (cell * cell)) :=
  DataValidator.validate_column_selection df x_col y_col;;
  let df_analysis := nan_handling df x_col y_col operation in
  result ← groupby_aggregate df_analysis x_col y_col operation;
  let result := sort_values np result in
  match result with
  | [] => Err (EmptyDataError "Analysis resulted in empty dataset")
  | _ => Ok result
  end.

(** [analyze_data_flexible(df, x_col, y_col, operation)] *)
Definition analyze_data_flexible
    (df : DataFrame) (x_col y_col operation : string)
    : result exn (list (cell * cell)) :=
  reraise_processing (analyze_data_flexible_body df x_col y_col operation).

End Aggregation.

(** ** Suggestions for the column selectors *)

(** A warning of [suggest_analysis_options]; its text formats the fields. *)
Inductive Warning : Type :=
  | MissingCells (total : nat) (pct : Q)
  | HighNanColumn (col : string) (pct : Q).

Record AnalysisOptions : Type := {
  recommended_charts : list string;
  x_options : list string;
  y_options : list string;
  operations : list string;
  nan_info_ : AnalysisDict;
  warnings : list Warning
}.

(** [nan_analysis.get("total_nan_cells", 0)] *)
Definition get_total_nan_cells (d : AnalysisDict) : nat :=
  match d with Analysis a => total_nan_cells a | EmptyDict => 0 end.

Definition get_nan_percentage (d : AnalysisDict) : Q :=
  match d with Analysis a => nan_percentage a | EmptyDict => 0%Q end.

(** The loop over [columns_with_nan.items()]: the dict lists its columns in
    the order [analyze_nan_values] met them, which is the column order. *)
Definition columns_with_high_nan (df : DataFrame) (nan_analysis : AnalysisDict)
    : list (string * Q) :=
  omap (λ col,
          info ← get_columns_with_nan nan_analysis !! col;
          if Qgtb (percentage info) 50 then Some (col, percentage info) else None)
       (column_names df).

(** [suggest_analysis_options(df)].  Nothing in the [try] block raises on a
    table of the model, so the handler that returns the fallback dict is
    never entered. *)
Definition suggest_analysis_options (df : DataFrame) : AnalysisOptions :=
  let nan_analysis := analyze_nan_values df in
  let high := columns_with_high_nan df nan_analysis in
  let available_categorical :=
    filter (λ col, col ∉ high.*1) (DataValidator.categorical_columns df) in
  let available_numeric :=
    filter (λ col, col ∉ high.*1) (DataValidator.numeric_columns df) in
  {| recommended_charts :=
       match available_categorical, available_numeric with
       | _ :: _, _ :: _ => ["Bar Chart"; "Pie Chart"; "Line Chart"]
       | _, _ => if (2 <=? length (columns df))%nat then ["Bar Chart"] else []
       end;
     x_options :=
       match available_categorical with
       | [] => column_names df
       | _ => available_categorical
       end;
     y_options :=
       match available_numeric with
       | [] => column_names df
       | _ => available_numeric
       end;
     operations := ["sum"; "mean"; "count"; "max"; "min"];
     nan_info_ := nan_analysis;
     warnings :=
       ((if (0 <? get_total_nan_cells nan_analysis)%nat
         then [MissingCells (get_total_nan_cells nan_analysis)
                            (get_nan_percentage nan_analysis)]
         else [])
        ++ ((λ h, HighNanColumn h.1 h.2) <$> high))%list |}.

End Library.

End FlexibleDataProcessor.

(** * [gui_components.py]: the NaN strategy panel *)

Module NaNHandlingFrame.
Import FlexibleDataProcessor.

(** The state of the widgets of one column.  [_create_column_strategy]
    creates [strategy_vars[col]] and [strategy_widgets[col]] (with its
    ["fill_var"] and ["custom_var"]) together, so one record per column
    holds the three text variables. *)
Record ColumnWidgets : Type := {
  strategy_var : string;
  fill_var : string;
  custom_var : string
}.

Definition is_numeric_rec (r : option Recommendation) : bool :=
  match r with Some (NumericRec _ _) => true | _ => false end.

(** [recommendations["suggestions"][k]], read under the numeric test. *)
Definition rec_suggestion (k : stat) (r : option Recommendation) : Q :=
  match r with Some (NumericRec s _) => suggestion k s | _ => 0%Q end.

(** What the panel writes under ["value"]: a value that a cell of a table
    can hold (a number, a string, or the float nan, which is the missing
    marker), or an infinite float. *)
Inductive FillValue : Type :=
  | CellValue (c : cell)
  | InfiniteValue (negative : bool).

(** An entry of the dict [get_nan_strategy] returns: [{"method": m}] or
    [{"method": "fill", "value": v}]. *)
Record PanelEntry : Type := {
  entry_method : string;
  entry_value : option FillValue
}.

Definition panel_method (m : string) : PanelEntry :=
  {| entry_method := m; entry_value := None |}.
Definition panel_fill (v : FillValue) : PanelEntry :=
  {| entry_method := "fill"; entry_value := Some v |}.

Section Strategy.

(** Python's [float(text)]; [None] stands for [ValueError]. *)
Variable float : string → option pyfloat.

(** [value = float(value)], with [value = 0] on [ValueError]. *)
Definition custom_number (value : string) : FillValue :=
  match float value with
  | Some (Finite x) => CellValue (Num x)
  | Some NotANumber => CellValue NaN
  | Some (Infinity negative) => InfiniteValue negative
  | None => CellValue (Num 0)
  end.

(** The value of a ["fill"] entry, by the chosen fill method. *)
Definition fill_value (recommendations : option Recommendation)
    (w : ColumnWidgets) : FillValue :=
  let fill_method := fill_var w in
  let numeric := is_numeric_rec recommendations in
  if String.eqb fill_method "median" && numeric then
    CellValue (Num (rec_suggestion Median recommendations))
  else if String.eqb fill_method "mean" && numeric then
    CellValue (Num (rec_suggestion Mean recommendations))
  else if String.eqb fill_method "mode" then
    if numeric then CellValue (Num (rec_suggestion Mode recommendations))
    else CellValue (get_mode recommendations)
  else if String.eqb fill_method "zero" then CellValue (Num 0)
  else if String.eqb fill_method "unknown" then CellValue (Str "Unknown")
  else if String.eqb fill_method "empty" then CellValue (Str EmptyString)
  else if String.eqb fill_method "custom" then
    let value := custom_var w in
    if numeric then custom_number value else CellValue (Str value)
  else CellValue (Str "Unknown").

(** The entry written for one column, if any. *)
Definition strategy_entry (nan_analysis : AnalysisDict) (col : string)
    (w : ColumnWidgets) : option PanelEntry :=
  let method := strategy_var w in
  if String.eqb method "auto" then Some (panel_method "auto")
  else if String.eqb method "drop" then Some (panel_method "drop")
  else if String.eqb method "fill" then
    Some (panel_fill (fill_value (get_recommendations nan_analysis !! col) w))
  else None.

(** [get_nan_strategy()] *)
Definition get_nan_strategy (nan_analysis : AnalysisDict)
    (strategy_vars : gmap string ColumnWidgets) : gmap string PanelEntry :=
  map_imap (strategy_entry nan_analysis) strategy_vars.

End Strategy.

(** The dict of the panel read as a strategy of [clean_data_with_strategy],
    entry by entry.  An entry with an infinite fill value has no
    counterpart there, the tables of the model holding no infinite number:
    [finite_values] says that the dict has no such entry, and only then is
    [as_strategy] the strategy that the processor receives. *)
Definition as_entry (e : PanelEntry) : option StrategyEntry :=
  match entry_value e with
  | None => Some (method_only (entry_method e))
  | Some (CellValue v) =>
      Some {| method := Some (entry_method e); value := Some v |}
  | Some (InfiniteValue _) => None
  end.

Definition as_strategy (s : gmap string PanelEntry) : gmap string StrategyEntry :=
  omap as_entry s.

Definition finite_values (s : gmap string PanelEntry) : Prop :=
  map_Forall (λ _ e, is_Some (as_entry e)) s.

(** [_create_column_strategy]: the choices a column starts with. *)
Definition _create_column_strategy (recommendations : option Recommendation)
    : ColumnWidgets :=
  if is_numeric_rec recommendations then
    {| strategy_var := "auto"; fill_var := "median"; custom_var := "0" |}
  else
    {| strategy_var := "auto"; fill_var := "unknown"; custom_var := "Unknown" |}.

(** [_display_analysis_results]: without a column that has a missing cell
    the method returns before it touches the widgets; otherwise it replaces
    them by one fresh group per such column. *)
Definition _display_analysis_results (nan_analysis : AnalysisDict)
    (strategy_vars : gmap string ColumnWidgets) : gmap string ColumnWidgets :=
  if bool_decide (get_columns_with_nan nan_analysis = ∅) then strategy_vars
  else
    map_imap (λ col _,
                Some (_create_column_strategy (get_recommendations nan_analysis !! col)))
             (get_columns_with_nan nan_analysis).

Definition set_strategy (m : string) (w : ColumnWidgets) : ColumnWidgets :=
  {| strategy_var := m; fill_var := fill_var w; custom_var := custom_var w |}.

Definition set_fill (m : string) (w : ColumnWidgets) : ColumnWidgets :=
  {| strategy_var := "fill"; fill_var := m; custom_var := custom_var w |}.

(** The four buttons that set every column at once.  [confirmed] is the
    answer to the question [_apply_drop_strategy] asks first. *)
Definition _apply_auto_strategy (strategy_vars : gmap string ColumnWidgets)
    : gmap string ColumnWidgets :=
  set_strategy "auto" <$> strategy_vars.

Definition _apply_drop_strategy (confirmed : bool)
    (strategy_vars : gmap string ColumnWidgets) : gmap string ColumnWidgets :=
  if confirmed then set_strategy "drop" <$> strategy_vars else strategy_vars.

Definition _apply_zero_strategy (nan_analysis : AnalysisDict)
    (strategy_vars : gmap string ColumnWidgets) : gmap string ColumnWidgets :=
  map_imap (λ col w,
              Some (if is_numeric_rec (get_recommendations nan_analysis !! col)
                    then set_fill "zero" w else w))
           strategy_vars.

Definition _apply_unknown_strategy (nan_analysis : AnalysisDict)
    (strategy_vars : gmap string ColumnWidgets) : gmap string ColumnWidgets :=
  map_imap (λ col w,
              Some (if negb (is_numeric_rec (get_recommendations nan_analysis !! col))
                    then set_fill "unknown" w else w))
           strategy_vars.

(** [has_nan_data()] *)
Definition has_nan_data (nan_analysis : AnalysisDict) : bool :=
  bool_decide (get_columns_with_nan nan_analysis ≠ ∅).

End NaNHandlingFrame.

(** * [excel_processor.py]: [FlexibleExcelProcessor] *)

Module FlexibleExcelProcessor.
Import FlexibleDataProcessor.

(** The data attributes of the processor that the methods below read and
    write ([data_analysis] feeds the info text only). *)
Record Processor : Type := {
  raw_data : option DataFrame;
  processed_data : option DataFrame;
  analyzed_data : option (list (cell * cell))
}.

(** Every exception raised inside a method of the processor, its own
    [ExcelProcessorError("No data loaded ...")] included, is caught and
    re-raised as [ExcelProcessorError]. *)
Inductive failure : Type :=
  | NoDataLoaded
  | Raised (e : exn).

Inductive processor_exn : Type :=
  | ExcelProcessorError (cause : failure).

Inductive CompatibilityIssue : Type :=
  | XShouldBeCategorical
  | YShouldBeNumeric.

(** What [_check_column_compatibility] returns: the full dict, or the dict
    [{'score': 0, 'issues': [...]}] of its handler. *)
Inductive Compatibility : Type :=
  | Compatible (score : Q) (x_is_categorical y_is_numeric : bool)
               (issues : list CompatibilityIssue) (suitable_for_analysis : bool)
  | CompatibilityError.

(** [_check_column_compatibility(x_col, y_col)]: [raw_data[col]] raises on a
    name that is no column. *)
Definition _check_column_compatibility (raw_data : DataFrame) (x_col y_col : string)
    : Compatibility :=
  if has_column raw_data x_col && has_column raw_data y_col then
    let x_is_categorical := negb (is_numeric_dtype (dtype_of raw_data x_col)) in
    let y_is_numeric := is_numeric_dtype (dtype_of raw_data y_col) in
    let compatibility_score :=
      (if x_is_categorical && y_is_numeric then 8 # 10 else 5 # 10)%Q in
    let issues :=
      ((if negb x_is_categorical then [XShouldBeCategorical] else [])
       ++ (if negb y_is_numeric then [YShouldBeNumeric] else []))%list in
    Compatible compatibility_score x_is_categorical y_is_numeric issues
               (bool_decide (length issues = 0))
  else CompatibilityError.

Record Estimate : Type := {
  categories : nat;
  data_points : nat;
  bar : string;
  pie : string;
  line : string
}.

(** [_estimate_results(x_col, y_col, operation)]; [None] stands for the dict
    of the handler, which carries no chart suitability. *)
Definition _estimate_results (raw_data : DataFrame) (x_col : string)
    : option Estimate :=
  if has_column raw_data x_col then
    let x_unique := nunique (series raw_data x_col) in
    Some {| categories := x_unique;
            data_points := len raw_data;
            bar := if (x_unique <=? 20)%nat then "excellent"
                   else if (x_unique <=? 50)%nat then "good" else "poor";
            pie := if (x_unique <=? 10)%nat then "excellent" else "poor";
            line := if (x_unique <=? 30)%nat then "good" else "poor" |}
  else None.

Inductive PotentialIssue : Type :=
  | TooManyCategories (x_unique : nat)
  | NonNumericValues (count : nat)
  | AnalysisError.

Record StrategySuggestion : Type := {
  strategy : string;
  confidence : Q;
  auto_proceed : bool
}.

(** [_suggest_strategy(quality_assessment, x_col, y_col)] *)
Definition _suggest_strategy (quality_assessment : DataQualityAssessment.QualityReport)
    : StrategySuggestion :=
  let quality_score := DataQualityAssessment.quality_score quality_assessment in
  {| strategy :=
       if Qgtb quality_score (8 # 10) then "proceed_immediately"
       else if Qgtb quality_score (6 # 10) then "minor_cleaning"
       else if Qgtb quality_score (4 # 10) then "moderate_cleaning"
       else "major_cleaning";
     confidence := quality_score;
     auto_proceed := Qgtb quality_score (7 # 10) |}.

(** [if custom_strategy:] is false for [None] and for the empty dict. *)
Definition truthy (custom_strategy : option (gmap string StrategyEntry)) : bool :=
  match custom_strategy with
  | Some s => bool_decide (s ≠ ∅)
  | None => false
  end.

Record Preview : Type := {
  quality_assessment : DataQualityAssessment.QualityReport;
  column_compatibility : Compatibility;
  estimated_results : option Estimate;
  potential_issues : list PotentialIssue;
  recommended_strategy : StrategySuggestion
}.

Section Processing.

Variable np : Numerics.

(** The string reader of [pd.to_numeric]. *)
Variable to_number : string → option Q.

(** [pd.to_numeric(series, errors='raise')] raises on a text that is no
    number. *)
Definition to_numeric_raises (ys : list cell) : bool :=
  existsb (λ c, match c with Str s => bool_decide (to_number s = None) | _ => false end) ys.

(** [_identify_potential_issues(x_col, y_col)].  A missing measure column
    raises inside the handler of the inner [try], which the outer handler
    turns into an [analysis_error] entry after what was found before. *)
Definition _identify_potential_issues (raw_data : DataFrame) (x_col y_col : string)
    : list PotentialIssue :=
  if has_column raw_data x_col then
    let x_unique := nunique (series raw_data x_col) in
    let issues :=
      if (50 <? x_unique)%nat then [TooManyCategories x_unique] else [] in
    if has_column raw_data y_col then
      let ys := series raw_data y_col in
      let y_non_numeric_count :=
        if to_numeric_raises ys
        then length (filter (λ c, isnull (to_numeric_cell to_number c) = true) ys)
        else 0 in
      (issues ++ (if (0 <? y_non_numeric_count)%nat
                  then [NonNumericValues y_non_numeric_count] else []))%list
    else (issues ++ [AnalysisError])%list
  else [AnalysisError].

(** [preview_analysis(x_col, y_col, operation)] *)
Definition preview_analysis (p : Processor) (x_col y_col : string)
    : result processor_exn Preview :=
  match raw_data p with
  | None => Err (ExcelProcessorError NoDataLoaded)
  | Some raw =>
      let quality_assessment := DataQualityAssessment.assess_data_quality np raw in
      Ok {| quality_assessment := quality_assessment;
            column_compatibility := _check_column_compatibility raw x_col y_col;
            estimated_results := _estimate_results raw x_col;
            potential_issues := _identify_potential_issues raw x_col y_col;
            recommended_strategy := _suggest_strategy quality_assessment |}
  end.

(** [process_data(x_col, y_col, operation, custom_strategy)]: the outcome
    and the processor afterwards.  [processed_data] is assigned as soon as
    cleaning returns, [analyzed_data] only when the aggregation returns. *)
Definition process_data (p : Processor) (x_col y_col operation : string)
    (custom_strategy : option (gmap string StrategyEntry))
    : result processor_exn (list (cell * cell)) * Processor :=
  match raw_data p with
  | None => (Err (ExcelProcessorError NoDataLoaded), p)
  | Some raw =>
      let cleaned :=
        if truthy custom_strategy
        then clean_data_with_strategy np raw custom_strategy
        else clean_data np raw in
      match cleaned with
      | Err e => (Err (ExcelProcessorError (Raised e)), p)
      | Ok d =>
          let p := {| raw_data := raw_data p;
                      processed_data := Some d;
                      analyzed_data := analyzed_data p |} in
          match analyze_data_flexible np to_number d x_col y_col operation with
          | Err e => (Err (ExcelProcessorError (Raised e)), p)
          | Ok r =>
              (Ok r, {| raw_data := raw_data p;
                        processed_data := processed_data p;
                        analyzed_data := Some r |})
          end
      end
  end.

End Processing.

(** [is_ready_for_processing()], [is_ready_for_charting()] *)
Definition is_ready_for_processing (p : Processor) : bool :=
  bool_decide (is_Some (raw_data p)).
Definition is_ready_for_charting (p : Processor) : bool :=
  bool_decide (is_Some (analyzed_data p)).

End FlexibleExcelProcessor.

(** * [ai_assistant_dialog.py]: [IntelligentAnalysisDialog] *)

Module IntelligentAnalysisDialog.

(** The four texts of [_generate_strategy_text]. *)
Inductive StrategyText : Type :=
  | FillNotApplicable
  | StatisticalFill
  | SafeFill
  | NoProcessingNeeded.

(** [_generate_strategy_text()]: reads the rounded percentage of the
    report. *)
Definition _generate_strategy_text
    (quality_assessment : DataQualityAssessment.QualityReport) : StrategyText :=
  let nan_percentage := DataQualityAssessment.nan_percentage quality_assessment in
  if Qgtb nan_percentage 50 then FillNotApplicable
  else if Qgtb nan_percentage 20 then StatisticalFill
  else if Qgtb nan_percentage 0 then SafeFill
  else NoProcessingNeeded.

(** The button [_create_action_buttons] packs on the right: the one that
    proceeds, or the one that asks for confirmation first. *)
Inductive Button : Type :=
  | ProceedButton
  | WarningButton.

Definition _create_action_buttons
    (quality_assessment : DataQualityAssessment.QualityReport) : Button :=
  if Qgtb (DataQualityAssessment.quality_score quality_assessment) (5 # 10)
  then ProceedButton else WarningButton.

End IntelligentAnalysisDialog.

(** * [chart_creator.py]: [FlexibleChartCreator] *)

Module FlexibleChartCreator.

(** What stops [create_pie_chart] before anything is drawn. *)
Inductive chart_failure : Type :=
  | NoPositiveValues
  | Invalid (e : exn).

(** [raise ChartCreationError(f"Pie chart creation failed: {e}")] *)
Inductive chart_exn : Type :=
  | ChartCreationError (cause : chart_failure).

(** [df[y_col] > 0]: false for a missing value. *)
Definition positive (r : cell * cell) : bool :=
  match r.2 with Num q => Qltb 0 q | _ => false end.

(** [create_pie_chart(df, x_col, y_col, ...)] on the table of an
    aggregation, whose two columns are the category and the value: the
    rows handed to [ax.pie].  Creating the directory, drawing and saving
    the figure are outside the model. *)
Definition create_pie_chart (df : list (cell * cell))
    : result chart_exn (list (cell * cell)) :=
  match df with
  | [] => Err (ChartCreationError (Invalid (EmptyDataError "DataFrame is empty")))
  | _ =>
      let df_filtered := filter (λ r, positive r = true) df in
      match df_filtered with
      | [] => Err (ChartCreationError NoPositiveValues)
      | _ =>
          Ok (if (10 <? length df_filtered)%nat
              then take 10 df_filtered else df_filtered)
      end
  end.

End FlexibleChartCreator.

(** * [gui_components.py]: the column selectors *)

Module FlexibleAnalysisFrame.

(** The two text variables of the selectors. *)
Record Selection : Type := {
  x_column_var : string;
  y_column_var : string
}.

(** [if suggested and suggested in options: var.set(suggested)
     elif options: var.set(options[0])] *)
Definition choose (suggested : option string) (options : list string)
    (current : string) : string :=
  let first := match options with o :: _ => o | [] => current end in
  match suggested with
  | Some s =>
      if negb (String.eqb s EmptyString) && bool_decide (s ∈ options)
      then s else first
  | None => first
  end.

(** [update_column_options(x_options, y_options, suggested_x, suggested_y)] *)
Definition update_column_options (x_options y_options : list string)
    (suggested_x suggested_y : option string) (sel : Selection) : Selection :=
  {| x_column_var := choose suggested_x x_options (x_column_var sel);
     y_column_var := choose suggested_y y_options (y_column_var sel) |}.

(** [has_valid_selection()] *)
Definition has_valid_selection (sel : Selection) : bool :=
  negb (String.eqb (x_column_var sel) EmptyString)
  && negb (String.eqb (y_column_var sel) EmptyString).

End FlexibleAnalysisFrame.

(** * [gui_app.py]: [ExcelProcessorGUI] *)

Module ExcelProcessorGUI.
Import FlexibleDataProcessor.

(** [_on_file_selected]: the selection after a table is loaded.  The dict
    of [suggest_analysis_options] has no key [suggested_x] or
    [suggested_y], so [suggestions.get(...)] gives [None] for both. *)
Definition _on_file_selected (np : Numerics) (raw : DataFrame)
    (sel : FlexibleAnalysisFrame.Selection) : FlexibleAnalysisFrame.Selection :=
  let suggestions := suggest_analysis_options np raw in
  FlexibleAnalysisFrame.update_column_options
    (x_options suggestions) (y_options suggestions) None None sel.

(** The strategy [_execute_analysis] hands to [process_data]: the one the
    panel reported last, if it is not empty and the panel has analysed a
    table with missing cells. *)
Definition nan_strategy_of
    (custom_nan_strategy : option (gmap string StrategyEntry))
    (has_nan_data : bool) : option (gmap string StrategyEntry) :=
  if FlexibleExcelProcessor.truthy custom_nan_strategy && has_nan_data
  then custom_nan_strategy else None.

End ExcelProcessorGUI.

(** * Properties *)

(** Closes a goal about concrete data by evaluating it (the hypotheses play
    no part and are dropped first). *)
Ltac by_computing :=
  repeat match goal with H : _ |- _ => clear H end;
  vm_compute; first [done | lia].

(** ** Comparisons of rationals *)

Lemma Qltb_lt (x y : Q) : Qltb x y = true ↔ (x < y)%Q.
Proof.
  unfold Qltb. rewrite negb_true_iff. split.
  - intros H. apply Qnot_le_lt. intros Hle.
    apply Qle_bool_iff in Hle. congruence.
  - intros H. destruct (Qle_bool y x) eqn:E; [|done].
    apply Qle_bool_iff in E. exfalso. exact (Qlt_not_le _ _ H E).
Qed.

Lemma Qltb_ge (x y : Q) : Qltb x y = false ↔ (y <= x)%Q.
Proof.
  unfold Qltb. rewrite negb_false_iff. apply Qle_bool_iff.
Qed.

Lemma Qgtb_gt (x y : Q) : Qgtb x y = true ↔ (y < x)%Q.
Proof. apply Qltb_lt. Qed.

Lemma Qgtb_le (x y : Q) : Qgtb x y = false ↔ (x <= y)%Q.
Proof. apply Qltb_ge. Qed.

#[export] Instance Qltb_proper : Proper (Qeq ==> Qeq ==> eq) Qltb.
Proof. intros x x' Hx y y' Hy. unfold Qltb. by rewrite Hx, Hy. Qed.

#[export] Instance Qgtb_proper : Proper (Qeq ==> Qeq ==> eq) Qgtb.
Proof. intros x x' Hx y y' Hy. unfold Qgtb. by rewrite Hx, Hy. Qed.

Lemma Qmin'_proper (a x y : Q) : (x == y)%Q → (Qmin' a x == Qmin' a y)%Q.
Proof.
  intros H. unfold Qmin'. rewrite H. by destruct (Qle_bool a y).
Qed.

Lemma Qmax'_proper (a x y : Q) : (x == y)%Q → (Qmax' a x == Qmax' a y)%Q.
Proof.
  intros H. unfold Qmax'. rewrite H. by destruct (Qle_bool a y).
Qed.

Lemma Qnat_0_div (n : Q) : (Qnat 0 / n * 100 == 0)%Q.
Proof. unfold Qnat. simpl. unfold Qdiv. ring. Qed.

Lemma Qnat_lt (x y : nat) : (Qnat x < Qnat y)%Q ↔ (x < y)%nat.
Proof. unfold Qnat. rewrite <- Zlt_Qlt. lia. Qed.

Lemma Qnat_le (x y : nat) : (Qnat x <= Qnat y)%Q ↔ (x ≤ y)%nat.
Proof. unfold Qnat. rewrite <- Zle_Qle. lia. Qed.

Lemma Qnat_mul (x y : nat) : (Qnat (x * y) == Qnat x * Qnat y)%Q.
Proof. unfold Qnat. rewrite Nat2Z.inj_mul, inject_Z_mult. reflexivity. Qed.

(** A share of [a] in [b], in percent, exceeds [t] exactly when
    [t * b < 100 * a]. *)
Lemma percent_gt (t a b : nat) :
  (0 < b)%nat →
  (Qnat t < Qnat a / Qnat b * 100)%Q ↔ (t * b < 100 * a)%nat.
Proof.
  intros Hb. rewrite <- Qnat_lt, !Qnat_mul. change (Qnat 100) with 100%Q.
  assert (0 < Qnat b)%Q as Hq by (change 0%Q with (Qnat 0); by apply Qnat_lt).
  rewrite <- (Qmult_lt_r (Qnat t) _ (Qnat b) Hq).
  assert (Qnat a / Qnat b * 100 * Qnat b == 100 * Qnat a)%Q as ->
    by (field; lra).
  done.
Qed.

(** ** The textbook library

    Exact arithmetic: the percentage rounded from the exact ratio, exact
    sums and means, and a stable insertion sort.  It satisfies the laws of
    [Numerics], and the examples below are run with it. *)

Lemma value_before_asym a b : value_before a b = true → value_before b a = false.
Proof.
  destruct a, b; simpl; try done.
  rewrite Qltb_lt, Qltb_ge. apply Qlt_le_weak.
Qed.

Lemma value_before_neg_trans a b c :
  value_before a b = false → value_before b c = false → value_before a c = false.
Proof.
  destruct a, b, c; simpl; try done.
  rewrite !Qltb_ge. intros H1 H2. by eapply Qle_trans.
Qed.

(** Insertion behind the rows that are not below the new one: rows of equal
    value keep the order they had. *)
Fixpoint insert_row (r : cell * cell) (l : list (cell * cell)) : list (cell * cell) :=
  match l with
  | [] => [r]
  | r' :: l' => if value_before r'.2 r.2 then r' :: insert_row r l' else r :: l
  end.

Definition stable_sort_descending (l : list (cell * cell)) : list (cell * cell) :=
  foldr insert_row [] l.

Lemma insert_row_perm r l : insert_row r l ≡ₚ r :: l.
Proof.
  induction l as [|r' l IH]; [done|]. simpl.
  destruct (value_before r'.2 r.2); [|done].
  rewrite IH. apply Permutation_swap.
Qed.

Lemma stable_sort_descending_perm l : stable_sort_descending l ≡ₚ l.
Proof.
  induction l as [|r l IH]; [done|]. simpl.
  by rewrite insert_row_perm, IH.
Qed.

Lemma insert_row_descending r l :
  StronglySorted descending l → StronglySorted descending (insert_row r l).
Proof.
  induction l as [|r' l IH]; simpl; intros Hs.
  { repeat constructor. }
  apply StronglySorted_cons in Hs as [Hr' Hs].
  destruct (value_before r'.2 r.2) eqn:E.
  - apply StronglySorted_cons. split; [|by apply IH].
    rewrite insert_row_perm. constructor; [|done].
    by apply value_before_asym.
  - apply StronglySorted_cons. split; [|by apply StronglySorted_cons].
    constructor; [done|].
    eapply Forall_impl; [exact Hr'|]. intros x Hx.
    unfold descending in *. by eapply value_before_neg_trans.
Qed.

Lemma stable_sort_descending_sorted l :
  StronglySorted descending (stable_sort_descending l).
Proof.
  induction l as [|r l IH]; simpl; [constructor|]. by apply insert_row_descending.
Qed.

Lemma round2_cases (x : Q) :
  (round2 x == inject_Z (Qfloor (x * 100)) / 100
   ∧ x * 100 - inject_Z (Qfloor (x * 100)) <= 1 # 2)%Q
  ∨ (round2 x == inject_Z (Qfloor (x * 100) + 1) / 100
     ∧ 1 # 2 <= x * 100 - inject_Z (Qfloor (x * 100)))%Q.
Proof.
  unfold round2.
  destruct (Qltb (x * 100 - inject_Z (Qfloor (x * 100))) (1 # 2)) eqn:E1.
  { left. split; [done|]. apply Qltb_lt in E1. by apply Qlt_le_weak. }
  apply Qltb_ge in E1.
  destruct (Qltb (1 # 2) (x * 100 - inject_Z (Qfloor (x * 100)))) eqn:E2.
  { right. by split. }
  apply Qltb_ge in E2.
  destruct (Z.even _); [left|right]; by split.
Qed.

Lemma round2_hundredths (x : Q) : ∃ k : Z, (round2 x == k # 100)%Q.
Proof.
  assert (∀ z : Z, inject_Z z / 100 == z # 100)%Q as Hz.
  { intros z. unfold Qeq, Qdiv, Qmult, Qinv, inject_Z. simpl. lia. }
  destruct (round2_cases x) as [[H _]|[H _]]; eexists;
    (etrans; [exact H|apply Hz]).
Qed.

Lemma round2_nearest (x : Q) :
  (round2 x - x <= 1 # 200)%Q ∧ (x - round2 x <= 1 # 200)%Q.
Proof.
  pose proof (Qfloor_le (x * 100)) as Hle.
  pose proof (Qlt_floor (x * 100)) as Hlt.
  rewrite inject_Z_plus in Hlt. change (inject_Z 1) with 1%Q in Hlt.
  assert (∀ e : Q, e / 100 == e * (1 # 100))%Q as Hdiv by (intros e; field).
  destruct (round2_cases x) as [[H Hr]|[H Hr]]; rewrite H, Hdiv.
  - split; lra.
  - rewrite inject_Z_plus. change (inject_Z 1) with 1%Q.
    split; lra.
Qed.

Definition textbook : Numerics :=
  {| round_percentage a b := round2 (Qnat a / Qnat b * 100);
     group_sum := Qsum;
     group_mean := Qmean;
     sort_values := stable_sort_descending;
     round_percentage_hundredths a b := round2_hundredths _;
     round_percentage_nearest a b _ := round2_nearest _;
     group_sum_exact l _ := Qeq_refl _;
     group_mean_exact l _ _ _ := Qeq_refl _;
     sort_values_perm := stable_sort_descending_perm;
     sort_values_sorted := stable_sort_descending_sorted |}.

(** ** What the laws give *)

Section Laws.

Context {np : Numerics}.

Lemma sort_values_nil l : sort_values np l = [] ↔ l = [].
Proof.
  split.
  - intros H. apply Permutation_nil_r. rewrite <- H.
    symmetry. apply sort_values_perm.
  - intros ->. apply Permutation_nil_r, sort_values_perm.
Qed.

(** A recorded percentage lies between 0 and 100. *)
Lemma round_percentage_range a b :
  (0 < b)%nat → (a ≤ b)%nat →
  (0 <= round_percentage np a b)%Q ∧ (round_percentage np a b <= 100)%Q.
Proof.
  intros Hb Hab.
  destruct (round_percentage_hundredths np a b) as [k Hk].
  destruct (round_percentage_nearest np a b Hb) as [Hup Hdown].
  assert (0 <= Qnat a / Qnat b * 100)%Q as H0.
  { apply Qmult_le_0_compat; [|done].
    apply Qle_shift_div_l.
    - unfold Qnat. change 0%Q with (inject_Z 0). rewrite <- Zlt_Qlt. lia.
    - rewrite Qmult_0_l. unfold Qnat. change 0%Q with (inject_Z 0).
      rewrite <- Zle_Qle. lia. }
  assert (Qnat a / Qnat b * 100 <= 100)%Q as H1.
  { assert (Qnat a / Qnat b <= 1)%Q; [|lra].
    apply Qle_shift_div_r.
    - unfold Qnat. change 0%Q with (inject_Z 0). rewrite <- Zlt_Qlt. lia.
    - rewrite Qmult_1_l. unfold Qnat. rewrite <- Zle_Qle. lia. }
  set (e := (Qnat a / Qnat b * 100)%Q) in *. clearbody e.
  assert (- (1 # 200) <= k # 100)%Q as Hlo by (rewrite <- Hk; lra).
  assert (k # 100 <= 100 + (1 # 200))%Q as Hhi by (rewrite <- Hk; lra).
  unfold Qle in Hlo, Hhi. simpl in Hlo, Hhi.
  rewrite Hk. split; unfold Qle; simpl; lia.
Qed.

(** An exact percentage below 0.005 is recorded as 0. *)
Lemma round_percentage_small a b :
  (0 < b)%nat → (Qnat a / Qnat b * 100 < 5 # 1000)%Q →
  (round_percentage np a b == 0)%Q.
Proof.
  intros Hb Hsmall.
  destruct (round_percentage_hundredths np a b) as [k Hk].
  destruct (round_percentage_nearest np a b Hb) as [Hup Hdown].
  assert (0 <= Qnat a / Qnat b * 100)%Q as H0.
  { apply Qmult_le_0_compat; [|done].
    apply Qle_shift_div_l.
    - unfold Qnat. change 0%Q with (inject_Z 0). rewrite <- Zlt_Qlt. lia.
    - rewrite Qmult_0_l. unfold Qnat. change 0%Q with (inject_Z 0).
      rewrite <- Zle_Qle. lia. }
  set (e := (Qnat a / Qnat b * 100)%Q) in *. clearbody e.
  assert (- (1 # 200) <= k # 100)%Q as Hlo by (rewrite <- Hk; lra).
  assert (k # 100 < 1 # 100)%Q as Hhi by (rewrite <- Hk; lra).
  unfold Qle in Hlo. unfold Qlt in Hhi. simpl in Hlo, Hhi.
  rewrite Hk. assert (k = 0%Z) as -> by lia. done.
Qed.

Lemma round_percentage_zero b : (0 < b)%nat → (round_percentage np 0 b == 0)%Q.
Proof.
  intros Hb. apply round_percentage_small; [done|].
  rewrite Qnat_0_div. done.
Qed.

End Laws.

(** ** Quality assessment *)

Module QualityFacts.
Import DataQualityAssessment.

Lemma clamp01_proper (x y : Q) : (x == y)%Q → (clamp01 x == clamp01 y)%Q.
Proof. intros H. unfold clamp01. by apply Qmax'_proper, Qmin'_proper. Qed.

Lemma clamp01_range (x : Q) : (0 <= clamp01 x)%Q ∧ (clamp01 x <= 1)%Q.
Proof.
  unfold clamp01, Qmax', Qmin'.
  destruct (Qle_bool 1 x) eqn:E1.
  - by vm_compute.
  - destruct (Qle_bool 0 x) eqn:E0.
    + apply Qle_bool_iff in E0. split; [done|].
      apply Qlt_le_weak, Qltb_lt. unfold Qltb. by rewrite E1.
    + by vm_compute.
Qed.

(** A missing-value issue, as opposed to an outlier issue. *)
Definition is_missing_issue (i : Issue) : bool :=
  String.eqb (type_ i) "high_missing"
  || String.eqb (type_ i) "medium_missing"
  || String.eqb (type_ i) "low_missing".

Definition missing_related (a : ColumnAnalysis) : list Issue :=
  filter (λ i, is_missing_issue i = true) (issues a).

Lemma outlier_issues_not_missing d s :
  filter (λ i, is_missing_issue i = true) (outlier_issues d s) = [].
Proof.
  unfold outlier_issues.
  destruct (is_numeric_dtype d); [|done].
  destruct (_ && _); [|done].
  by destruct (_ <=? 5)%nat.
Qed.

Lemma missing_issues_all_missing s :
  filter (λ i, is_missing_issue i = true) (missing_issues s) = missing_issues s.
Proof.
  unfold missing_issues.
  by repeat (destruct (Qgtb _ _)).
Qed.

Lemma missing_related_eq {np : Numerics} d s :
  missing_related (_analyze_column np d s) = missing_issues s.
Proof.
  unfold missing_related, _analyze_column. simpl.
  by rewrite filter_app, outlier_issues_not_missing, missing_issues_all_missing.
Qed.

Definition missing_issue (t sev : string) (p : Q) : Issue :=
  {| type_ := t; severity := sev; count := None; percentage := Some p |}.

(** C4.  The missing-value issues of a column of [n] cells, [k] of them
    missing, are decided by the share of missing cells, in this order: more
    than 50 percent ([50 n < 100 k]) gives exactly one issue, of severity
    critical; otherwise more than 20 percent gives exactly one, of severity
    medium; otherwise any missing cell gives exactly one, of severity low; a
    column without missing cells gets none.  There is never more than one,
    and the percentage it carries is the share before rounding. *)
Theorem analyze_column_missing_issue {np : Numerics} (d : dtype) (s : list cell) :
  let n := length s in
  let k := isnull_sum s in
  let p := null_pct s in
  let found := missing_related (_analyze_column np d s) in
  ((50 * n < 100 * k)%nat →
     found = [missing_issue "high_missing" "critical" p])
  ∧ ((100 * k ≤ 50 * n)%nat → (20 * n < 100 * k)%nat →
     found = [missing_issue "medium_missing" "medium" p])
  ∧ ((100 * k ≤ 20 * n)%nat → (0 < k)%nat →
     found = [missing_issue "low_missing" "low" p])
  ∧ (k = 0 → found = [])
  ∧ (length found ≤ 1)%nat
  ∧ ((0 < n)%nat → p = (Qnat k / Qnat n * 100)%Q).
Proof.
  intros n k p found. subst found. rewrite missing_related_eq.
  unfold missing_issues. fold p.
  assert (∀ t : nat, Qgtb p (Qnat t) = true ↔ (t * n < 100 * k)%nat) as Hgt.
  { intros t. rewrite Qgtb_gt. unfold p, null_pct. fold n k.
    destruct (0 <? n)%nat eqn:En.
    - apply percent_gt. by apply Nat.ltb_lt.
    - apply Nat.ltb_ge in En. assert (n = 0) as Hn by lia.
      assert (k = 0) as ->.
      { unfold k, n in *. apply nil_length_inv in Hn. by rewrite Hn. }
      rewrite Hn. split; [|lia]. intros H. exfalso.
      assert (0 <= Qnat t)%Q; [|lra].
      change 0%Q with (Qnat 0). apply Qnat_le. lia. }
  assert (∀ t : nat, Qgtb p (Qnat t) = false ↔ (100 * k ≤ t * n)%nat) as Hle.
  { intros t. specialize (Hgt t). destruct (Qgtb p (Qnat t)).
    - split; [done|]. intros H. assert (t * n < 100 * k)%nat by by apply Hgt. lia.
    - split; [|done]. intros _.
      destruct (decide (t * n < 100 * k)%nat) as [H|H]; [|lia].
      by apply Hgt in H. }
  assert (∀ t : nat, (t * n < 100 * k)%nat → Qgtb p (Qnat t) = true) as Hyes
    by (intros t; apply Hgt).
  assert (∀ t : nat, (100 * k ≤ t * n)%nat → Qgtb p (Qnat t) = false) as Hno
    by (intros t; apply Hle).
  split_and!.
  - intros H. by rewrite (Hyes 50 H : Qgtb p 50 = true).
  - intros H1 H2.
    by rewrite (Hno 50 H1 : Qgtb p 50 = false), (Hyes 20 H2 : Qgtb p 20 = true).
  - intros H1 H2.
    rewrite (Hno 50 ltac:(lia) : Qgtb p 50 = false).
    rewrite (Hno 20 H1 : Qgtb p 20 = false).
    by rewrite (Hyes 0 ltac:(lia) : Qgtb p 0 = true).
  - intros H0.
    rewrite (Hno 50 ltac:(lia) : Qgtb p 50 = false).
    rewrite (Hno 20 ltac:(lia) : Qgtb p 20 = false).
    by rewrite (Hno 0 ltac:(lia) : Qgtb p 0 = false).
  - repeat (destruct (Qgtb _ _)); simpl; lia.
  - intros Hn%Nat.ltb_lt. unfold p, null_pct. fold n. by rewrite Hn.
Qed.

(** Five cells, three of them missing: 60 percent. *)
Definition sixty_percent_missing : list cell :=
  [NaN; NaN; NaN; Num 1; Num 2].

Lemma analyze_column_missing_issue_witness :
  missing_related (_analyze_column textbook Numeric sixty_percent_missing)
  = [missing_issue "high_missing" "critical" (null_pct sixty_percent_missing)].
Proof.
  apply (analyze_column_missing_issue (np := textbook) Numeric sixty_percent_missing).
  by_computing.
Defined.

(** *** The quality score *)

(** The deductions and bonuses as the specification words them. *)
Definition missing_penalty (p : Q) : Q :=
  if Qgtb p 50 then 5 # 10
  else if Qgtb p 20 then 3 # 10
  else if Qgtb p 5 then 1 # 10
  else 0.

Definition size_bonus (df : DataFrame) : Q :=
  ((if (1000 <? len df)%nat then 5 # 100 else 0)
   + (if (5 <? length (columns df))%nat then 5 # 100 else 0))%Q.

Definition score_formula (p : Q) (l : list Issue) (df : DataFrame) : Q :=
  clamp01 (1 - missing_penalty p
           - Qnat (count_severity "critical" l) * (2 # 10)
           - Qnat (count_severity "medium" l) * (1 # 10)
           + size_bonus df)%Q.

Lemma calculate_quality_score_formula p l df :
  (_calculate_quality_score p l df == score_formula p l df)%Q.
Proof.
  unfold _calculate_quality_score, score_formula, missing_penalty, size_bonus.
  apply clamp01_proper.
  destruct (Qgtb p 50), (Qgtb p 20), (Qgtb p 5),
           (1000 <? len df)%nat, (5 <? length (columns df))%nat; ring.
Qed.

Lemma sum_list_0 (l : list nat) : sum_list l = 0 → Forall (λ n, n = 0) l.
Proof.
  induction l as [|n l IH]; simpl; intros H; constructor; [lia|].
  apply IH. lia.
Qed.

Lemma total_nan_0 df c :
  total_nan df = 0 → c ∈ column_names df → isnull_sum (series df c) = 0.
Proof.
  unfold total_nan. intros H Hc.
  apply sum_list_0 in H. rewrite Forall_fmap, Forall_forall in H.
  by apply H.
Qed.

Lemma missing_issues_none s : isnull_sum s = 0 → missing_issues s = [].
Proof.
  intros H0. unfold missing_issues.
  assert (null_pct s == 0)%Q as Hp.
  { unfold null_pct. destruct (0 <? length s)%nat; [|done].
    rewrite H0. apply Qnat_0_div. }
  assert (∀ c, (0 <= c)%Q → Qgtb (null_pct s) c = false) as Hc.
  { intros c Hc. apply Qgtb_le. by rewrite Hp. }
  by rewrite !Hc by by vm_compute.
Qed.

Lemma outlier_issues_not_critical d s :
  count_severity "critical" (outlier_issues d s) = 0.
Proof.
  unfold outlier_issues.
  destruct (is_numeric_dtype d); [|done].
  destruct (_ && _); [|done].
  by destruct (_ <=? 5)%nat.
Qed.

Lemma count_severity_app sev l1 l2 :
  count_severity sev (l1 ++ l2) = count_severity sev l1 + count_severity sev l2.
Proof. unfold count_severity. by rewrite filter_app, length_app. Qed.

(** Without missing cells no issue is critical: only a missing-value issue
    can be. *)
Lemma no_missing_no_critical {np : Numerics} df :
  total_nan df = 0 → count_severity "critical" (overall_issues_of np df) = 0.
Proof.
  intros H0. unfold overall_issues_of, analyze_columns.
  assert (∀ c, c ∈ columns df → isnull_sum (series df c.1) = 0) as Hall.
  { intros c Hc. apply total_nan_0; [done|].
    unfold column_names. apply list_elem_of_fmap. by exists c. }
  induction (columns df) as [|c l IH]; [done|].
  rewrite !fmap_cons. simpl.
  rewrite count_severity_app, count_severity_app.
  rewrite outlier_issues_not_critical, missing_issues_none; cycle 1.
  { apply Hall. left. }
  rewrite IH; [done|].
  intros c' Hc'. apply Hall. by right.
Qed.

Lemma no_missing_percentage df : total_nan df = 0 → (nan_percentage_of df == 0)%Q.
Proof.
  intros H0. unfold nan_percentage_of. rewrite H0.
  destruct (0 <? size df)%nat; [|done]. apply Qnat_0_div.
Qed.

(** C3, as the code has it.  The score is the clamped sum the
    specification describes, over all issues of all columns, outlier
    issues included; a table without missing cells, with more than 1000
    rows and more than 5 columns scores 1 when no column raises a
    medium-severity (outlier) issue. *)
Theorem quality_score_formula {np : Numerics} (df : DataFrame) :
  let r := assess_data_quality np df in
  (quality_score r
   == score_formula (nan_percentage_of df) (overall_issues r) df)%Q
  ∧ ((0 <= quality_score r)%Q ∧ (quality_score r <= 1)%Q)
  ∧ (total_nan df = 0 → (1000 < len df)%nat → (5 < length (columns df))%nat →
     count_severity "medium" (overall_issues r) = 0 →
     (quality_score r == 1)%Q).
Proof.
  intros r. subst r. simpl. split; [|split].
  - apply calculate_quality_score_formula.
  - apply clamp01_range.
  - intros H0 Hrows Hcols Hmed.
    rewrite calculate_quality_score_formula.
    unfold score_formula, missing_penalty, size_bonus.
    rewrite Hmed, (no_missing_no_critical df H0).
    assert (∀ c, (0 <= c)%Q → Qgtb (nan_percentage_of df) c = false) as Hc.
    { intros c Hc. apply Qgtb_le. by rewrite (no_missing_percentage df H0). }
    rewrite !Hc by by vm_compute.
    apply Nat.ltb_lt in Hrows, Hcols. rewrite Hrows, Hcols.
    by vm_compute.
Qed.

Definition six_numeric : list (string * dtype) :=
  [("c1", Numeric); ("c2", Numeric); ("c3", Numeric);
   ("c4", Numeric); ("c5", Numeric); ("c6", Numeric)].

(** 1500 rows, 6 columns, no missing cell, every value 0. *)
Definition flat_table : DataFrame :=
  {| columns := six_numeric;
     rows := replicate 1500 (replicate 6 (Num 0)) |}.

Lemma quality_score_formula_witness :
  (quality_score (assess_data_quality textbook flat_table) == 1)%Q.
Proof.
  apply (quality_score_formula (np := textbook) flat_table); vm_compute; (reflexivity || lia).
Defined.

(** The same shape, but the last row holds 1000 in the first two columns:
    each of the two is one outlier of its column (all quartiles are 0), an
    issue of severity medium. *)
Definition two_outliers_table : DataFrame :=
  {| columns := six_numeric;
     rows := replicate 1499 (replicate 6 (Num 0))
             ++ [[Num 1000; Num 1000; Num 0; Num 0; Num 0; Num 0]] |}.

(** C3 as stated fails: 0% missing, 1500 rows and 6 columns, yet the score
    is 0.9, not 1.0. *)
Lemma quality_score_counterexample :
  total_nan two_outliers_table = 0
  ∧ len two_outliers_table = 1500
  ∧ length (columns two_outliers_table) = 6
  ∧ (nan_percentage_of two_outliers_table == 0)%Q
  ∧ count_severity "medium"
      (overall_issues (assess_data_quality textbook two_outliers_table)) = 2
  ∧ (quality_score (assess_data_quality textbook two_outliers_table) == 9 # 10)%Q
  ∧ Qeq_bool (quality_score (assess_data_quality textbook two_outliers_table)) 1 = false.
Proof. by vm_compute. Qed.

End QualityFacts.

(** ** The strategy panel *)

Module PanelFacts.
Import FlexibleDataProcessor NaNHandlingFrame.

Lemma get_nan_strategy_lookup float a vars col :
  get_nan_strategy float a vars !! col
  = vars !! col ≫= strategy_entry float a col.
Proof. apply map_lookup_imap. Qed.

Lemma as_strategy_lookup s col :
  as_strategy s !! col = s !! col ≫= as_entry.
Proof. apply lookup_omap. Qed.

(** Filling with the missing marker changes nothing. *)
Lemma fillna_missing df col : fillna df col NaN = df.
Proof.
  unfold fillna. destruct (col_index df col) as [i|]; [|done].
  destruct df as [cols rws]. cbn [columns rows]. f_equal.
  - generalize (0 <? isnull_sum (series {| columns := cols; rows := rws |} col))%nat.
    intros b. induction cols as [|[n d] cols IH]; [done|].
    csimpl. rewrite IH. f_equal. case_bool_decide; [|done]. by destruct d.
  - induction rws as [|r rws IH]; [done|].
    csimpl. rewrite IH. f_equal. unfold fillna_row, cell_at.
    destruct (r !! i) as [c|] eqn:E; simpl.
    + destruct c; simpl; try done. by apply list_insert_id.
    + apply list_insert_ge. by apply lookup_ge_None.
Qed.

(** C8, as the code has it.  When the user chooses to fill a numeric column
    with a custom literal, the entry written for the column is
    [{"method": "fill", "value": v}] where [v] is what [float] makes of the
    literal: the number it reads, when it reads a finite one; 0 when it
    raises [ValueError]; but also the float nan for the literal [nan], and
    then the cleaning that gets the entry fills no cell of the column; and
    an infinity for a literal such as [inf]. *)
Theorem custom_numeric_fill (float : string → option pyfloat)
    (a : AnalysisDict) (vars : gmap string ColumnWidgets)
    (col : string) (w : ColumnWidgets) :
  vars !! col = Some w →
  strategy_var w = "fill" →
  fill_var w = "custom" →
  is_numeric_rec (get_recommendations a !! col) = true →
  let panel := get_nan_strategy float a vars in
  (∀ x, float (custom_var w) = Some (Finite x) →
     panel !! col = Some (panel_fill (CellValue (Num x)))
     ∧ as_strategy panel !! col = Some (fill_with (Num x)))
  ∧ (float (custom_var w) = None →
     panel !! col = Some (panel_fill (CellValue (Num 0)))
     ∧ as_strategy panel !! col = Some (fill_with (Num 0)))
  ∧ (float (custom_var w) = Some NotANumber →
     panel !! col = Some (panel_fill (CellValue NaN))
     ∧ as_strategy panel !! col = Some (fill_with NaN)
     ∧ ∀ nan_analysis df,
         apply_strategy nan_analysis (as_strategy panel) df col = df)
  ∧ (∀ negative, float (custom_var w) = Some (Infinity negative) →
     panel !! col = Some (panel_fill (InfiniteValue negative))
     ∧ ¬ finite_values panel).
Proof.
  intros Hw Hs Hf Hn panel.
  assert (panel !! col = Some (panel_fill (custom_number float (custom_var w))))
    as Hpanel.
  { unfold panel. rewrite get_nan_strategy_lookup, Hw. simpl.
    unfold strategy_entry, fill_value. by rewrite Hs, Hf, Hn. }
  unfold custom_number in Hpanel.
  split_and!.
  - intros x Hx. rewrite Hx in Hpanel.
    by rewrite as_strategy_lookup, Hpanel.
  - intros Hx. rewrite Hx in Hpanel.
    by rewrite as_strategy_lookup, Hpanel.
  - intros Hx. rewrite Hx in Hpanel.
    assert (as_strategy panel !! col = Some (fill_with NaN)) as Hcell
      by (by rewrite as_strategy_lookup, Hpanel).
    split_and!; [done..|].
    intros nan_analysis df. unfold apply_strategy. rewrite Hcell. simpl.
    apply fillna_missing.
  - intros negative Hx. rewrite Hx in Hpanel. split; [done|].
    intros Hfin. by destruct (Hfin col _ Hpanel) as [e He].
Qed.

(** [Sales] is numeric with one missing cell. *)
Definition sales_table : DataFrame :=
  {| columns := [("Region", Object); ("Sales", Numeric)];
     rows := [ [Str "North"; Num 10]; [Str "South"; NaN];
               [Str "North"; Num 30]; [Str "East"; Num 20] ] |}.

Definition custom_text (text : string) : gmap string ColumnWidgets :=
  {[ "Sales" := {| strategy_var := "fill"; fill_var := "custom";
                   custom_var := text |} ]}.

(** What the panel makes of a custom literal for [Sales]. *)
Definition custom_strategy (text : string) : gmap string PanelEntry :=
  get_nan_strategy python_float (analyze_nan_values textbook sales_table)
    (custom_text text).

Lemma custom_numeric_fill_witness :
  custom_strategy "12,5" !! "Sales" = Some (panel_fill (CellValue (Num 0)))
  ∧ as_strategy (custom_strategy "12,5") !! "Sales" = Some (fill_with (Num 0)).
Proof.
  apply (custom_numeric_fill python_float (analyze_nan_values textbook sales_table)
           (custom_text "12,5") "Sales"
           {| strategy_var := "fill"; fill_var := "custom"; custom_var := "12,5" |});
    by vm_compute.
Defined.

(** A literal that reads as a number is kept as that number. *)
Example custom_numeric_fill_parsed :
  as_strategy (custom_strategy "12.5") !! "Sales"
  = Some (fill_with (Num (125 # 10))).
Proof. by vm_compute. Qed.

(** C8 as stated fails: the literal [nan] parses, the entry holds the
    float nan and not a number, and the cleaning with this entry leaves the
    missing cell of [Sales] missing; the literals [inf] and [1e999] parse
    to an infinity. *)
Lemma custom_numeric_fill_counterexample :
  python_float "nan" = Some NotANumber
  ∧ custom_strategy "nan" !! "Sales" = Some (panel_fill (CellValue NaN))
  ∧ clean_data_with_strategy textbook sales_table
      (Some (as_strategy (custom_strategy "nan")))
    = Ok sales_table
  ∧ isnull_sum (series sales_table "Sales") = 1
  ∧ custom_strategy "inf" !! "Sales" = Some (panel_fill (InfiniteValue false))
  ∧ custom_strategy "-1e999" !! "Sales" = Some (panel_fill (InfiniteValue true)).
Proof. by vm_compute. Qed.

(** Columns left on the default choice get the entry [{"method": "auto"}]. *)
Lemma auto_entry float a vars col w :
  vars !! col = Some w →
  strategy_var w = "auto" →
  get_nan_strategy float a vars !! col = Some (panel_method "auto").
Proof.
  intros Hw Hs. rewrite get_nan_strategy_lookup, Hw. simpl.
  unfold strategy_entry. by rewrite Hs.
Qed.

End PanelFacts.

(** ** NaN analysis and the default strategy *)

Module StrategyFacts.
Import FlexibleDataProcessor.

(** A loop of dict assignments [m[c] = f(c)], guarded by [P c]. *)
Lemma lookup_foldl_insert {V} (P : string → bool) (f : string → V)
    (cols : list string) (m : gmap string V) (col : string) :
  foldl (λ m c, if P c then <[c := f c]> m else m) m cols !! col
  = if bool_decide (col ∈ cols) && P col then Some (f col) else m !! col.
Proof.
  revert m. induction cols as [|c l IH]; intros m; [done|].
  simpl. rewrite IH.
  destruct (decide (col ∈ l)) as [Hin|Hin].
  - rewrite (bool_decide_eq_true_2 _ Hin).
    rewrite bool_decide_eq_true_2 by by right.
    simpl. destruct (P col) eqn:EP; [done|].
    destruct (P c) eqn:EPc; [|done].
    rewrite lookup_insert_ne; [done|]. congruence.
  - rewrite (bool_decide_eq_false_2 _ Hin). simpl.
    destruct (decide (col = c)) as [->|Hne].
    + rewrite bool_decide_eq_true_2 by by left. simpl.
      destruct (P c); [|done]. by rewrite lookup_insert_eq.
    + rewrite bool_decide_eq_false_2.
      2: { rewrite elem_of_cons. intros [?|?]; done. }
      simpl. destruct (P c); [|done]. by rewrite lookup_insert_ne.
Qed.

(** What the analysis loop records for a column with missing cells. *)
Definition has_nan (df : DataFrame) (col : string) : bool :=
  (0 <? isnull_sum (series df col))%nat.

Definition recorded_percentage (np : Numerics) (df : DataFrame) (col : string) : Q :=
  round_percentage np (isnull_sum (series df col)) (len df).

Definition nan_info (np : Numerics) (df : DataFrame) (col : string) : NanInfo :=
  {| count := isnull_sum (series df col);
     percentage := recorded_percentage np df col;
     dtype_ := dtype_of df col |}.

Lemma analyze_column_columns_with_nan {np : Numerics} df acc cols :
  columns_with_nan (foldl (analyze_column np df) acc cols)
  = foldl (λ m c, if has_nan df c then <[c := nan_info np df c]> m else m)
          (columns_with_nan acc) cols.
Proof.
  revert acc. induction cols as [|c l IH]; intros acc; [done|].
  simpl. rewrite IH. f_equal.
  unfold analyze_column, has_nan. by destruct (0 <? _)%nat.
Qed.

Lemma analyze_column_recommendations {np : Numerics} df acc cols :
  recommendations (foldl (analyze_column np df) acc cols)
  = foldl (λ m c, if has_nan df c
                  then <[c := recommend (dtype_of df c) (series df c)]> m else m)
          (recommendations acc) cols.
Proof.
  revert acc. induction cols as [|c l IH]; intros acc; [done|].
  simpl. rewrite IH. f_equal.
  unfold analyze_column, has_nan. by destruct (0 <? _)%nat.
Qed.

Lemma analyze_column_total_cells {np : Numerics} df acc cols :
  total_cells (foldl (analyze_column np df) acc cols) = total_cells acc.
Proof.
  revert acc. induction cols as [|c l IH]; intros acc; [done|].
  simpl. rewrite IH. unfold analyze_column. by destruct (0 <? _)%nat.
Qed.

(** The analysis fails inside exactly on a table without cells: there
    [total_nan_cells] is still the int 0 and [df.size] is the int 0 (pandas
    2), and their quotient raises. *)
Lemma analyze_nan_values_body_fails {np : Numerics} df :
  size df = 0 ↔ analyze_nan_values_body np df = Err ZeroDivisionError.
Proof.
  unfold analyze_nan_values_body.
  rewrite analyze_column_total_cells. simpl.
  destruct (size df =? 0)%nat eqn:E.
  - apply Nat.eqb_eq in E. done.
  - apply Nat.eqb_neq in E. split; [done|]. discriminate.
Qed.

Lemma series_nil df col : rows df = [] → series df col = [].
Proof. unfold series. intros ->. by destruct (col_index df col). Qed.

Lemma has_nan_size df col :
  col ∈ column_names df → has_nan df col = true → size df ≠ 0.
Proof.
  unfold has_nan, size, len, column_names. intros Hc Hn.
  destruct (rows df) as [|r l] eqn:Er.
  { rewrite series_nil in Hn by done. done. }
  destruct (columns df); [by apply elem_of_nil in Hc|]. simpl. lia.
Qed.

Lemma columns_with_nan_lookup {np : Numerics} df col :
  col ∈ column_names df →
  get_columns_with_nan (analyze_nan_values np df) !! col
  = if has_nan df col then Some (nan_info np df col) else None.
Proof.
  intros Hc. unfold analyze_nan_values, analyze_nan_values_body.
  rewrite analyze_column_total_cells. simpl.
  destruct (size df =? 0)%nat eqn:E.
  - apply Nat.eqb_eq in E. simpl. rewrite lookup_empty.
    destruct (has_nan df col) eqn:En; [|done].
    by destruct (has_nan_size df col Hc En).
  - simpl. rewrite analyze_column_columns_with_nan, lookup_foldl_insert.
    rewrite bool_decide_eq_true_2 by done. simpl.
    by rewrite lookup_empty.
Qed.

Lemma recommendations_lookup {np : Numerics} df col :
  col ∈ column_names df →
  get_recommendations (analyze_nan_values np df) !! col
  = if has_nan df col then Some (recommend (dtype_of df col) (series df col))
    else None.
Proof.
  intros Hc. unfold analyze_nan_values, analyze_nan_values_body.
  rewrite analyze_column_total_cells. simpl.
  destruct (size df =? 0)%nat eqn:E.
  - apply Nat.eqb_eq in E. simpl. rewrite lookup_empty.
    destruct (has_nan df col) eqn:En; [|done].
    by destruct (has_nan_size df col Hc En).
  - simpl. rewrite analyze_column_recommendations, lookup_foldl_insert.
    rewrite bool_decide_eq_true_2 by done. simpl.
    by rewrite lookup_empty.
Qed.

Lemma default_strategy_lookup df a col :
  col ∈ column_names df →
  _get_default_nan_strategy df a !! col = Some (default_entry a col).
Proof.
  intros Hc. unfold _get_default_nan_strategy.
  rewrite (lookup_foldl_insert (λ _, true) (default_entry a)).
  by rewrite bool_decide_eq_true_2.
Qed.



Lemma dropna_idemp s : dropna (dropna s) = dropna s.
Proof.
  unfold dropna. induction s as [|c s IH]; [done|].
  rewrite filter_cons. destruct (decide (isnull c = false)) as [H|H].
  - rewrite filter_cons, decide_True by done. by rewrite IH.
  - done.
Qed.



Lemma default_entry_analysis {np : Numerics} df col :
  col ∈ column_names df →
  default_entry (analyze_nan_values np df) col
  = if has_nan df col then
      let r := Some (recommend (dtype_of df col) (series df col)) in
      if Qgtb (recorded_percentage np df col) 50 then fill_with (Str "N/A")
      else if Qgtb (recorded_percentage np df col) 20 then
        match recommended_number r with
        | Some x => fill_with (Num x)
        | None => fill_with (Str "Unknown")
        end
      else
        match recommended_number r with
        | Some x => fill_with (Num x)
        | None => fill_with (get_mode r)
        end
    else method_only "keep".
Proof.
  intros Hc. unfold default_entry.
  rewrite (columns_with_nan_lookup _ _ Hc), (recommendations_lookup _ _ Hc).
  by destruct (has_nan df col).
Qed.


(** The scenario of the specification: ten rows, [Region] with two
    missing cells (20%), [Sales] with one (10%), [Year] complete. *)
Definition scenario_table : DataFrame :=
  {| columns := [("Region", Object); ("Sales", Numeric); ("Year", Numeric)];
     rows := [ [Str "North"; Num 10; Num 2020]; [Str "South"; Num 20; Num 2020];
               [NaN; Num 30; Num 2021];         [Str "North"; NaN; Num 2021];
               [Str "East"; Num 50; Num 2022];  [Str "North"; Num 60; Num 2022];
               [NaN; Num 70; Num 2023];         [Str "South"; Num 80; Num 2023];
               [Str "East"; Num 90; Num 2024];  [Str "North"; Num 100; Num 2024] ] |}.




(** The percentage compared with 50 and 20 is the rounded one: 5001 missing
    cells of 10001 are more than half (50.005%), are recorded as 50.0, and
    the column is filled with its median, not with ["N/A"]. *)
Definition just_over_half : DataFrame :=
  {| columns := [("Sales", Numeric)];
     rows := replicate (5 * 1000 + 1) [NaN] ++ replicate (5 * 1000) [Num 1] |}.

Example default_strategy_rounded_percentage :
  (50 < Qnat (isnull_sum (series just_over_half "Sales"))
        / Qnat (len just_over_half) * 100)%Q
  ∧ (recorded_percentage textbook just_over_half "Sales" == 50)%Q
  ∧ _get_default_nan_strategy just_over_half (analyze_nan_values textbook just_over_half)
      !! "Sales" = Some (fill_with (Num (100 # 100))).
Proof. by vm_compute. Qed.

End StrategyFacts.

(** ** Cleaning *)

Module CleaningFacts.
Import FlexibleDataProcessor.

Lemma isnull_sum_0 (s : list cell) :
  isnull_sum s = 0 ↔ Forall (λ c, isnull c = false) s.
Proof.
  unfold isnull_sum. induction s as [|c s IH]; [by split|].
  rewrite filter_cons, Forall_cons.
  destruct (decide (isnull c = true)) as [Hc|Hc]; simpl.
  - split; [lia|]. intros [? _]. congruence.
  - rewrite IH. split; [|by intros [_ ?]].
    intros Hs. split; [|done]. by destruct (isnull c).
Qed.

(** *** A column without missing cells is left alone *)

Lemma fillna_no_missing df col v :
  isnull_sum (series df col) = 0 → fillna df col v = df.
Proof.
  intros H0. unfold fillna. rewrite H0.
  pose proof H0 as Hall. apply isnull_sum_0 in Hall.
  unfold series in Hall.
  destruct (col_index df col) as [i|]; [|done].
  rewrite Forall_fmap in Hall.
  destruct df as [cols rws]. simpl in *. f_equal.
  - clear. induction cols as [|[n d] cols IH]; [done|].
    csimpl. rewrite IH. f_equal.
    case_bool_decide; [|done]. by destruct d, v.
  - clear H0. induction Hall as [|r rws Hr _ IH]; [done|].
    csimpl. rewrite IH. f_equal.
    simpl in Hr. unfold fillna_row. by rewrite Hr.
Qed.

Lemma dropna_subset_no_missing df col :
  isnull_sum (series df col) = 0 → dropna_subset df col = df.
Proof.
  intros H0. unfold dropna_subset.
  apply isnull_sum_0 in H0. unfold series in H0.
  destruct (col_index df col) as [i|]; [|done].
  rewrite Forall_fmap in H0.
  destruct df as [cols rws]. simpl in *. f_equal.
  induction H0 as [|r rws Hr _ IH]; [done|].
  rewrite filter_cons, decide_True by done. by rewrite IH.
Qed.

Lemma apply_strategy_no_missing a s df col :
  isnull_sum (series df col) = 0 → apply_strategy a s df col = df.
Proof.
  intros H0. unfold apply_strategy.
  destruct (s !! col) as [e|]; [|done].
  destruct (String.eqb _ "fill"); [by apply fillna_no_missing|].
  destruct (String.eqb _ "drop"); [by apply dropna_subset_no_missing|].
  by destruct (String.eqb _ "keep").
Qed.

Lemma apply_all_no_missing a s df :
  DataQualityAssessment.total_nan df = 0 → apply_all a s df = df.
Proof.
  intros H0. unfold apply_all.
  pose proof (λ c, QualityFacts.total_nan_0 df c H0) as Hall.
  induction (column_names df) as [|c l IH]; [done|].
  simpl. rewrite apply_strategy_no_missing.
  - apply IH. intros c' Hc'. apply Hall. by right.
  - apply Hall. by left.
Qed.

(** *** Duplicate removal *)

Lemma cell_eqb_refl c : cell_eqb c c = true.
Proof.
  destruct c; simpl; [apply Qeq_bool_refl|apply String.eqb_refl|done].
Qed.

Lemma cell_eqb_sym a b : cell_eqb a b = cell_eqb b a.
Proof.
  destruct a, b; simpl; try done; [apply Qeq_bool_comm|apply String.eqb_sym].
Qed.

Lemma cell_eqb_trans a b c :
  cell_eqb a b = true → cell_eqb b c = true → cell_eqb a c = true.
Proof.
  destruct a, b, c; simpl; try done.
  - apply Qeq_bool_trans.
  - rewrite !String.eqb_eq. congruence.
Qed.

Lemma row_eqb_refl r : row_eqb r r = true.
Proof. induction r as [|c r IH]; [done|]. simpl. by rewrite cell_eqb_refl. Qed.

Lemma row_eqb_sym r1 r2 : row_eqb r1 r2 = row_eqb r2 r1.
Proof.
  revert r2. induction r1 as [|a r1 IH]; intros [|b r2]; simpl; try done.
  by rewrite cell_eqb_sym, IH.
Qed.

Lemma row_eqb_trans r1 r2 r3 :
  row_eqb r1 r2 = true → row_eqb r2 r3 = true → row_eqb r1 r3 = true.
Proof.
  revert r2 r3. induction r1 as [|a r1 IH]; intros [|b r2] [|c r3]; simpl; try done.
  rewrite !andb_true_iff. intros [Hab H12] [Hbc H23]. split.
  - by eapply cell_eqb_trans.
  - by eapply IH.
Qed.

(** No row of the list equals an earlier one. *)
Fixpoint distinct_rows (l : list (list cell)) : Prop :=
  match l with
  | [] => True
  | r :: l' => Forall (λ r', row_eqb r' r = false) l' ∧ distinct_rows l'
  end.

Lemma distinct_rows_filter (P : list cell → Prop) `{!∀ r, Decision (P r)} l :
  distinct_rows l → distinct_rows (filter P l).
Proof.
  induction l as [|r l IH]; [done|].
  intros [Hr Hl]. rewrite filter_cons.
  destruct (decide (P r)); simpl; [|by apply IH].
  split; [|by apply IH].
  apply Forall_forall. intros r' [_ Hr']%list_elem_of_filter.
  rewrite Forall_forall in Hr. by apply Hr.
Qed.

Lemma drop_duplicate_rows_sublist l : drop_duplicate_rows l `sublist_of` l.
Proof.
  induction l as [|r l IH]; [done|]. simpl.
  apply sublist_skip. etrans; [apply sublist_filter|done].
Qed.

Lemma drop_duplicate_rows_distinct l : distinct_rows (drop_duplicate_rows l).
Proof.
  induction l as [|r l IH]; [done|]. simpl. split.
  - apply Forall_forall. by intros r' [Hr' _]%list_elem_of_filter.
  - by apply distinct_rows_filter.
Qed.

(** Every row survives in a row equal to it. *)
Lemma drop_duplicate_rows_complete l r :
  r ∈ l → ∃ r', r' ∈ drop_duplicate_rows l ∧ row_eqb r r' = true.
Proof.
  induction l as [|r0 l IH]; [by intros ?%elem_of_nil|].
  intros [->|Hr]%elem_of_cons; simpl.
  - exists r0. split; [by left|apply row_eqb_refl].
  - destruct (IH Hr) as (r' & Hr' & Heq).
    destruct (row_eqb r' r0) eqn:E.
    + exists r0. split; [by left|]. by eapply row_eqb_trans.
    + exists r'. split; [|done]. right. by apply list_elem_of_filter.
Qed.

(** Cleaning fails exactly on an empty table. *)
Lemma clean_empty {np : Numerics} df s :
  empty df = true →
  clean_data_with_strategy np df s
  = Err (DataProcessingError (EmptyDataError "DataFrame is empty")).
Proof.
  intros He. unfold clean_data_with_strategy, clean_data_with_strategy_body.
  unfold DataValidator.validate_dataframe. by rewrite He.
Qed.

Lemma clean_nonempty {np : Numerics} df s :
  empty df = false →
  clean_data_with_strategy np df s
  = Ok (drop_duplicates
          (apply_all (analyze_nan_values np df)
             (match s with
              | Some s => s
              | None => _get_default_nan_strategy df (analyze_nan_values np df)
              end) df)).
Proof.
  intros He. unfold clean_data_with_strategy, clean_data_with_strategy_body.
  unfold DataValidator.validate_dataframe. by rewrite He.
Qed.

(** C5, as the code has it.  Cleaning a non-empty table without missing
    cells, under any strategy (or the default one), returns the table with
    its duplicate rows removed: the per-column steps change nothing and
    drop no row; the rows returned are rows of the table in their order,
    every row of the table is returned once up to equality. *)
Theorem clean_without_missing {np : Numerics} (df : DataFrame)
    (nan_strategy : option (gmap string StrategyEntry)) :
  empty df = false →
  DataQualityAssessment.total_nan df = 0 →
  clean_data_with_strategy np df nan_strategy = Ok (drop_duplicates df)
  ∧ (∀ a s, apply_all a s df = df)
  ∧ columns (drop_duplicates df) = columns df
  ∧ rows (drop_duplicates df) `sublist_of` rows df
  ∧ (∀ r, r ∈ rows df →
       ∃ r', r' ∈ rows (drop_duplicates df) ∧ row_eqb r r' = true)
  ∧ distinct_rows (rows (drop_duplicates df)).
Proof.
  intros He H0. split_and!.
  - rewrite clean_nonempty by done. by rewrite apply_all_no_missing.
  - intros a s. by apply apply_all_no_missing.
  - done.
  - apply drop_duplicate_rows_sublist.
  - intros r. apply drop_duplicate_rows_complete.
  - apply drop_duplicate_rows_distinct.
Qed.

Definition repeated_rows : DataFrame :=
  {| columns := [("Region", Object); ("Sales", Numeric)];
     rows := [ [Str "North"; Num 10]; [Str "South"; Num 20];
               [Str "North"; Num 10]; [Str "North"; Num 30] ] |}.

Definition drop_everything : gmap string StrategyEntry :=
  {[ "Region" := method_only "drop"; "Sales" := fill_with (Num 0) ]}.

Lemma clean_without_missing_witness :
  clean_data_with_strategy textbook repeated_rows (Some drop_everything)
  = Ok {| columns := [("Region", Object); ("Sales", Numeric)];
          rows := [ [Str "North"; Num 10]; [Str "South"; Num 20];
                    [Str "North"; Num 30] ] |}.
Proof.
  apply (clean_without_missing (np := textbook) repeated_rows (Some drop_everything));
    by_computing.
Defined.

Definition empty_table : DataFrame :=
  {| columns := [("Region", Object); ("Sales", Numeric)]; rows := [] |}.

(** C5 as stated fails on the table without rows: it has no missing cell,
    and cleaning it raises instead of returning it. *)
Lemma clean_without_missing_counterexample :
  DataQualityAssessment.total_nan empty_table = 0
  ∧ clean_data_with_strategy textbook empty_table None
    = Err (DataProcessingError (EmptyDataError "DataFrame is empty"))
  ∧ clean_data_with_strategy textbook empty_table (Some drop_everything)
    = Err (DataProcessingError (EmptyDataError "DataFrame is empty")).
Proof. by vm_compute. Qed.

(** *** Entries with an unknown method *)

(** The entry names a method, and it is none of the three the cleaning
    loop knows. *)
Definition unknown_method (e : StrategyEntry) : Prop :=
  ∃ m, method e = Some m ∧ m ≠ "fill" ∧ m ≠ "drop" ∧ m ≠ "keep".

Lemma apply_strategy_unknown a s cur col e :
  s !! col = Some e → unknown_method e → apply_strategy a s cur col = cur.
Proof.
  intros Hs (m & Hm & H1 & H2 & H3). unfold apply_strategy.
  rewrite Hs, Hm. simpl.
  apply String.eqb_neq in H1, H2, H3. by rewrite H1, H2, H3.
Qed.

Lemma foldl_apply_strategy_delete a s col e cols cur :
  s !! col = Some e → unknown_method e →
  foldl (apply_strategy a s) cur cols
  = foldl (apply_strategy a (delete col s)) cur cols.
Proof.
  intros Hs He. revert cur.
  induction cols as [|c l IH]; intros cur; [done|].
  simpl. rewrite <- IH. f_equal.
  destruct (decide (c = col)) as [->|Hne].
  - rewrite (apply_strategy_unknown _ _ _ _ _ Hs He).
    unfold apply_strategy. by rewrite lookup_delete_eq.
  - unfold apply_strategy. by rewrite lookup_delete_ne.
Qed.

Lemma col_index_names df col :
  col_index df col = fst <$> list_find (λ n, n = col) (column_names df).
Proof.
  unfold col_index, column_names. rewrite list_find_fmap.
  by destruct (list_find _ (columns df)) as [[i c]|].
Qed.

Lemma col_index_same_names d1 d2 col :
  column_names d1 = column_names d2 → col_index d1 col = col_index d2 col.
Proof. intros H. by rewrite !col_index_names, H. Qed.

Lemma col_index_inj df c1 c2 i :
  col_index df c1 = Some i → col_index df c2 = Some i → c1 = c2.
Proof.
  rewrite !col_index_names.
  intros ([i1 n1] & H1 & ?)%fmap_Some ([i2 n2] & H2 & ?)%fmap_Some.
  simpl in *. subst i1 i2.
  apply list_find_Some in H1 as (H1 & <- & _).
  apply list_find_Some in H2 as (H2 & <- & _).
  congruence.
Qed.

Lemma fillna_names df c v : column_names (fillna df c v) = column_names df.
Proof.
  unfold fillna. destruct (col_index df c); [|done].
  unfold column_names. simpl. rewrite <- list_fmap_compose.
  apply list_fmap_ext. intros _ x _. simpl. by case_bool_decide.
Qed.

Lemma dropna_subset_names df c :
  column_names (dropna_subset df c) = column_names df.
Proof. unfold dropna_subset. by destruct (col_index df c). Qed.

(** Filling one column leaves the cells of every other column as they are. *)
Lemma fillna_series_other df c col v :
  c ≠ col → series (fillna df c v) col = series df col.
Proof.
  intros Hne. unfold series.
  rewrite (col_index_same_names (fillna df c v) df) by apply fillna_names.
  destruct (col_index df col) as [i|] eqn:Ei; [|done].
  unfold fillna. destruct (col_index df c) as [j|] eqn:Ej; [|done].
  simpl. rewrite <- list_fmap_compose.
  apply list_fmap_ext. intros _ r _. simpl.
  unfold fillna_row. destruct (isnull (cell_at j r)); [|done].
  unfold cell_at. rewrite list_lookup_insert_ne; [done|].
  intros ->. apply Hne. by eapply col_index_inj.
Qed.

(** Dropping rows only deletes cells of a column. *)
Lemma dropna_subset_series df c col :
  series (dropna_subset df c) col `sublist_of` series df col.
Proof.
  unfold series.
  rewrite (col_index_same_names (dropna_subset df c) df)
    by apply dropna_subset_names.
  destruct (col_index df col) as [i|]; [|done].
  unfold dropna_subset. destruct (col_index df c) as [j|]; [|done].
  simpl. apply fmap_sublist, sublist_filter.
Qed.

Lemma drop_duplicates_series df col :
  series (drop_duplicates df) col `sublist_of` series df col.
Proof.
  unfold series.
  rewrite (col_index_same_names (drop_duplicates df) df) by done.
  destruct (col_index df col) as [i|]; [|done].
  simpl. apply fmap_sublist, drop_duplicate_rows_sublist.
Qed.

Lemma apply_strategy_series a s cur c col e :
  s !! col = Some e → unknown_method e →
  series (apply_strategy a s cur c) col `sublist_of` series cur col.
Proof.
  intros Hs He.
  destruct (decide (c = col)) as [->|Hne].
  { by rewrite (apply_strategy_unknown _ _ _ _ _ Hs He). }
  unfold apply_strategy.
  destruct (s !! c) as [e'|]; [|done].
  destruct (String.eqb _ "fill"); [by rewrite fillna_series_other|].
  destruct (String.eqb _ "drop"); [apply dropna_subset_series|].
  by destruct (String.eqb _ "keep").
Qed.

Lemma foldl_apply_strategy_series a s cols cur col e :
  s !! col = Some e → unknown_method e →
  series (foldl (apply_strategy a s) cur cols) col `sublist_of` series cur col.
Proof.
  intros Hs He. revert cur.
  induction cols as [|c l IH]; intros cur; [done|].
  simpl. etrans; [apply IH|]. by eapply apply_strategy_series.
Qed.

(** C10.  An entry whose method is none of ["fill"], ["drop"], ["keep"]
    (for one, the ["auto"] the panel writes) has no effect: the round of
    the loop for its column returns the table as it is; cleaning does with
    the entry what it does without it; and on a non-empty table cleaning
    succeeds with the column's cells unchanged — what is left of the column
    is the original column with the cells of removed rows deleted, so its
    missing cells are still missing. *)
Theorem unknown_method_no_change {np : Numerics} (df : DataFrame)
    (nan_strategy : gmap string StrategyEntry) (col : string) (e : StrategyEntry) :
  nan_strategy !! col = Some e →
  unknown_method e →
  (∀ a cur, apply_strategy a nan_strategy cur col = cur)
  ∧ clean_data_with_strategy np df (Some nan_strategy)
    = clean_data_with_strategy np df (Some (delete col nan_strategy))
  ∧ (empty df = false →
     ∃ out, clean_data_with_strategy np df (Some nan_strategy) = Ok out
            ∧ series out col `sublist_of` series df col).
Proof.
  intros Hs He. split_and!.
  - intros a cur. by eapply apply_strategy_unknown.
  - unfold clean_data_with_strategy, clean_data_with_strategy_body, apply_all.
    by rewrite (foldl_apply_strategy_delete _ _ _ _ _ _ Hs He).
  - intros Hne. rewrite clean_nonempty by done.
    eexists. split; [done|].
    etrans; [apply drop_duplicates_series|].
    by eapply foldl_apply_strategy_series.
Qed.

(** [Sales] has a missing cell in rows 2 and 4.  On the panel the user
    chose to drop the rows without a [Region] and left [Sales] on the
    default choice: the strategy the panel builds holds
    [{"method": "auto"}] for it. *)
Definition gaps_table : DataFrame :=
  {| columns := [("Region", Object); ("Sales", Numeric)];
     rows := [ [Str "North"; Num 10]; [Str "South"; NaN];
               [NaN; Num 30];         [Str "East"; NaN] ] |}.

Definition panel_choices : gmap string NaNHandlingFrame.ColumnWidgets :=
  {[ "Region" := {| NaNHandlingFrame.strategy_var := "drop";
                    NaNHandlingFrame.fill_var := "unknown";
                    NaNHandlingFrame.custom_var := "Unknown" |};
     "Sales" := {| NaNHandlingFrame.strategy_var := "auto";
                   NaNHandlingFrame.fill_var := "median";
                   NaNHandlingFrame.custom_var := "0" |} ]}.

Definition auto_sales : gmap string StrategyEntry :=
  NaNHandlingFrame.as_strategy
    (NaNHandlingFrame.get_nan_strategy python_float
       (analyze_nan_values textbook gaps_table) panel_choices).

Lemma unknown_method_no_change_witness :
  clean_data_with_strategy textbook gaps_table (Some auto_sales)
  = clean_data_with_strategy textbook gaps_table (Some (delete "Sales" auto_sales))
  ∧ clean_data_with_strategy textbook gaps_table (Some auto_sales)
    = Ok {| columns := [("Region", Object); ("Sales", Numeric)];
            rows := [ [Str "North"; Num 10]; [Str "South"; NaN];
                      [Str "East"; NaN] ] |}.
Proof.
  split; [|by_computing].
  apply (unknown_method_no_change (np := textbook) gaps_table auto_sales "Sales"
           (method_only "auto")); [by_computing|].
  exists "auto". by split_and!.
Defined.

End CleaningFacts.

(** ** Aggregation *)

Module AggregationFacts.
Import FlexibleDataProcessor.

(** *** The order of group keys *)

Definition cell_lt (a b : cell) : Prop := cell_ltb a b = true.

Lemma string_ltb_lt s t :
  String.ltb s t = true ↔ OrderedTypeEx.String_as_OT.lt s t.
Proof.
  rewrite <- OrderedTypeEx.String_as_OT.cmp_lt.
  unfold String.ltb, OrderedTypeEx.String_as_OT.cmp.
  by destruct (String.compare s t).
Qed.

Lemma cell_ltb_trans a b c : cell_lt a b → cell_lt b c → cell_lt a c.
Proof.
  unfold cell_lt. destruct a, b, c; simpl; try done.
  - rewrite !Qltb_lt. apply Qlt_trans.
  - rewrite !string_ltb_lt. apply OrderedTypeEx.String_as_OT.lt_trans.
Qed.

Lemma cell_ltb_total a b :
  isnull a = false → isnull b = false →
  cell_eqb a b = false → cell_ltb a b = false → cell_lt b a.
Proof.
  unfold cell_lt. destruct a as [x|s|], b as [y|t|]; simpl; try done.
  - intros _ _ Hne Hlt. apply Qltb_lt. apply Qltb_ge in Hlt.
    apply Qle_lt_or_eq in Hlt as [?|Heq]; [done|].
    apply Qeq_bool_neq in Hne. destruct Hne. by symmetry.
  - intros _ _ Hne Hlt. unfold String.ltb in *.
    rewrite String.compare_antisym.
    destruct (String.compare s t) eqn:E; simpl; try done.
    apply String.compare_eq_iff in E. apply String.eqb_neq in Hne. done.
Qed.

Lemma insert_key_elem k ks x : x ∈ insert_key k ks → x = k ∨ x ∈ ks.
Proof.
  induction ks as [|k' ks IH]; simpl.
  - intros ?%list_elem_of_singleton. by left.
  - destruct (cell_eqb k k'); [by right|].
    destruct (cell_ltb k k').
    + intros [->|?]%elem_of_cons; [by left|by right].
    + intros [->|H]%elem_of_cons; [right; by left|].
      destruct (IH H) as [->|?]; [by left|]. right. by right.
Qed.

Lemma insert_key_sorted k ks :
  isnull k = false → Forall (λ c, isnull c = false) ks →
  StronglySorted cell_lt ks → StronglySorted cell_lt (insert_key k ks).
Proof.
  intros Hk. induction ks as [|k' ks IH]; simpl; intros Hks Hs.
  { repeat constructor. }
  apply Forall_cons in Hks as [Hk' Hks].
  apply StronglySorted_cons in Hs as [Hlt Hs].
  destruct (cell_eqb k k') eqn:Eeq.
  { by apply StronglySorted_cons. }
  destruct (cell_ltb k k') eqn:Elt.
  - apply StronglySorted_cons. split; [|by apply StronglySorted_cons].
    constructor; [done|].
    eapply Forall_impl; [done|]. intros c Hc. by eapply cell_ltb_trans.
  - apply StronglySorted_cons. split; [|by apply IH].
    apply Forall_forall. intros c [->|Hc]%insert_key_elem.
    + by apply cell_ltb_total.
    + rewrite Forall_forall in Hlt. by apply Hlt.
Qed.

Lemma insert_key_nonnull k ks :
  isnull k = false → Forall (λ c, isnull c = false) ks →
  Forall (λ c, isnull c = false) (insert_key k ks).
Proof.
  intros Hk Hks. apply Forall_forall. intros c [->|Hc]%insert_key_elem; [done|].
  rewrite Forall_forall in Hks. by apply Hks.
Qed.

(** The keys of a grouping are strictly ascending. *)
Lemma group_keys_sorted xs : StronglySorted cell_lt (group_keys xs).
Proof.
  unfold group_keys.
  assert (Forall (λ c, isnull c = false) (dropna xs)) as Hnn.
  { apply Forall_forall. by intros c [? _]%list_elem_of_filter. }
  assert (Forall (λ c, isnull c = false) (@nil cell)) as Hacc by constructor.
  assert (StronglySorted cell_lt []) as Hs by constructor.
  revert Hacc Hs. generalize (@nil cell) as acc.
  induction Hnn as [|k l Hk _ IH]; intros acc Hacc Hs; [done|].
  simpl. apply IH; [by apply insert_key_nonnull|by apply insert_key_sorted].
Qed.

(** *** The order of aggregated values *)

Lemma keyed_rows_sorted (f : cell → cell) ks :
  StronglySorted cell_lt ks →
  StronglySorted (λ r1 r2 : cell * cell, cell_lt r1.1 r2.1) ((λ k, (k, f k)) <$> ks).
Proof.
  induction 1 as [|k ks Hs IH Hk]; csimpl; constructor; [done|].
  by rewrite Forall_fmap.
Qed.

(** The grouping emits its rows in ascending order of the category. *)
Lemma groupby_aggregate_sorted {np : Numerics} df x_col y_col operation l :
  groupby_aggregate np df x_col y_col operation = Ok l →
  StronglySorted (λ r1 r2 : cell * cell, cell_lt r1.1 r2.1) l.
Proof.
  unfold groupby_aggregate. destruct (String.eqb x_col y_col); [done|].
  intros [= <-]. apply keyed_rows_sorted, group_keys_sorted.
Qed.

(** What a successful aggregation returns. *)
Lemma analyze_data_flexible_ok {np : Numerics} to_number df x_col y_col operation result :
  analyze_data_flexible np to_number df x_col y_col operation = Ok result →
  result ≠ []
  ∧ ∃ df_analysis groups,
      groupby_aggregate np df_analysis x_col y_col operation = Ok groups
      ∧ result = sort_values np groups.
Proof.
  unfold analyze_data_flexible, analyze_data_flexible_body, reraise_processing.
  destruct (DataValidator.validate_column_selection df x_col y_col); [|done].
  cbn -[groupby_aggregate nan_handling].
  destruct (groupby_aggregate _ _ x_col y_col operation) as [groups|] eqn:Eg;
    [|done].
  cbn.
  destruct (sort_values np groups) as [|r l] eqn:Es; [done|].
  intros [= <-]. split; [done|]. eauto.
Qed.

(** C9, as the code has it.  The rows of a successful aggregation are in
    descending order of the aggregated value, rows without a value last.
    They are the rows of the grouping, which emits them in ascending order
    of the category: the order of first occurrence in the table is lost
    before the sort, and which of two rows of equal value comes first is
    left to the sort of the library, which is not a stable one. *)
Theorem aggregation_rows_ordered {np : Numerics} (to_number : string → option Q)
    (df : DataFrame) (x_col y_col operation : string)
    (result : list (cell * cell)) :
  analyze_data_flexible np to_number df x_col y_col operation = Ok result →
  StronglySorted descending result
  ∧ ∃ df_analysis groups,
      groupby_aggregate np df_analysis x_col y_col operation = Ok groups
      ∧ StronglySorted (λ r1 r2 : cell * cell, cell_lt r1.1 r2.1) groups
      ∧ result ≡ₚ groups.
Proof.
  intros (_ & d & groups & Hg & ->)%analyze_data_flexible_ok.
  split; [apply sort_values_sorted|].
  exists d, groups. split; [done|].
  split; [by eapply groupby_aggregate_sorted|apply sort_values_perm].
Qed.

(** *** What the NaN handling leaves in the two columns *)

(** The table invariant: every row has a cell for every column. *)
Definition wf_table (df : DataFrame) : Prop :=
  Forall (λ r, length r = length (columns df)) (rows df).

Definition fill_cell (v c : cell) : cell := if isnull c then v else c.

Lemma has_column_index df col :
  has_column df col = true →
  ∃ i, col_index df col = Some i ∧ (i < length (columns df))%nat.
Proof.
  unfold has_column. intros Hc%bool_decide_eq_true_1.
  rewrite CleaningFacts.col_index_names.
  destruct (list_find_elem_of (λ n, n = col) _ _ Hc eq_refl) as [[i n] Hi].
  exists i. rewrite Hi. split; [done|].
  apply list_find_Some in Hi as (Hi & _).
  apply lookup_lt_Some in Hi. unfold column_names in Hi.
  by rewrite length_fmap in Hi.
Qed.

Lemma series_length df col i :
  col_index df col = Some i → length (series df col) = len df.
Proof. unfold series. intros ->. apply length_fmap. Qed.

Lemma series_no_rows df col : len df = 0%nat → series df col = [].
Proof.
  unfold len. intros H%nil_length_inv. by apply StrategyFacts.series_nil.
Qed.

Lemma fill_cell_id v xs : isnull_sum xs = 0%nat → fill_cell v <$> xs = xs.
Proof.
  intros H%CleaningFacts.isnull_sum_0.
  induction H as [|c xs Hc _ IH]; [done|].
  csimpl. rewrite IH. unfold fill_cell. by rewrite Hc.
Qed.

Lemma fill_cell_no_missing v xs :
  isnull v = false → isnull_sum (fill_cell v <$> xs) = 0%nat.
Proof.
  intros Hv. apply CleaningFacts.isnull_sum_0, Forall_fmap, Forall_forall.
  intros c _. simpl. unfold fill_cell. by destruct (isnull c) eqn:E.
Qed.

(** Columns renamed by nothing, retyped at [c0]. *)
Lemma col_index_retype (h : dtype → dtype) c0 cols rws col :
  col_index {| columns := (λ c, if bool_decide (c.1 = c0) then (c.1, h c.2) else c)
                            <$> cols;
               rows := rws |} col
  = col_index {| columns := cols; rows := rws |} col.
Proof.
  apply CleaningFacts.col_index_same_names.
  unfold column_names. simpl. rewrite <- list_fmap_compose.
  apply list_fmap_ext. intros _ c _. simpl. by case_bool_decide.
Qed.

Lemma dtype_of_retype (h : dtype → dtype) c0 cols rws col :
  dtype_of {| columns := (λ c, if bool_decide (c.1 = c0) then (c.1, h c.2) else c)
                           <$> cols;
              rows := rws |} col
  = match col_index {| columns := cols; rows := rws |} col with
    | Some _ =>
        if bool_decide (col = c0)
        then h (dtype_of {| columns := cols; rows := rws |} col)
        else dtype_of {| columns := cols; rows := rws |} col
    | None => Object
    end.
Proof.
  unfold dtype_of, col_index. simpl.
  rewrite list_find_fmap.
  rewrite (list_find_ext _ (λ c, c.1 = col)).
  2: { intros c. simpl. by case_bool_decide. }
  destruct (list_find (λ c, c.1 = col) cols) as [[i [n d]]|] eqn:E; [|done].
  apply list_find_Some in E as (_ & Hn & _). simpl in *. subst n.
  by case_bool_decide.
Qed.

Lemma fillna_series_same df col v :
  wf_table df → series (fillna df col v) col = fill_cell v <$> series df col.
Proof.
  intros Hwf. unfold series at 1.
  rewrite (CleaningFacts.col_index_same_names (fillna df col v) df)
    by apply CleaningFacts.fillna_names.
  unfold series, fillna.
  destruct (has_column df col) eqn:Hc.
  2: { destruct (col_index df col) as [i|] eqn:Ei; [|done].
       exfalso. rewrite CleaningFacts.col_index_names in Ei.
       apply fmap_Some in Ei as ([i' n] & Ei & _).
       apply list_find_Some in Ei as (Ei & -> & _).
       apply list_elem_of_lookup_2 in Ei.
       unfold has_column in Hc. by apply bool_decide_eq_false_1 in Hc. }
  destruct (has_column_index df col Hc) as (i & -> & Hi).
  simpl. rewrite <- !list_fmap_compose.
  apply Forall_fmap_ext_1. eapply Forall_impl; [exact Hwf|].
  intros r Hr. simpl in *. unfold fillna_row, fill_cell.
  destruct (isnull (cell_at i r)); [|done].
  unfold cell_at. rewrite list_lookup_insert_eq; [done|lia].
Qed.

Lemma fillna_wf df col v : wf_table df → wf_table (fillna df col v).
Proof.
  unfold wf_table, fillna. intros Hwf.
  destruct (col_index df col) as [i|]; [|done]. simpl.
  rewrite Forall_fmap, length_fmap.
  eapply Forall_impl; [exact Hwf|]. intros r Hr. simpl in *.
  unfold fillna_row. destruct (isnull _); [|done]. by rewrite length_insert.
Qed.

Lemma fillna_dtype_of df c v col :
  dtype_of (fillna df c v) col
  = if bool_decide (col = c)
    then fillna_dtype (dtype_of df col) v (0 <? isnull_sum (series df c))%nat
    else dtype_of df col.
Proof.
  unfold fillna. destruct (col_index df c) as [j|] eqn:Ej.
  - destruct df as [cols rws].
    rewrite (dtype_of_retype (λ d, fillna_dtype d v _)).
    cbn [columns rows].
    change (col_index {| columns := cols; rows := _ |} col)
      with (col_index {| columns := cols; rows := rws |} col).
    change (dtype_of {| columns := cols; rows := _ |} col)
      with (dtype_of {| columns := cols; rows := rws |} col).
    case_bool_decide as Hcol.
    + subst c. by rewrite Ej.
    + destruct (col_index _ col) eqn:Ei; [done|].
      unfold col_index in Ei. unfold dtype_of.
      by destruct (list_find _ _).
  - case_bool_decide as Hcol; [|done]. subst c.
    unfold col_index in Ej. unfold dtype_of.
    destruct (list_find _ _); [done|].
    by destruct v.
Qed.

Section Coercion.
Variable to_number : string → option Q.

Lemma to_numeric_names df c :
  column_names (to_numeric to_number df c) = column_names df.
Proof.
  unfold to_numeric. destruct (col_index df c); [|done].
  unfold column_names. simpl. rewrite <- list_fmap_compose.
  apply list_fmap_ext. intros _ x _. simpl. by case_bool_decide.
Qed.

Lemma to_numeric_wf df c : wf_table df → wf_table (to_numeric to_number df c).
Proof.
  unfold wf_table, to_numeric. intros Hwf.
  destruct (col_index df c) as [i|]; [|done]. simpl.
  rewrite Forall_fmap, length_fmap.
  eapply Forall_impl; [exact Hwf|]. intros r Hr. simpl in *.
  by rewrite length_alter.
Qed.

Lemma to_numeric_series_same df col :
  series (to_numeric to_number df col) col
  = to_numeric_cell to_number <$> series df col.
Proof.
  unfold series at 1.
  rewrite (CleaningFacts.col_index_same_names (to_numeric to_number df col) df)
    by apply to_numeric_names.
  unfold series, to_numeric.
  destruct (col_index df col) as [i|]; [|done].
  simpl. rewrite <- !list_fmap_compose.
  apply list_fmap_ext. intros _ r _. simpl.
  unfold cell_at. rewrite list_lookup_alter_eq.
  by destruct (r !! i).
Qed.

Lemma to_numeric_series_other df c col :
  c ≠ col → series (to_numeric to_number df c) col = series df col.
Proof.
  intros Hne. unfold series.
  rewrite (CleaningFacts.col_index_same_names (to_numeric to_number df c) df)
    by apply to_numeric_names.
  destruct (col_index df col) as [i|] eqn:Ei; [|done].
  unfold to_numeric. destruct (col_index df c) as [j|] eqn:Ej; [|done].
  simpl. rewrite <- list_fmap_compose.
  apply list_fmap_ext. intros _ r _. simpl.
  unfold cell_at. rewrite list_lookup_alter_ne; [done|].
  intros ->. apply Hne. by eapply CleaningFacts.col_index_inj.
Qed.

Lemma to_numeric_dtype_of df col :
  has_column df col = true →
  dtype_of (to_numeric to_number df col) col = Numeric.
Proof.
  intros (i & Hi & _)%has_column_index.
  unfold to_numeric. rewrite Hi. destruct df as [cols rws].
  rewrite (dtype_of_retype (λ _, Numeric)).
  cbn [columns rows].
  change (col_index {| columns := cols; rows := _ |} col)
    with (col_index {| columns := cols; rows := rws |} col).
  by rewrite Hi, bool_decide_eq_true_2.
Qed.

End Coercion.

(** The cells that are grouped, read off the original columns: the
    category cells with ["Unknown"] for the missing ones, and the measure
    cells after coercion and zero filling. *)
Definition category_cells (xs : list cell) : list cell :=
  fill_cell (Str "Unknown") <$> xs.

Definition measure_cells (to_number : string → option Q)
    (d : dtype) (operation : string) (ys : list cell) : list cell :=
  if (0 <? isnull_sum ys)%nat then
    let ys := if is_numeric_dtype d then ys
              else to_numeric_cell to_number <$> ys in
    if String.eqb operation "sum" || String.eqb operation "count"
    then fill_cell (Num 0) <$> ys else ys
  else if is_numeric_dtype d then ys
       else fill_cell (Num 0) <$> (to_numeric_cell to_number <$> ys).

Section Frames.
Variable to_number : string → option Q.
Variables x_col y_col : string.
Hypothesis Hne : x_col ≠ y_col.

(** A well-formed table that has both columns, with these cells in
    them and this dtype of the measure column. *)
Definition frame_is (df : DataFrame) (xs ys : list cell) (d : dtype) : Prop :=
  wf_table df ∧ has_column df x_col = true ∧ has_column df y_col = true
  ∧ series df x_col = xs ∧ series df y_col = ys ∧ dtype_of df y_col = d.

Lemma frame_fillna_x df xs ys d v :
  frame_is df xs ys d → frame_is (fillna df x_col v) (fill_cell v <$> xs) ys d.
Proof.
  intros (Hwf & Hx & Hy & <- & <- & <-). unfold frame_is, has_column.
  rewrite CleaningFacts.fillna_names. split_and!; try done.
  - by apply fillna_wf.
  - by apply fillna_series_same.
  - by apply CleaningFacts.fillna_series_other.
  - rewrite fillna_dtype_of. by rewrite bool_decide_eq_false_2.
Qed.

Lemma frame_fillna_y df xs ys d q :
  frame_is df xs ys d →
  frame_is (fillna df y_col (Num q)) xs (fill_cell (Num q) <$> ys) d.
Proof.
  intros (Hwf & Hx & Hy & <- & <- & <-). unfold frame_is, has_column.
  rewrite CleaningFacts.fillna_names. split_and!; try done.
  - by apply fillna_wf.
  - by apply CleaningFacts.fillna_series_other.
  - by apply fillna_series_same.
  - rewrite fillna_dtype_of, bool_decide_eq_true_2 by done.
    by destruct (dtype_of df y_col).
Qed.

Lemma frame_to_numeric_y df xs ys d :
  frame_is df xs ys d →
  frame_is (to_numeric to_number df y_col) xs
           (to_numeric_cell to_number <$> ys) Numeric.
Proof.
  intros (Hwf & Hx & Hy & <- & <- & <-). unfold frame_is, has_column.
  rewrite to_numeric_names. split_and!; try done.
  - by apply to_numeric_wf.
  - by apply to_numeric_series_other.
  - by apply to_numeric_series_same.
  - by apply to_numeric_dtype_of.
Qed.

(** The table that is grouped holds [category_cells] and
    [measure_cells] of the two original columns. *)
Lemma nan_handling_frame df operation :
  wf_table df → has_column df x_col = true → has_column df y_col = true →
  frame_is (nan_handling to_number df x_col y_col operation)
           (category_cells (series df x_col))
           (measure_cells to_number (dtype_of df y_col) operation
              (series df y_col))
           Numeric.
Proof.
  intros Hwf Hx Hy.
  assert (frame_is df (series df x_col) (series df y_col) (dtype_of df y_col))
    as H0 by done.
  unfold nan_handling, measure_cells, category_cells.
  set (xs := series df x_col) in *. set (ys := series df y_col) in *.
  set (d := dtype_of df y_col) in *.
  (* the category column *)
  assert (frame_is (if (0 <? isnull_sum xs)%nat
                    then fillna df x_col (Str "Unknown") else df)
            (fill_cell (Str "Unknown") <$> xs) ys d) as H1.
  { destruct (0 <? isnull_sum xs)%nat eqn:E.
    - by apply frame_fillna_x.
    - apply Nat.ltb_ge in E. rewrite fill_cell_id by lia. done. }
  revert H1. generalize (if (0 <? isnull_sum xs)%nat
                         then fillna df x_col (Str "Unknown") else df).
  generalize (fill_cell (Str "Unknown") <$> xs). clear H0.
  intros xs' df1 H1.
  pose proof H1 as (_ & _ & _ & _ & _ & Hd1). rewrite Hd1.
  (* the measure column *)
  destruct (0 <? isnull_sum ys)%nat.
  - destruct d; simpl.
    + destruct (String.eqb operation "sum" || String.eqb operation "count").
      * pose proof (frame_fillna_y _ _ _ _ 0%Q H1) as H2.
        pose proof H2 as (_ & _ & _ & _ & _ & Hd2). by rewrite Hd2.
      * by rewrite Hd1.
    + pose proof (frame_to_numeric_y _ _ _ _ H1) as H2.
      destruct (String.eqb operation "sum" || String.eqb operation "count").
      * pose proof (frame_fillna_y _ _ _ _ 0%Q H2) as H3.
        pose proof H3 as (_ & _ & _ & _ & _ & Hd3). by rewrite Hd3.
      * pose proof H2 as (_ & _ & _ & _ & _ & Hd2). by rewrite Hd2.
  - rewrite Hd1. destruct d; simpl; [done|].
    by apply (frame_fillna_y _ _ _ Numeric), (frame_to_numeric_y _ _ _ Object).
Qed.

End Frames.

(** *** The aggregation, end to end *)

(** One row per key of [xs], with the reduction of the cells of [ys] that
    stand beside it. *)
Definition aggregate_groups (np : Numerics) (operation : string) (xs ys : list cell)
    : list (cell * cell) :=
  (λ k, (k, aggregate np operation (group_values k (zip xs ys)))) <$> group_keys xs.

Definition empty_result : exn :=
  DataProcessingError (EmptyDataError "Analysis resulted in empty dataset").

Lemma analyze_data_flexible_groups {np : Numerics} to_number df x_col y_col operation :
  wf_table df → has_column df x_col = true → has_column df y_col = true →
  x_col ≠ y_col →
  analyze_data_flexible np to_number df x_col y_col operation
  = match sort_values np
            (aggregate_groups np operation
               (category_cells (series df x_col))
               (measure_cells to_number (dtype_of df y_col) operation
                  (series df y_col)))
    with
    | [] => Err empty_result
    | r :: l => Ok (r :: l)
    end.
Proof.
  intros Hwf Hx Hy Hne.
  destruct (nan_handling_frame to_number x_col y_col Hne df operation Hwf Hx Hy)
    as (_ & _ & _ & Hxs & Hys & _).
  unfold analyze_data_flexible, analyze_data_flexible_body.
  unfold DataValidator.validate_column_selection. rewrite Hx, Hy.
  cbn -[groupby_aggregate nan_handling].
  unfold groupby_aggregate.
  apply String.eqb_neq in Hne. rewrite Hne, Hxs, Hys.
  cbn. fold (aggregate_groups np operation).
  unfold aggregate_groups.
  by destruct (sort_values np _).
Qed.

Lemma insert_key_nonempty k ks : insert_key k ks ≠ [].
Proof.
  destruct ks as [|k' ks]; simpl; [done|].
  destruct (cell_eqb k k'); [done|]. by destruct (cell_ltb k k').
Qed.

Lemma foldl_insert_key_nonempty l acc :
  acc ≠ [] → foldl (λ ks k, insert_key k ks) acc l ≠ [].
Proof.
  revert acc. induction l as [|k l IH]; intros acc Hacc; [done|].
  simpl. apply IH, insert_key_nonempty.
Qed.

Lemma group_keys_nonempty xs :
  isnull_sum xs = 0%nat → xs ≠ [] → group_keys xs ≠ [].
Proof.
  intros H0 Hxs. unfold group_keys.
  assert (dropna xs = xs) as ->.
  { apply CleaningFacts.isnull_sum_0 in H0. unfold dropna. clear Hxs.
    induction H0 as [|c l Hc _ IH]; [done|].
    by rewrite filter_cons, decide_True, IH by done. }
  destruct xs as [|c l]; [done|]. simpl.
  by apply foldl_insert_key_nonempty.
Qed.

Lemma group_keys_nil : group_keys [] = [].
Proof. done. Qed.

(** C6, as the code has it.  For a well-formed table and two distinct
    columns of it: when the table has no rows the aggregation fails, and
    what reaches the caller is the processing error that wraps the
    empty-result error raised inside; when the table has rows the
    aggregation succeeds with at least one group. *)
Theorem aggregation_empty_iff {np : Numerics} (to_number : string → option Q)
    (df : DataFrame) (x_col y_col operation : string) :
  wf_table df → has_column df x_col = true → has_column df y_col = true →
  x_col ≠ y_col →
  (len df = 0%nat →
     analyze_data_flexible np to_number df x_col y_col operation = Err empty_result)
  ∧ (len df ≠ 0%nat →
     ∃ result,
       analyze_data_flexible np to_number df x_col y_col operation = Ok result
       ∧ result ≠ []).
Proof.
  intros Hwf Hx Hy Hne.
  rewrite (analyze_data_flexible_groups _ _ _ _ _ Hwf Hx Hy Hne).
  split.
  - intros H0. rewrite (series_no_rows df x_col H0).
    unfold aggregate_groups, category_cells. rewrite fmap_nil, group_keys_nil.
    by rewrite (proj2 (sort_values_nil [])).
  - intros Hrows.
    destruct (sort_values np _) as [|r l] eqn:Es; [|by eauto].
    exfalso. apply (proj1 (sort_values_nil _)) in Es.
    unfold aggregate_groups in Es. apply fmap_nil_inv in Es.
    revert Es. apply group_keys_nonempty.
    + by apply fill_cell_no_missing.
    + unfold category_cells. intros Hnil%fmap_nil_inv.
      destruct (has_column_index df x_col Hx) as (i & Hi & _).
      apply (series_length df x_col i) in Hi. rewrite Hnil in Hi. done.
Qed.

Lemma aggregation_empty_iff_witness :
  analyze_data_flexible textbook parse_float CleaningFacts.empty_table "Region" "Sales" "sum"
  = Err empty_result.
Proof.
  apply (aggregation_empty_iff (np := textbook) parse_float
           CleaningFacts.empty_table "Region" "Sales" "sum"); by_computing.
Defined.

Definition is_empty_data_error {A} (r : result exn A) : bool :=
  match r with Err (EmptyDataError _) => true | _ => false end.

(** C6 as stated fails: on the table without rows the caller does not get
    the empty-result error but a processing error. *)
Lemma aggregation_empty_counterexample :
  len CleaningFacts.empty_table = 0%nat
  ∧ is_empty_data_error
      (analyze_data_flexible textbook parse_float CleaningFacts.empty_table
         "Region" "Sales" "sum") = false
  ∧ analyze_data_flexible textbook parse_float CleaningFacts.empty_table
      "Region" "Sales" "sum"
    = Err (DataProcessingError
             (EmptyDataError "Analysis resulted in empty dataset")).
Proof. by vm_compute. Qed.

(** *** Order: a table and its aggregation *)

(** Categories in order of first occurrence: b, a, c; the sums of a and b
    are equal. *)
Definition ties_table : DataFrame :=
  {| columns := [("Category", Object); ("Amount", Numeric)];
     rows := [ [Str "b"; Num 5]; [Str "a"; Num 2];
               [Str "c"; Num 7]; [Str "a"; Num 3] ] |}.

Lemma aggregation_rows_ordered_witness :
  StronglySorted descending
    [(Str "c", Num 7); (Str "a", Num 5); (Str "b", Num 5)]
  ∧ ∃ df_analysis groups,
      groupby_aggregate textbook df_analysis "Category" "Amount" "sum" = Ok groups
      ∧ StronglySorted (λ r1 r2 : cell * cell, cell_lt r1.1 r2.1) groups
      ∧ [(Str "c", Num 7); (Str "a", Num 5); (Str "b", Num 5)] ≡ₚ groups.
Proof.
  apply (aggregation_rows_ordered (np := textbook) parse_float ties_table
           "Category" "Amount" "sum").
  by vm_compute.
Defined.

(** C9 as stated fails: a and b have the same sum, b occurs first in the
    table, and a stands before b in the result.  The sort of the textbook
    library keeps rows of equal value as the grouping left them, and the
    grouping has put a before b. *)
Lemma aggregation_rows_ordered_counterexample :
  unique (series ties_table "Category") = [Str "b"; Str "a"; Str "c"]
  ∧ analyze_data_flexible textbook parse_float ties_table "Category" "Amount" "sum"
    = Ok [(Str "c", Num 7); (Str "a", Num 5); (Str "b", Num 5)].
Proof. by vm_compute. Qed.

(** *** The NaN policy of the measure column *)

(** The measure cells as numbers: a numeric column as it is, any other
    with its cells coerced. *)
Definition coerced (to_number : string → option Q) (d : dtype) (ys : list cell)
    : list cell :=
  if is_numeric_dtype d then ys else to_numeric_cell to_number <$> ys.

Definition sum_or_count (operation : string) : bool :=
  String.eqb operation "sum" || String.eqb operation "count".

(** For sum and count every missing cell counts as 0.  For the other
    operations missing cells stay missing, and the reductions skip them,
    when the column is numeric or had a missing cell before coercion; in
    a non-numeric column without missing cells the cells that do not read
    as numbers become 0 for every operation. *)
Lemma measure_policy to_number d operation ys :
  (sum_or_count operation = true →
     measure_cells to_number d operation ys
     = fill_cell (Num 0) <$> coerced to_number d ys)
  ∧ (sum_or_count operation = false →
     is_numeric_dtype d = true ∨ (0 < isnull_sum ys)%nat →
     measure_cells to_number d operation ys = coerced to_number d ys)
  ∧ (sum_or_count operation = false →
     is_numeric_dtype d = false → isnull_sum ys = 0%nat →
     measure_cells to_number d operation ys
     = fill_cell (Num 0) <$> coerced to_number d ys).
Proof.
  unfold measure_cells, coerced, sum_or_count. split_and!.
  - intros ->. destruct (0 <? isnull_sum ys)%nat eqn:E; [done|].
    destruct (is_numeric_dtype d); [|done].
    apply Nat.ltb_ge in E. rewrite fill_cell_id; [done|lia].
  - intros -> [Hd|Hn].
    + rewrite Hd. by destruct (0 <? isnull_sum ys)%nat.
    + apply Nat.ltb_lt in Hn. by rewrite Hn.
  - intros -> -> ->. done.
Qed.

(** The reductions skip missing cells. *)
Lemma aggregate_skips_missing {np : Numerics} operation vals :
  aggregate np operation vals = aggregate np operation (Num <$> numbers vals).
Proof.
  unfold aggregate.
  assert (numbers (Num <$> numbers vals) = numbers vals) as ->; [|done].
  induction (numbers vals) as [|q l IH]; [done|]. csimpl. by rewrite IH.
Qed.

(** The scenario of the specification: one category, measure cells 10,
    missing, 20 in a numeric column. *)
Definition scenario_measure : DataFrame :=
  {| columns := [("Region", Object); ("Sales", Numeric)];
     rows := [ [Str "A"; Num 10]; [Str "A"; NaN]; [Str "A"; Num 20] ] |}.

Example scenario_mean_and_sum :
  analyze_data_flexible textbook parse_float scenario_measure "Region" "Sales" "mean"
  = Ok [(Str "A", Num (30 # 2))]
  ∧ analyze_data_flexible textbook parse_float scenario_measure "Region" "Sales" "sum"
    = Ok [(Str "A", Num 30)]
  ∧ (30 # 2 == 15)%Q.
Proof. by vm_compute. Qed.

(** The same cells, the middle one a text that is no number, in a
    non-numeric column without missing cells; and that column with one
    more row whose measure is missing. *)
Definition text_measure : DataFrame :=
  {| columns := [("Region", Object); ("Sales", Object)];
     rows := [ [Str "A"; Num 10]; [Str "A"; Str "abc"]; [Str "A"; Num 20] ] |}.

Definition text_measure_with_gap : DataFrame :=
  {| columns := [("Region", Object); ("Sales", Object)];
     rows := [ [Str "A"; Num 10]; [Str "A"; Str "abc"]; [Str "A"; Num 20];
               [Str "B"; NaN] ] |}.

(** C1 at the failing input.  The text cell is coerced to missing, yet the
    mean over 10, "abc", 20 is 30/3 = 10: the cell was counted as 0.  With
    a missing cell elsewhere in the column the same three cells give
    30/2 = 15. *)
Theorem mean_counts_text_as_zero :
  isnull_sum (series text_measure "Sales") = 0%nat
  ∧ to_numeric_cell parse_float (Str "abc") = NaN
  ∧ analyze_data_flexible textbook parse_float text_measure "Region" "Sales" "mean"
    = Ok [(Str "A", Num (30 # 3))]
  ∧ analyze_data_flexible textbook parse_float text_measure "Region" "Sales" "min"
    = Ok [(Str "A", Num 0)]
  ∧ analyze_data_flexible textbook parse_float text_measure_with_gap
      "Region" "Sales" "mean"
    = Ok [(Str "A", Num (30 # 2)); (Str "B", NaN)].
Proof. by vm_compute. Qed.

(** The same through the pipeline of [process_data]: [Sales] is numeric with
    three of five cells missing, the default cleaning fills them with
    ["N/A"], and the mean then counts each of them as 0: 30/5 = 6. *)
Definition mostly_missing : DataFrame :=
  {| columns := [("Id", Numeric); ("Region", Object); ("Sales", Numeric)];
     rows := [ [Num 1; Str "A"; Num 10]; [Num 2; Str "A"; NaN];
               [Num 3; Str "A"; NaN];    [Num 4; Str "A"; NaN];
               [Num 5; Str "A"; Num 20] ] |}.

Example pipeline_mean_counts_sentinel_as_zero :
  (cleaned ← clean_data textbook mostly_missing;
   analyze_data_flexible textbook parse_float cleaned "Region" "Sales" "mean")
  = Ok [(Str "A", Num (30 # 5))]
  ∧ analyze_data_flexible textbook parse_float mostly_missing "Region" "Sales" "mean"
    = Ok [(Str "A", Num (30 # 2))].
Proof. by vm_compute. Qed.

End AggregationFacts.

(** ** Failures: propagated or swallowed *)

Module PropagationFacts.
Import FlexibleDataProcessor.

(** C7, as the code has it.  Cleaning and aggregation hand every failure
    of their body to the caller, as a processing error: cleaning fails
    exactly on an empty table, and an aggregation that succeeds has at
    least one row.  The NaN analysis does not: on a table without cells
    its closing division fails, and it returns the empty dict. *)
Theorem stage_failures {np : Numerics} :
  (∀ df s e, clean_data_with_strategy_body np df s = Err e →
             clean_data_with_strategy np df s = Err (DataProcessingError e))
  ∧ (∀ df s, empty df = true →
             clean_data_with_strategy np df s
             = Err (DataProcessingError (EmptyDataError "DataFrame is empty")))
  ∧ (∀ df s, empty df = false → ∃ out, clean_data_with_strategy np df s = Ok out)
  ∧ (∀ to_number df x_col y_col operation e,
       analyze_data_flexible_body np to_number df x_col y_col operation = Err e →
       analyze_data_flexible np to_number df x_col y_col operation
       = Err (DataProcessingError e))
  ∧ (∀ to_number df x_col y_col operation result,
       analyze_data_flexible np to_number df x_col y_col operation = Ok result →
       result ≠ [])
  ∧ (∀ df, size df = 0%nat →
           analyze_nan_values_body np df = Err ZeroDivisionError
           ∧ analyze_nan_values np df = EmptyDict)
  ∧ (∀ df, size df ≠ 0%nat → ∃ a, analyze_nan_values np df = Analysis a).
Proof.
  split_and!.
  - intros df s e H. unfold clean_data_with_strategy. by rewrite H.
  - apply CleaningFacts.clean_empty.
  - intros df s He. rewrite CleaningFacts.clean_nonempty by done. eauto.
  - intros to_number df x y op e H. unfold analyze_data_flexible. by rewrite H.
  - intros to_number df x y op r H.
    by apply AggregationFacts.analyze_data_flexible_ok in H as [? _].
  - intros df H0.
    pose proof (proj1 (StrategyFacts.analyze_nan_values_body_fails df) H0) as Hb.
    split; [done|]. unfold analyze_nan_values. by rewrite Hb.
  - intros df Hs. unfold analyze_nan_values.
    destruct (analyze_nan_values_body np df) as [a|e] eqn:Eb; [by eauto|].
    exfalso. apply Hs, StrategyFacts.analyze_nan_values_body_fails.
    unfold analyze_nan_values_body in *.
    by destruct (_ =? 0)%nat.
Qed.

Lemma stage_failures_witness :
  analyze_nan_values textbook CleaningFacts.empty_table = EmptyDict
  ∧ clean_data_with_strategy textbook CleaningFacts.empty_table None
    = Err (DataProcessingError (EmptyDataError "DataFrame is empty")).
Proof.
  destruct (stage_failures (np := textbook)) as (_ & Hclean & _ & _ & _ & Hnan & _).
  split.
  - apply (Hnan CleaningFacts.empty_table). by_computing.
  - apply (Hclean CleaningFacts.empty_table None). by_computing.
Defined.

(** C7 as stated fails: on the table without rows the NaN analysis fails
    inside and returns the empty dict. *)
Lemma stage_failures_counterexample :
  analyze_nan_values_body textbook CleaningFacts.empty_table = Err ZeroDivisionError
  ∧ analyze_nan_values textbook CleaningFacts.empty_table = EmptyDict.
Proof. by vm_compute. Qed.

End PropagationFacts.

(** ** What cleaning keeps and what it removes *)

Module CleaningInvariants.
Import FlexibleDataProcessor CleaningFacts AggregationFacts.

Lemma Forall_sublist_of {A} (P : A → Prop) (l1 l2 : list A) :
  Forall P l2 → l1 `sublist_of` l2 → Forall P l1.
Proof.
  intros H Hs. apply Forall_forall. intros x Hx.
  eapply Forall_forall; [exact H|]. by apply (sublist_subseteq _ _ Hs).
Qed.

Lemma series_length_column df col :
  col ∈ column_names df → length (series df col) = len df.
Proof.
  intros Hc.
  destruct (AggregationFacts.has_column_index df col) as (i & Hi & _).
  { by apply bool_decide_eq_true_2. }
  by eapply AggregationFacts.series_length.
Qed.

Lemma isnull_sum_sublist s1 s2 :
  s1 `sublist_of` s2 → (isnull_sum s1 ≤ isnull_sum s2)%nat.
Proof.
  unfold isnull_sum. induction 1 as [|c l1 l2 _ IH|c l1 l2 _ IH]; [done|..].
  - rewrite !filter_cons. destruct (decide _); simpl; lia.
  - rewrite filter_cons. destruct (decide _); simpl; lia.
Qed.

Lemma isnull_sum_fill_cell v xs :
  (isnull_sum (fill_cell v <$> xs) ≤ isnull_sum xs)%nat.
Proof.
  unfold isnull_sum. induction xs as [|c xs IH]; [done|].
  csimpl. rewrite !filter_cons. unfold fill_cell at 1.
  destruct c; simpl; repeat destruct (decide _); simpl in *; try done; lia.
Qed.

Lemma dropna_subset_series_same df col :
  series (dropna_subset df col) col = dropna (series df col).
Proof.
  unfold series.
  rewrite (col_index_same_names (dropna_subset df col) df)
    by apply dropna_subset_names.
  unfold dropna_subset. destruct (col_index df col) as [i|]; [|done].
  simpl. unfold dropna. induction (rows df) as [|r l IH]; [done|].
  csimpl. rewrite !filter_cons.
  destruct (decide (isnull (cell_at i r) = false)); csimpl; by rewrite IH.
Qed.

Lemma isnull_sum_dropna s : isnull_sum (dropna s) = 0%nat.
Proof.
  apply isnull_sum_0. unfold dropna.
  apply Forall_forall. by intros c [? _]%list_elem_of_filter.
Qed.

(** *** One round of the loop *)

Lemma apply_strategy_names a s df c :
  column_names (apply_strategy a s df c) = column_names df.
Proof.
  unfold apply_strategy. destruct (s !! c) as [e|]; [|done].
  destruct (String.eqb _ "fill"); [apply fillna_names|].
  destruct (String.eqb _ "drop"); [apply dropna_subset_names|].
  by destruct (String.eqb _ "keep").
Qed.

Lemma dropna_subset_wf df c : wf_table df → wf_table (dropna_subset df c).
Proof.
  unfold wf_table, dropna_subset. intros Hwf.
  destruct (col_index df c); [|done]. simpl.
  eapply Forall_sublist_of; [exact Hwf|apply sublist_filter].
Qed.

Lemma apply_strategy_wf a s df c :
  wf_table df → wf_table (apply_strategy a s df c).
Proof.
  intros Hwf. unfold apply_strategy. destruct (s !! c) as [e|]; [|done].
  destruct (String.eqb _ "fill"); [by apply fillna_wf|].
  destruct (String.eqb _ "drop"); [by apply dropna_subset_wf|].
  by destruct (String.eqb _ "keep").
Qed.

Lemma fillna_len df c v : len (fillna df c v) = len df.
Proof.
  unfold fillna, len. destruct (col_index df c); [|done].
  simpl. apply length_fmap.
Qed.

Lemma apply_strategy_len a s df c :
  (len (apply_strategy a s df c) ≤ len df)%nat.
Proof.
  unfold apply_strategy. destruct (s !! c) as [e|]; [|done].
  destruct (String.eqb _ "fill"); [by rewrite fillna_len|].
  destruct (String.eqb _ "drop").
  { unfold dropna_subset, len. destruct (col_index df c); [|done].
    simpl. apply length_filter. }
  by destruct (String.eqb _ "keep").
Qed.

(** No round adds a missing cell to any column. *)
Lemma apply_strategy_isnull_sum a s df c col :
  wf_table df →
  (isnull_sum (series (apply_strategy a s df c) col) ≤ isnull_sum (series df col))%nat.
Proof.
  intros Hwf. unfold apply_strategy. destruct (s !! c) as [e|]; [|done].
  destruct (String.eqb _ "fill").
  { destruct (decide (c = col)) as [->|Hne].
    - rewrite fillna_series_same by done. apply isnull_sum_fill_cell.
    - by rewrite fillna_series_other. }
  destruct (String.eqb _ "drop");
    [apply isnull_sum_sublist, dropna_subset_series|].
  by destruct (String.eqb _ "keep").
Qed.

Lemma foldl_apply_strategy_names a s cols df :
  column_names (foldl (apply_strategy a s) df cols) = column_names df.
Proof.
  revert df. induction cols as [|c l IH]; intros df; [done|].
  simpl. by rewrite IH, apply_strategy_names.
Qed.

Lemma foldl_apply_strategy_wf a s cols df :
  wf_table df → wf_table (foldl (apply_strategy a s) df cols).
Proof.
  revert df. induction cols as [|c l IH]; intros df Hwf; [done|].
  simpl. by apply IH, apply_strategy_wf.
Qed.

Lemma foldl_apply_strategy_len a s cols df :
  (len (foldl (apply_strategy a s) df cols) ≤ len df)%nat.
Proof.
  revert df. induction cols as [|c l IH]; intros df; [done|].
  simpl. etrans; [apply IH|apply apply_strategy_len].
Qed.

Lemma foldl_apply_strategy_isnull_sum a s cols df col :
  wf_table df →
  (isnull_sum (series (foldl (apply_strategy a s) df cols) col)
   ≤ isnull_sum (series df col))%nat.
Proof.
  revert df. induction cols as [|c l IH]; intros df Hwf; [done|].
  simpl. etrans; [by apply IH, apply_strategy_wf|].
  by apply apply_strategy_isnull_sum.
Qed.

Lemma drop_duplicates_wf df : wf_table df → wf_table (drop_duplicates df).
Proof.
  unfold wf_table, drop_duplicates. simpl. intros Hwf.
  eapply Forall_sublist_of; [exact Hwf|apply drop_duplicate_rows_sublist].
Qed.

(** *** Entries that remove the missing cells of their column *)

(** Rows dropped, or cells filled with a value that is not itself missing
    (an entry without a value takes the suggested one). *)
Definition removes_missing (e : StrategyEntry) : Prop :=
  method e = Some "drop"
  ∨ ((method e = Some "fill" ∨ method e = None)
     ∧ ∀ v, value e = Some v → isnull v = false).

Lemma unique_elem c s : c ∈ unique s → c ∈ s.
Proof.
  revert c. induction s as [|d s IH]; intros c; simpl; [done|].
  rewrite !elem_of_cons. intros [->|[_ H]%list_elem_of_filter]; auto.
Qed.

Lemma series_mode_elem s m : series_mode s = Some m → m ∈ dropna s.
Proof.
  unfold series_mode. intros H. apply unique_elem. revert m H.
  induction (unique (dropna s)) as [|c l IH]; intros m; simpl; [done|].
  destruct (foldr _ None l) as [b|].
  - destruct (mode_better s c b); intros [= <-]; [left|right; by apply IH].
  - intros [= <-]. left.
Qed.

Lemma series_mode_nonnull s m : series_mode s = Some m → isnull m = false.
Proof.
  intros H%series_mode_elem. unfold dropna in H.
  by apply list_elem_of_filter in H as [? _].
Qed.

Lemma recommend_mode_nonnull d s :
  isnull (get_mode (Some (recommend d s))) = false.
Proof.
  unfold recommend. destruct d; simpl; [done|].
  destruct (0 <? _)%nat; [|done].
  destruct (series_mode _) as [m|] eqn:E; [|done].
  by apply series_mode_nonnull in E.
Qed.

Lemma suggested_fill_nonnull {np : Numerics} df cur col :
  col ∈ column_names df →
  isnull (suggested_fill (analyze_nan_values np df) cur col) = false.
Proof.
  intros Hcol. unfold suggested_fill.
  rewrite (StrategyFacts.recommendations_lookup df col Hcol).
  destruct (StrategyFacts.has_nan df col).
  - pose proof (recommend_mode_nonnull (dtype_of df col) (series df col)) as H.
    by destruct (recommend _ _).
  - by destruct (is_numeric_dtype _).
Qed.

Lemma apply_strategy_removes {np : Numerics} df s cur col e :
  wf_table cur → col ∈ column_names df →
  s !! col = Some e → removes_missing e →
  isnull_sum (series (apply_strategy (analyze_nan_values np df) s cur col) col) = 0%nat.
Proof.
  intros Hwf Hcol Hs He. unfold apply_strategy. rewrite Hs.
  destruct He as [Hm|[Hm Hv]].
  - rewrite Hm. simpl. rewrite dropna_subset_series_same.
    apply isnull_sum_dropna.
  - assert (default "fill" (method e) = "fill") as -> by (by destruct Hm as [->| ->]).
    simpl. rewrite fillna_series_same by done.
    apply fill_cell_no_missing.
    destruct (value e) as [v|]; [by apply Hv|by apply suggested_fill_nonnull].
Qed.

Lemma foldl_apply_strategy_removes {np : Numerics} df s col e cols cur :
  wf_table cur → col ∈ column_names df →
  s !! col = Some e → removes_missing e →
  col ∈ cols ∨ isnull_sum (series cur col) = 0%nat →
  isnull_sum (series (foldl (apply_strategy (analyze_nan_values np df) s) cur cols) col)
  = 0%nat.
Proof.
  intros Hwf Hcol Hs He. revert cur Hwf.
  induction cols as [|c l IH]; intros cur Hwf [Hin|H0]; simpl.
  - by apply elem_of_nil in Hin.
  - done.
  - apply IH; [by apply apply_strategy_wf|].
    apply elem_of_cons in Hin as [<-|Hin]; [right|by left].
    by eapply apply_strategy_removes.
  - apply IH; [by apply apply_strategy_wf|]. right.
    pose proof (apply_strategy_isnull_sum (analyze_nan_values np df) s cur c col Hwf).
    lia.
Qed.

(** X1.  An entry that drops the rows with a missing cell of its column, or
    fills them with a value that is not missing (or names no value, so that
    the suggested one is taken), leaves no missing cell in that column of
    the cleaned table, whatever the entries of the other columns do. *)
Theorem cleaning_column_without_missing {np : Numerics} (df : DataFrame)
    (nan_strategy : gmap string StrategyEntry) (col : string) (e : StrategyEntry) :
  wf_table df → empty df = false → has_column df col = true →
  nan_strategy !! col = Some e → removes_missing e →
  ∃ out, clean_data_with_strategy np df (Some nan_strategy) = Ok out
         ∧ isnull_sum (series out col) = 0%nat.
Proof.
  intros Hwf Hne Hcol%bool_decide_eq_true_1 Hs He.
  rewrite (clean_nonempty df _ Hne). eexists. split; [done|].
  pose proof (isnull_sum_sublist _ _
    (drop_duplicates_series
       (apply_all (analyze_nan_values np df) nan_strategy df) col)) as Hle.
  unfold apply_all in *.
  rewrite (foldl_apply_strategy_removes df nan_strategy col e) in Hle
    by (done || by left).
  lia.
Qed.

Definition fill_region_drop_sales : gmap string StrategyEntry :=
  {[ "Region" := {| method := None; value := None |};
     "Sales" := method_only "drop" ]}.

Lemma cleaning_column_without_missing_witness :
  ∃ out, clean_data_with_strategy textbook gaps_table (Some fill_region_drop_sales) = Ok out
         ∧ isnull_sum (series out "Region") = 0%nat.
Proof.
  apply (cleaning_column_without_missing (np := textbook) gaps_table fill_region_drop_sales
           "Region" {| method := None; value := None |}).
  - repeat constructor.
  - by_computing.
  - by_computing.
  - by_computing.
  - right. split; [by right|]. intros v. by_computing.
Defined.

(** *** The default strategy *)

Lemma default_entry_fills {np : Numerics} df col :
  col ∈ column_names df →
  let e := default_entry (analyze_nan_values np df) col in
  method e ≠ Some "drop"
  ∧ (StrategyFacts.has_nan df col = true → removes_missing e).
Proof.
  intros Hcol. simpl. rewrite (StrategyFacts.default_entry_analysis df col Hcol).
  destruct (StrategyFacts.has_nan df col); [|done].
  assert (∀ v, isnull v = false →
            method (fill_with v) ≠ Some "drop"
            ∧ (true = true → removes_missing (fill_with v))) as Hfill.
  { intros v Hv. split; [done|]. intros _. right. split; [by left|].
    simpl. by intros ? [= <-]. }
  cbv zeta.
  pose proof (recommend_mode_nonnull (dtype_of df col) (series df col)) as Hm.
  destruct (Qgtb _ 50); [by apply Hfill|].
  destruct (Qgtb _ 20); destruct (recommended_number _); by apply Hfill.
Qed.

Lemma apply_strategy_keeps_rows a s cur c :
  (∀ e, s !! c = Some e → method e ≠ Some "drop") →
  len (apply_strategy a s cur c) = len cur.
Proof.
  intros H. unfold apply_strategy. destruct (s !! c) as [e|] eqn:E; [|done].
  specialize (H e eq_refl).
  destruct (String.eqb _ "fill") eqn:E1; [apply fillna_len|].
  destruct (String.eqb _ "drop") eqn:E2.
  { apply String.eqb_eq in E2. destruct (method e) as [m|]; simpl in *; [|done].
    by subst m. }
  by destruct (String.eqb _ "keep").
Qed.

Lemma foldl_apply_strategy_keeps_rows a s cols cur :
  Forall (λ c, ∀ e, s !! c = Some e → method e ≠ Some "drop") cols →
  len (foldl (apply_strategy a s) cur cols) = len cur.
Proof.
  intros H. revert cur. induction H as [|c l Hc _ IH]; intros cur; [done|].
  simpl. by rewrite IH, apply_strategy_keeps_rows.
Qed.

Lemma sum_list_zero (l : list nat) : Forall (λ n, n = 0%nat) l → sum_list l = 0%nat.
Proof. induction 1 as [|n l -> _ IH]; [done|]. simpl. by rewrite IH. Qed.

Lemma filter_all {A} (P : A → Prop) `{!∀ x, Decision (P x)} (l : list A) :
  Forall P l → filter P l = l.
Proof.
  induction 1 as [|x l Hx _ IH]; [done|].
  by rewrite filter_cons, decide_True, IH.
Qed.

Lemma drop_duplicate_rows_fixed l :
  distinct_rows l → drop_duplicate_rows l = l.
Proof.
  induction l as [|r l IH]; [done|]. intros [Hr Hl]. simpl.
  by rewrite (IH Hl), filter_all.
Qed.

Lemma drop_duplicate_rows_length l :
  l ≠ [] → length (drop_duplicate_rows l) ≠ 0%nat.
Proof. by destruct l. Qed.

(** The table the default strategy leaves before the duplicate rows go. *)
Definition default_filled (np : Numerics) (df : DataFrame) : DataFrame :=
  apply_all (analyze_nan_values np df)
            (_get_default_nan_strategy df (analyze_nan_values np df)) df.

Lemma default_filled_facts {np : Numerics} df :
  wf_table df →
  wf_table (default_filled np df)
  ∧ column_names (default_filled np df) = column_names df
  ∧ len (default_filled np df) = len df
  ∧ ∀ col, col ∈ column_names df →
           isnull_sum (series (default_filled np df) col) = 0%nat.
Proof.
  intros Hwf. unfold default_filled, apply_all.
  split; [by apply foldl_apply_strategy_wf|].
  split; [apply foldl_apply_strategy_names|].
  split.
  { apply foldl_apply_strategy_keeps_rows, Forall_forall.
    intros c Hc e. rewrite (StrategyFacts.default_strategy_lookup _ _ _ Hc).
    intros [= <-]. by apply default_entry_fills. }
  intros col Hcol.
  destruct (StrategyFacts.has_nan df col) eqn:En.
  - eapply foldl_apply_strategy_removes; [done..| | |by left].
    + by apply StrategyFacts.default_strategy_lookup.
    + by apply default_entry_fills.
  - pose proof (foldl_apply_strategy_isnull_sum (analyze_nan_values np df)
                  (_get_default_nan_strategy df (analyze_nan_values np df))
                  (column_names df) df col Hwf) as Hle.
    unfold StrategyFacts.has_nan in En. apply Nat.ltb_ge in En. lia.
Qed.

Lemma empty_false df :
  empty df = false ↔ len df ≠ 0%nat ∧ columns df ≠ [].
Proof.
  unfold empty, size. rewrite bool_decide_eq_false.
  destruct (columns df) as [|c l]; simpl.
  - split; [lia|]. by intros [_ ?].
  - split; [intros H; split; [lia|done]|intros [H _]; lia].
Qed.

Lemma default_cleaning_result {np : Numerics} df :
  wf_table df → empty df = false →
  let out := drop_duplicates (default_filled np df) in
  clean_data np df = Ok out
  ∧ wf_table out
  ∧ column_names out = column_names df
  ∧ empty out = false
  ∧ (len out ≤ len df)%nat
  ∧ DataQualityAssessment.total_nan out = 0%nat
  ∧ distinct_rows (rows out).
Proof.
  intros Hwf Hne. simpl.
  destruct (default_filled_facts df Hwf) as (Hwf' & Hnames & Hlen & Hnan).
  split; [apply (clean_nonempty df None Hne)|].
  split; [by apply drop_duplicates_wf|].
  split; [done|].
  apply empty_false in Hne as [Hrows Hcols].
  split.
  { apply empty_false. split.
    - apply drop_duplicate_rows_length. intros Hnil.
      unfold len in *. rewrite Hnil in Hlen. simpl in Hlen. lia.
    - simpl. intros Hnil. apply Hcols.
      apply (f_equal (fmap fst)) in Hnil. fold (column_names (default_filled np df)) in Hnil.
      rewrite Hnames in Hnil. unfold column_names in Hnil.
      by destruct (columns df). }
  split.
  { rewrite <- Hlen. apply sublist_length, drop_duplicate_rows_sublist. }
  split; [|apply drop_duplicate_rows_distinct].
  apply sum_list_zero, Forall_fmap, Forall_forall. intros col Hcol. simpl.
  change (column_names (drop_duplicates (default_filled np df)))
    with (column_names (default_filled np df)) in Hcol.
  rewrite Hnames in Hcol.
  pose proof (isnull_sum_sublist _ _
                (drop_duplicates_series (default_filled np df) col)) as Hle.
  rewrite (Hnan col Hcol) in Hle. lia.
Qed.

(** X2.  Cleaning a non-empty table without a strategy succeeds and leaves
    no missing cell in any column; it keeps the columns, drops no row but
    duplicates, and the result is not empty. *)
Theorem default_cleaning_fills_everything {np : Numerics} (df : DataFrame) :
  wf_table df → empty df = false →
  ∃ out, clean_data np df = Ok out
         ∧ DataQualityAssessment.total_nan out = 0%nat
         ∧ column_names out = column_names df
         ∧ empty out = false
         ∧ rows out = drop_duplicate_rows (rows (default_filled np df))
         ∧ len (default_filled np df) = len df.
Proof.
  intros Hwf Hne.
  destruct (default_cleaning_result df Hwf Hne) as (Hc & _ & Hn & He & _ & H0 & _).
  destruct (default_filled_facts df Hwf) as (_ & _ & Hlen & _).
  by eexists.
Qed.

Lemma default_cleaning_fills_everything_witness :
  ∃ out, clean_data textbook gaps_table = Ok out
         ∧ DataQualityAssessment.total_nan out = 0%nat
         ∧ column_names out = column_names gaps_table
         ∧ empty out = false
         ∧ rows out = drop_duplicate_rows (rows (default_filled textbook gaps_table))
         ∧ len (default_filled textbook gaps_table) = len gaps_table.
Proof.
  apply (default_cleaning_fills_everything (np := textbook) gaps_table).
  - repeat constructor.
  - by_computing.
Defined.

(** X3.  A table cleaned without a strategy is a fixed point of cleaning:
    cleaning it again, with any strategy or none, returns it unchanged. *)
Theorem default_cleaning_is_final {np : Numerics} (df : DataFrame)
    (nan_strategy : option (gmap string StrategyEntry)) :
  wf_table df → empty df = false →
  ∃ out, clean_data np df = Ok out
         ∧ clean_data_with_strategy np out nan_strategy = Ok out.
Proof.
  intros Hwf Hne.
  destruct (default_cleaning_result df Hwf Hne) as (Hc & _ & _ & He & _ & H0 & Hd).
  eexists. split; [exact Hc|].
  rewrite (clean_nonempty _ nan_strategy He).
  rewrite apply_all_no_missing by done.
  f_equal. unfold drop_duplicates at 1. simpl.
  rewrite drop_duplicate_rows_fixed by apply drop_duplicate_rows_distinct.
  done.
Qed.

Lemma default_cleaning_is_final_witness :
  ∃ out, clean_data textbook gaps_table = Ok out
         ∧ clean_data_with_strategy textbook out (Some fill_region_drop_sales) = Ok out.
Proof.
  apply (default_cleaning_is_final (np := textbook) gaps_table (Some fill_region_drop_sales)).
  - repeat constructor.
  - by_computing.
Defined.

(** *** What the default strategy writes *)

(** The value of an entry; an entry without one fills nothing here. *)
Definition entry_value (e : StrategyEntry) : cell := default NaN (value e).

Lemma fill_cell_missing (xs : list cell) : fill_cell NaN <$> xs = xs.
Proof.
  induction xs as [|c xs IH]; [done|]. csimpl. rewrite IH. by destruct c.
Qed.

Lemma apply_strategy_default_entry {np : Numerics} df cur c col :
  wf_table cur → c ∈ column_names df →
  series (apply_strategy (analyze_nan_values np df)
            (_get_default_nan_strategy df (analyze_nan_values np df)) cur c) col
  = if bool_decide (col = c)
    then fill_cell (entry_value (default_entry (analyze_nan_values np df) col))
           <$> series cur col
    else series cur col.
Proof.
  intros Hwf Hc. unfold apply_strategy.
  rewrite (StrategyFacts.default_strategy_lookup _ _ _ Hc).
  rewrite (StrategyFacts.default_entry_analysis df c Hc).
  case_bool_decide as Heq.
  - subst c. rewrite (StrategyFacts.default_entry_analysis df col Hc).
    destruct (StrategyFacts.has_nan df col);
      [|simpl; by rewrite fill_cell_missing].
    cbv zeta.
    destruct (Qgtb _ 50); [simpl; by apply fillna_series_same|].
    destruct (Qgtb _ 20); destruct (recommended_number _); simpl;
      by apply fillna_series_same.
  - destruct (StrategyFacts.has_nan df c); [|done].
    cbv zeta.
    destruct (Qgtb _ 50); [simpl; by apply fillna_series_other|].
    destruct (Qgtb _ 20); destruct (recommended_number _); simpl;
      by apply fillna_series_other.
Qed.

Lemma foldl_default_entries {np : Numerics} df cols cur col :
  wf_table cur → NoDup cols → cols ⊆ column_names df →
  series (foldl (apply_strategy (analyze_nan_values np df)
                   (_get_default_nan_strategy df (analyze_nan_values np df)))
                cur cols) col
  = if bool_decide (col ∈ cols)
    then fill_cell (entry_value (default_entry (analyze_nan_values np df) col))
           <$> series cur col
    else series cur col.
Proof.
  intros Hwf Hnd. revert cur Hwf.
  induction Hnd as [|c l Hc Hnd IH]; intros cur Hwf Hsub; [done|].
  simpl. rewrite IH;
    [|by apply apply_strategy_wf|intros x Hx; apply Hsub; by right].
  rewrite apply_strategy_default_entry by (done || (apply Hsub; left)).
  destruct (decide (col = c)) as [->|Hne].
  - rewrite bool_decide_eq_false_2, !bool_decide_eq_true_2; [done|left|done..].
  - rewrite (bool_decide_eq_false_2 (col = c)) by done.
    destruct (decide (col ∈ l)) as [Hin|Hin].
    + rewrite !bool_decide_eq_true_2; [done|by right|done].
    + rewrite !bool_decide_eq_false_2; [done| |done].
      by intros [?|?]%elem_of_cons.
Qed.

(** X4.  On a well-formed, non-empty table with unique column names,
    cleaning without a strategy returns the table in which every missing
    cell holds the value of its column's default entry and every other cell
    is as it was, with later copies of equal rows removed. *)
Theorem default_cleaning_changes_only_missing_cells {np : Numerics} (df : DataFrame) :
  wf_table df → empty df = false → NoDup (column_names df) →
  clean_data np df = Ok (drop_duplicates (default_filled np df))
  ∧ len (default_filled np df) = len df
  ∧ ∀ col, col ∈ column_names df →
           series (default_filled np df) col
           = fill_cell (entry_value (default_entry (analyze_nan_values np df) col))
               <$> series df col.
Proof.
  intros Hwf Hne Hnd.
  destruct (default_filled_facts df Hwf) as (_ & _ & Hlen & _).
  split; [apply (clean_nonempty df None Hne)|]. split; [done|].
  intros col Hcol. unfold default_filled, apply_all.
  rewrite foldl_default_entries by done.
  by rewrite bool_decide_eq_true_2.
Qed.

Lemma default_cleaning_changes_only_missing_cells_witness :
  clean_data textbook gaps_table = Ok (drop_duplicates (default_filled textbook gaps_table))
  ∧ len (default_filled textbook gaps_table) = len gaps_table
  ∧ ∀ col, col ∈ column_names gaps_table →
           series (default_filled textbook gaps_table) col
           = fill_cell (entry_value
                          (default_entry (analyze_nan_values textbook gaps_table) col))
               <$> series gaps_table col.
Proof.
  apply (default_cleaning_changes_only_missing_cells (np := textbook) gaps_table).
  - repeat constructor.
  - by_computing.
  - apply (bool_decide_unpack _). by_computing.
Defined.

(** X5.  Whatever the strategy, a cleaned table has the columns of the
    input in the same order, no more rows than the input and no two equal
    rows; on a well-formed input it is well-formed and no column has more
    missing cells than before. *)
Theorem cleaning_shape {np : Numerics} (df : DataFrame)
    (nan_strategy : option (gmap string StrategyEntry)) (out : DataFrame) :
  clean_data_with_strategy np df nan_strategy = Ok out →
  column_names out = column_names df
  ∧ (len out ≤ len df)%nat
  ∧ distinct_rows (rows out)
  ∧ (wf_table df →
     wf_table out
     ∧ ∀ col, (isnull_sum (series out col) ≤ isnull_sum (series df col))%nat).
Proof.
  intros Hc. destruct (empty df) eqn:Hne.
  { by rewrite (clean_empty df _ Hne) in Hc. }
  rewrite (clean_nonempty df _ Hne) in Hc. injection Hc as <-.
  unfold apply_all.
  split; [apply foldl_apply_strategy_names|].
  split.
  { etrans; [|apply foldl_apply_strategy_len].
    apply sublist_length, drop_duplicate_rows_sublist. }
  split; [apply drop_duplicate_rows_distinct|].
  intros Hwf. split; [by apply drop_duplicates_wf, foldl_apply_strategy_wf|].
  intros col. etrans; [apply isnull_sum_sublist, drop_duplicates_series|].
  by apply foldl_apply_strategy_isnull_sum.
Qed.

Lemma cleaning_shape_witness :
  let out := {| columns := [("Region", Object); ("Sales", Numeric)];
                rows := [ [Str "North"; Num 10]; [Str "South"; NaN];
                          [Str "East"; NaN] ] |} in
  column_names out = column_names gaps_table
  ∧ (len out ≤ len gaps_table)%nat
  ∧ distinct_rows (rows out)
  ∧ (wf_table gaps_table →
     wf_table out
     ∧ ∀ col, (isnull_sum (series out col) ≤ isnull_sum (series gaps_table col))%nat).
Proof.
  apply (cleaning_shape (np := textbook) gaps_table (Some auto_sales)). by_computing.
Defined.

(** A strategy whose entries remove the missing cells of every column that
    has some leaves none in the table. *)
Lemma cleaning_removes_all {np : Numerics} df s :
  wf_table df →
  (∀ col, col ∈ column_names df → StrategyFacts.has_nan df col = true →
          ∃ e, s !! col = Some e ∧ removes_missing e) →
  DataQualityAssessment.total_nan
    (drop_duplicates (apply_all (analyze_nan_values np df) s df)) = 0%nat.
Proof.
  intros Hwf Hs.
  apply sum_list_zero, Forall_fmap, Forall_forall. intros col Hcol. simpl.
  change (column_names (drop_duplicates ?d)) with (column_names d) in Hcol.
  unfold apply_all in *. rewrite foldl_apply_strategy_names in Hcol.
  pose proof (isnull_sum_sublist _ _
    (drop_duplicates_series
       (foldl (apply_strategy (analyze_nan_values np df) s) df (column_names df))
       col)) as Hle.
  assert (isnull_sum (series (foldl (apply_strategy (analyze_nan_values np df) s)
                                df (column_names df)) col) = 0%nat) as H0; [|lia].
  destruct (StrategyFacts.has_nan df col) eqn:En.
  - destruct (Hs col Hcol En) as (e & He & Hr).
    eapply foldl_apply_strategy_removes; [done..|by left].
  - pose proof (foldl_apply_strategy_isnull_sum (analyze_nan_values np df) s
                  (column_names df) df col Hwf) as Hle'.
    unfold StrategyFacts.has_nan in En. apply Nat.ltb_ge in En. lia.
Qed.

(** Dropping the rows with a missing cell of a column all of whose cells
    are missing leaves no row. *)
Lemma apply_strategy_series_other a s cur c col :
  c ≠ col → series (apply_strategy a s cur c) col `sublist_of` series cur col.
Proof.
  intros Hne. unfold apply_strategy.
  destruct (s !! c) as [e'|]; [|done].
  destruct (String.eqb _ "fill"); [by rewrite fillna_series_other|].
  destruct (String.eqb _ "drop"); [apply dropna_subset_series|].
  by destruct (String.eqb _ "keep").
Qed.

Lemma foldl_drop_empties a s col e cols cur :
  s !! col = Some e → method e = Some "drop" →
  col ∈ column_names cur →
  Forall (λ c, isnull c = true) (series cur col) →
  col ∈ cols →
  len (foldl (apply_strategy a s) cur cols) = 0%nat.
Proof.
  intros Hs Hm. revert cur.
  induction cols as [|c l IH]; intros cur Hcol Hall Hin.
  { by apply elem_of_nil in Hin. }
  simpl. destruct (decide (c = col)) as [->|Hne].
  - pose proof (foldl_apply_strategy_len a s l (apply_strategy a s cur col)) as Hle.
    assert (len (apply_strategy a s cur col) = 0%nat) as H0; [|lia].
    rewrite <- (series_length_column _ col)
      by (by rewrite apply_strategy_names).
    unfold apply_strategy. rewrite Hs, Hm. simpl.
    rewrite dropna_subset_series_same. unfold dropna.
    clear -Hall. induction Hall as [|x xs Hx _ IHx]; [done|].
    rewrite filter_cons, decide_False; [done|]. by rewrite Hx.
  - apply IH.
    + by rewrite apply_strategy_names.
    + eapply Forall_sublist_of; [exact Hall|].
      by apply apply_strategy_series_other.
    + apply elem_of_cons in Hin as [->|Hin]; done.
Qed.

End CleaningInvariants.

(** ** What the NaN analysis reports *)

Module NanAnalysisFacts.
Import FlexibleDataProcessor StrategyFacts.

Lemma analyze_column_total_nan_cells {np : Numerics} df acc cols :
  total_nan_cells (foldl (analyze_column np df) acc cols)
  = (total_nan_cells acc + sum_list ((λ c, isnull_sum (series df c)) <$> cols))%nat.
Proof.
  revert acc. induction cols as [|c l IH]; intros acc; csimpl; [lia|].
  rewrite IH. unfold analyze_column.
  destruct (0 <? isnull_sum (series df c))%nat eqn:E; cbn [total_nan_cells]; [lia|].
  apply Nat.ltb_ge in E. lia.
Qed.

Lemma analyze_column_total_rows {np : Numerics} df acc cols :
  total_rows (foldl (analyze_column np df) acc cols) = total_rows acc.
Proof.
  revert acc. induction cols as [|c l IH]; intros acc; [done|].
  simpl. rewrite IH. unfold analyze_column. by destruct (0 <? _)%nat.
Qed.

Lemma sum_list_elem (l : list nat) n : n ∈ l → (n ≤ sum_list l)%nat.
Proof.
  induction l as [|m l IH]; [by intros ?%elem_of_nil|].
  intros [->|H]%elem_of_cons; simpl; [lia|]. specialize (IH H). lia.
Qed.

Lemma total_nan_positive df :
  (0 < DataQualityAssessment.total_nan df)%nat
  ↔ ∃ col, col ∈ column_names df ∧ has_nan df col = true.
Proof.
  unfold DataQualityAssessment.total_nan, has_nan. split.
  - intros Hpos.
    destruct (decide (Exists (λ c, 0 < isnull_sum (series df c))%nat
                             (column_names df))) as [He|Hn].
    + apply Exists_exists in He as (c & Hc & H). exists c.
      split; [done|]. by apply Nat.ltb_lt.
    + apply not_Exists_Forall in Hn; [|apply _]. exfalso.
      rewrite CleaningInvariants.sum_list_zero in Hpos; [lia|].
      apply Forall_fmap. eapply Forall_impl; [exact Hn|].
      intros c Hc. simpl in *. lia.
  - intros (c & Hc & H%Nat.ltb_lt).
    eapply Nat.lt_le_trans; [exact H|].
    apply sum_list_elem.
    apply (list_elem_of_fmap_2 (λ c, isnull_sum (series df c))), Hc.
Qed.

Lemma columns_with_nan_lookup_any {np : Numerics} df col :
  get_columns_with_nan (analyze_nan_values np df) !! col
  = if bool_decide (col ∈ column_names df) && has_nan df col
    then Some (nan_info np df col) else None.
Proof.
  case_bool_decide as Hc; [by apply columns_with_nan_lookup|]. simpl.
  unfold analyze_nan_values, analyze_nan_values_body.
  destruct (_ =? 0)%nat; [done|]. simpl.
  rewrite analyze_column_columns_with_nan, lookup_foldl_insert.
  by rewrite bool_decide_eq_false_2 by done.
Qed.

Lemma recommendations_lookup_any {np : Numerics} df col :
  get_recommendations (analyze_nan_values np df) !! col
  = if bool_decide (col ∈ column_names df) && has_nan df col
    then Some (recommend (dtype_of df col) (series df col)) else None.
Proof.
  case_bool_decide as Hc; [by apply recommendations_lookup|]. simpl.
  unfold analyze_nan_values, analyze_nan_values_body.
  destruct (_ =? 0)%nat; [done|]. simpl.
  rewrite analyze_column_recommendations, lookup_foldl_insert.
  by rewrite bool_decide_eq_false_2 by done.
Qed.

Lemma has_nan_data_positive {np : Numerics} df :
  NaNHandlingFrame.has_nan_data (analyze_nan_values np df) = true
  ↔ (0 < DataQualityAssessment.total_nan df)%nat.
Proof.
  unfold NaNHandlingFrame.has_nan_data.
  rewrite bool_decide_eq_true, total_nan_positive. split.
  - intros (col & i & Hi)%map_choose.
    rewrite columns_with_nan_lookup_any in Hi. exists col.
    case_bool_decide; [|done]. by destruct (has_nan df col).
  - intros (col & Hc & Hn) Hempty.
    pose proof (columns_with_nan_lookup_any df col) as Hl.
    rewrite Hempty, lookup_empty, bool_decide_eq_true_2, Hn in Hl by done.
    done.
Qed.

Lemma isnull_sum_series_le df col : (isnull_sum (series df col) ≤ len df)%nat.
Proof.
  unfold isnull_sum. etrans; [apply length_filter|].
  unfold series. destruct (col_index df col); [by rewrite length_fmap|simpl; lia].
Qed.

(** A recorded percentage is a whole number of hundredths, within 0.005 of
    the exact share [a / b * 100]. *)
Definition records_share (p : Q) (a b : nat) : Prop :=
  (∃ k : Z, (p == k # 100)%Q)
  ∧ (Qabs (p - Qnat a / Qnat b * 100) <= 1 # 200)%Q.

Lemma round_percentage_records {np : Numerics} a b :
  (0 < b)%nat → records_share (round_percentage np a b) a b.
Proof.
  intros Hb. split; [apply round_percentage_hundredths|].
  destruct (round_percentage_nearest np a b Hb) as [Hup Hdown].
  apply Qabs_Qle_condition. split; lra.
Qed.

(** X6.  For a table with at least one cell the NaN analysis is produced
    and its figures are those of the table: the row and cell counts, the
    number of missing cells, an entry for exactly the columns that have a
    missing cell, a recommendation for exactly those columns, and the
    dataset percentage that the quality report shows as well; the panel
    reports NaN data exactly when a cell is missing.  An entry holds the
    number of missing cells of its column and their share of the rows; a
    share, of a column or of the dataset, is recorded as a whole number of
    hundredths between 0 and 100, within 0.005 of the exact percentage. *)
Theorem nan_analysis_totals {np : Numerics} (df : DataFrame) :
  size df ≠ 0%nat →
  ∃ a, analyze_nan_values np df = Analysis a
       ∧ total_rows a = len df
       ∧ total_cells a = size df
       ∧ total_nan_cells a = DataQualityAssessment.total_nan df
       ∧ nan_percentage a
         = DataQualityAssessment.nan_percentage
             (DataQualityAssessment.assess_data_quality np df)
       ∧ records_share (nan_percentage a) (total_nan_cells a) (total_cells a)
       ∧ (∀ col, is_Some (columns_with_nan a !! col)
                 ↔ col ∈ column_names df ∧ has_nan df col = true)
       ∧ (∀ col i, columns_with_nan a !! col = Some i →
                   count i = isnull_sum (series df col)
                   ∧ (0 < count i ≤ len df)%nat
                   ∧ dtype_ i = dtype_of df col
                   ∧ records_share (percentage i) (count i) (len df)
                   ∧ (0 <= percentage i)%Q ∧ (percentage i <= 100)%Q)
       ∧ (∀ col, is_Some (recommendations a !! col)
                 ↔ is_Some (columns_with_nan a !! col))
       ∧ (NaNHandlingFrame.has_nan_data (Analysis a) = true
          ↔ (0 < DataQualityAssessment.total_nan df)%nat).
Proof.
  intros Hsize. unfold analyze_nan_values, analyze_nan_values_body.
  rewrite analyze_column_total_cells. cbn [total_cells].
  apply Nat.eqb_neq in Hsize as Hs. rewrite Hs.
  eexists. split; [done|]. cbn [total_rows total_cells total_nan_cells
    nan_percentage columns_with_nan recommendations].
  rewrite analyze_column_total_rows, analyze_column_total_nan_cells.
  rewrite analyze_column_columns_with_nan, analyze_column_recommendations.
  cbn [total_rows total_nan_cells columns_with_nan recommendations].
  assert (∀ col, foldl (λ m c, if has_nan df c then <[c:=nan_info np df c]> m else m)
                       (∅ : gmap string NanInfo) (column_names df) !! col
                 = if bool_decide (col ∈ column_names df) && has_nan df col
                   then Some (nan_info np df col) else None) as Hlook.
  { intros col. rewrite lookup_foldl_insert, lookup_empty. done. }
  split; [done|]. split; [done|]. split; [done|].
  split.
  { unfold DataQualityAssessment.assess_data_quality,
      DataQualityAssessment.rounded_percentage. simpl.
    assert ((0 <? size df)%nat = true) as -> by (apply Nat.ltb_lt; lia). done. }
  split; [apply round_percentage_records; lia|].
  split.
  { intros col. rewrite Hlook. case_bool_decide as Hc; simpl.
    - destruct (has_nan df col); split; (done || eauto || by intros [_ ?]).
    - split; [by intros [? ?]|by intros [? _]]. }
  split.
  { intros col i. rewrite Hlook. case_bool_decide as Hc; simpl; [|done].
    destruct (has_nan df col) eqn:En; [|done]. intros [= <-].
    unfold nan_info, recorded_percentage. simpl.
    unfold has_nan in En. apply Nat.ltb_lt in En.
    pose proof (isnull_sum_series_le df col) as Hle.
    split; [done|]. split; [lia|]. split; [done|].
    split; [apply round_percentage_records; lia|].
    apply round_percentage_range; lia. }
  split.
  { intros col. rewrite Hlook, lookup_foldl_insert, lookup_empty.
    destruct (bool_decide _ && has_nan df col); [|done].
    split; eauto. }
  unfold NaNHandlingFrame.has_nan_data. cbn [get_columns_with_nan columns_with_nan].
  rewrite bool_decide_eq_true, total_nan_positive. split.
  - intros (col & i & Hi)%map_choose. rewrite Hlook in Hi. exists col.
    destruct (bool_decide (col ∈ column_names df)) eqn:Ec; [|done].
    apply bool_decide_eq_true_1 in Ec.
    destruct (has_nan df col); [done|]. done.
  - intros (col & Hc & Hn) Hempty.
    specialize (Hlook col). rewrite Hempty, lookup_empty in Hlook.
    rewrite bool_decide_eq_true_2, Hn in Hlook by done. done.
Qed.

Lemma nan_analysis_totals_witness :
  ∃ a, analyze_nan_values textbook scenario_table = Analysis a
       ∧ total_rows a = len scenario_table
       ∧ total_cells a = size scenario_table
       ∧ total_nan_cells a = DataQualityAssessment.total_nan scenario_table
       ∧ nan_percentage a
         = DataQualityAssessment.nan_percentage
             (DataQualityAssessment.assess_data_quality textbook scenario_table)
       ∧ records_share (nan_percentage a) (total_nan_cells a) (total_cells a)
       ∧ (∀ col, is_Some (columns_with_nan a !! col)
                 ↔ col ∈ column_names scenario_table
                   ∧ has_nan scenario_table col = true)
       ∧ (∀ col i, columns_with_nan a !! col = Some i →
                   count i = isnull_sum (series scenario_table col)
                   ∧ (0 < count i ≤ len scenario_table)%nat
                   ∧ dtype_ i = dtype_of scenario_table col
                   ∧ records_share (percentage i) (count i) (len scenario_table)
                   ∧ (0 <= percentage i)%Q ∧ (percentage i <= 100)%Q)
       ∧ (∀ col, is_Some (recommendations a !! col)
                 ↔ is_Some (columns_with_nan a !! col))
       ∧ (NaNHandlingFrame.has_nan_data (Analysis a) = true
          ↔ (0 < DataQualityAssessment.total_nan scenario_table)%nat).
Proof.
  apply (nan_analysis_totals (np := textbook) scenario_table). by_computing.
Defined.

End NanAnalysisFacts.

(** ** The quality report and what the assistant makes of it *)

Module ReportFacts.
Import DataQualityAssessment QualityFacts.

(** *** Outliers: the list of the report and the issues of the columns *)

Definition has_outlier_issue (a : ColumnAnalysis) : bool :=
  existsb (λ i, String.eqb (type_ i) "outliers") (issues a).

Lemma missing_issues_no_outlier s :
  existsb (λ i, String.eqb (type_ i) "outliers") (missing_issues s) = false.
Proof.
  unfold missing_issues.
  destruct (Qgtb _ 50); [done|]. destruct (Qgtb _ 20); [done|].
  by destruct (Qgtb _ 0).
Qed.

Lemma has_outlier_issue_analyze {np : Numerics} d s :
  has_outlier_issue (_analyze_column np d s)
  = is_numeric_dtype d
    && negb (bool_decide (outlier_values (numbers s) = [])).
Proof.
  unfold has_outlier_issue, _analyze_column. cbn [issues].
  rewrite existsb_app, missing_issues_no_outlier, orb_false_r.
  unfold outlier_issues. destruct (is_numeric_dtype d); [|done]. simpl.
  pose proof (length_filter (λ v, outside (fences (numbers s)) v = true) (numbers s)) as Hle.
  fold (outlier_values (numbers s)) in Hle.
  destruct (outlier_values (numbers s)) as [|o l] eqn:E.
  - by rewrite andb_false_r.
  - simpl in Hle. assert ((0 <? length (numbers s))%nat = true) as ->
      by (apply Nat.ltb_lt; lia).
    done.
Qed.

(** X7.  The columns listed under [outliers] in the report are exactly, and
    in the same order, the columns whose analysis carries an issue of type
    [outliers]; each is listed with between one and five values. *)
Theorem outliers_agree {np : Numerics} (df : DataFrame) :
  (_detect_outliers df).*1
  = (filter (λ ca, has_outlier_issue ca.2 = true) (analyze_columns np df)).*1
  ∧ Forall (λ o, (1 ≤ length o.2 ≤ 5)%nat) (_detect_outliers df).
Proof.
  unfold _detect_outliers, analyze_columns. split.
  - induction (columns df) as [|[c d] l IH]; [done|].
    csimpl. rewrite filter_cons. cbn [snd fst].
    rewrite has_outlier_issue_analyze.
    destruct (is_numeric_dtype d); simpl; [|exact IH].
    destruct (outlier_values _) as [|o os]; simpl; [exact IH|].
    f_equal. exact IH.
  - apply Forall_forall. intros [c vs] (cd & _ & H)%list_elem_of_omap.
    destruct (is_numeric_dtype cd.2); [|done].
    destruct (outlier_values _) as [|o os]; [done|].
    injection H as _ <-. simpl. rewrite length_take. lia.
Qed.

(** *** The score falls with the missing percentage and with the issues *)

Lemma Qle_bool_false (a b : Q) : Qle_bool a b = false → (b < a)%Q.
Proof. intros E. apply Qltb_lt. unfold Qltb. by rewrite E. Qed.

(** Splits on every comparison of the goal and leaves linear arithmetic. *)
Ltac no_comparison t :=
  lazymatch t with
  | context [Qle_bool _ _] => fail
  | context [Qgtb _ _] => fail
  | _ => idtac
  end.

Ltac split_comparisons :=
  repeat match goal with
  | |- context [Qle_bool ?a ?b] =>
      no_comparison a; no_comparison b;
      let E := fresh "E" in
      destruct (Qle_bool a b) eqn:E;
      [apply Qle_bool_iff in E|apply Qle_bool_false in E]
  | |- context [Qgtb ?a ?b] =>
      no_comparison a; no_comparison b;
      let E := fresh "E" in
      destruct (Qgtb a b) eqn:E; [apply Qgtb_gt in E|apply Qgtb_le in E]
  end.

Lemma clamp01_mono (x y : Q) : (x <= y)%Q → (clamp01 x <= clamp01 y)%Q.
Proof.
  intros H. unfold clamp01, Qmax', Qmin'. split_comparisons; lra.
Qed.

Lemma missing_penalty_mono (p p' : Q) :
  (p <= p')%Q → (missing_penalty p <= missing_penalty p')%Q.
Proof.
  intros H. unfold missing_penalty. split_comparisons; lra.
Qed.

Lemma Qnat_mono (n m : nat) : (n ≤ m)%nat → (Qnat n <= Qnat m)%Q.
Proof. intros H. unfold Qnat. rewrite <- Zle_Qle. lia. Qed.

Lemma count_severity_sublist sev l l' :
  l `sublist_of` l' → (count_severity sev l ≤ count_severity sev l')%nat.
Proof.
  intros H. unfold count_severity. apply sublist_length.
  induction H as [|i l1 l2 _ IH|i l1 l2 _ IH]; [done|..].
  - rewrite !filter_cons. destruct (decide _); [by constructor|done].
  - rewrite filter_cons. destruct (decide _); [by constructor|done].
Qed.

(** X8.  The quality score never rises when the missing percentage rises
    or when issues are added to the list. *)
Theorem quality_score_monotone (p p' : Q) (l l' : list Issue) (df : DataFrame) :
  (p <= p')%Q → l `sublist_of` l' →
  (_calculate_quality_score p' l' df <= _calculate_quality_score p l df)%Q.
Proof.
  intros Hp Hl. rewrite !calculate_quality_score_formula.
  unfold score_formula. apply clamp01_mono.
  pose proof (missing_penalty_mono p p' Hp).
  pose proof (Qnat_mono _ _ (count_severity_sublist "critical" l l' Hl)).
  pose proof (Qnat_mono _ _ (count_severity_sublist "medium" l l' Hl)).
  lra.
Qed.

Lemma quality_score_monotone_witness :
  (_calculate_quality_score 30 [missing_issue "medium_missing" "medium" 30] flat_table
   <= _calculate_quality_score 10 [] flat_table)%Q.
Proof.
  apply (quality_score_monotone 10 30 []
           [missing_issue "medium_missing" "medium" 30] flat_table).
  - by_computing.
  - apply sublist_nil_l.
Defined.

(** *** A table with more than half of its cells missing *)

Lemma Qnat_pos (b : nat) : (0 < b)%nat → (0 < Qnat b)%Q.
Proof.
  intros H. unfold Qnat. change 0%Q with (inject_Z 0).
  rewrite <- Zlt_Qlt. lia.
Qed.

Lemma Qnat_double (a : nat) : (Qnat (2 * a) == 2 * Qnat a)%Q.
Proof.
  unfold Qnat. rewrite Nat2Z.inj_mul, inject_Z_mult. reflexivity.
Qed.

Lemma Qnat_succ (a : nat) : (Qnat (S a) == Qnat a + 1)%Q.
Proof.
  unfold Qnat. rewrite Nat2Z.inj_succ. unfold Z.succ.
  rewrite inject_Z_plus. reflexivity.
Qed.

Lemma Qnat_pct_gt (a b : nat) :
  (0 < b)%nat → (50 < Qnat a / Qnat b * 100)%Q ↔ (b < 2 * a)%nat.
Proof.
  intros Hb. pose proof (Qnat_pos b Hb) as Hq.
  assert (Qnat a / Qnat b * 100 == Qnat a * 100 / Qnat b)%Q as ->
    by (field; lra).
  split.
  - intros H. destruct (decide (b < 2 * a)%nat) as [|Hn]; [done|]. exfalso.
    assert (2 * a ≤ b)%nat as Hle%Qnat_mono by lia.
    rewrite Qnat_double in Hle.
    assert (Qnat a * 100 / Qnat b <= 50)%Q; [|lra].
    apply Qle_shift_div_r; [done|lra].
  - intros H. assert (S b ≤ 2 * a)%nat as Hle%Qnat_mono by lia.
    rewrite Qnat_double, Qnat_succ in Hle.
    apply Qlt_shift_div_l; [done|lra].
Qed.

Lemma sum_list_half (f : string → nat) (n : nat) (l : list string) :
  Forall (λ c, (2 * f c ≤ n)%nat) l →
  (2 * sum_list (f <$> l) ≤ n * length l)%nat.
Proof. induction 1 as [|c l Hc _ IH]; csimpl; lia. Qed.

(** When more than half of all cells are missing, some column misses more
    than half of its cells. *)
Lemma mostly_missing_column df :
  (50 < nan_percentage_of df)%Q →
  ∃ c, c ∈ columns df ∧ (50 < null_pct (series df c.1))%Q.
Proof.
  unfold nan_percentage_of. destruct (0 <? size df)%nat eqn:Es; [|lra].
  apply Nat.ltb_lt in Es. intros H%Qnat_pct_gt; [|done].
  assert (0 < len df)%nat as Hlen by (unfold size in Es; lia).
  destruct (decide (Exists (λ c, len df < 2 * isnull_sum (series df c))%nat
                           (column_names df))) as [He|Hn].
  - apply Exists_exists in He as (c & Hc & Hlt).
    pose proof Hc as ([c' d] & -> & Hcd)%list_elem_of_fmap.
    exists (c', d). split; [done|]. simpl in *.
    unfold null_pct. rewrite (CleaningInvariants.series_length_column df c' Hc).
    apply Nat.ltb_lt in Hlen as Hlen'. rewrite Hlen'.
    by apply Qnat_pct_gt.
  - exfalso. apply not_Exists_Forall in Hn; [|apply _].
    pose proof (sum_list_half (λ c, isnull_sum (series df c)) (len df)
                  (column_names df)) as Hs.
    unfold total_nan, size, column_names in *. rewrite length_fmap in Hs.
    assert (2 * sum_list ((λ c, isnull_sum (series df c)) <$> (columns df).*1)
            ≤ len df * length (columns df))%nat; [|lia].
    apply Hs. eapply Forall_impl; [exact Hn|]. intros c Hc. simpl in *. lia.
Qed.

Lemma count_severity_mjoin sev (ls : list (list Issue)) l :
  l ∈ ls → (count_severity sev l ≤ count_severity sev (mjoin ls))%nat.
Proof.
  induction ls as [|l' ls IH]; [by intros ?%elem_of_nil|].
  simpl. rewrite count_severity_app.
  intros [->|H]%elem_of_cons; [lia|]. specialize (IH H). lia.
Qed.

Lemma critical_issue_counted {np : Numerics} df :
  (50 < nan_percentage_of df)%Q →
  (1 ≤ count_severity "critical" (overall_issues_of np df))%nat.
Proof.
  intros ([c d] & Hcd & Hp)%mostly_missing_column. simpl in Hp.
  etrans; [|apply (count_severity_mjoin _ _
                     (issues (_analyze_column np d (series df c))))].
  - unfold _analyze_column. cbn [issues]. rewrite count_severity_app.
    unfold missing_issues. apply Qgtb_gt in Hp. rewrite Hp.
    unfold count_severity at 2. simpl. lia.
  - unfold overall_issues_of, analyze_columns.
    rewrite <- list_fmap_compose.
    by apply (list_elem_of_fmap_2' _ _ (c, d)).
Qed.

Lemma size_bonus_range df : (0 <= size_bonus df)%Q ∧ (size_bonus df <= 1 # 10)%Q.
Proof.
  unfold size_bonus.
  destruct (1000 <? len df)%nat; destruct (5 <? length (columns df))%nat; lra.
Qed.

Definition review_data_source : Recommendation :=
  {| priority := "critical"; action := "review_data_source"; confidence := 9 # 10 |}.

(** X9.  A table with more than half of its cells missing has a column
    that misses more than half of its cells, hence a critical issue: its
    quality score is at most 0.4, the suggested strategy is
    [major_cleaning] without automatic proceeding, the first recommendation
    is to review the data source, and the dialog offers only the button
    that asks for confirmation. *)
Theorem mostly_missing_major_cleaning {np : Numerics} (df : DataFrame) :
  (50 < nan_percentage_of df)%Q →
  let r := assess_data_quality np df in
  let s := FlexibleExcelProcessor._suggest_strategy r in
  (quality_score r <= 4 # 10)%Q
  ∧ FlexibleExcelProcessor.strategy s = "major_cleaning"
  ∧ FlexibleExcelProcessor.auto_proceed s = false
  ∧ head (recommendations r) = Some review_data_source
  ∧ IntelligentAnalysisDialog._create_action_buttons r
    = IntelligentAnalysisDialog.WarningButton.
Proof.
  intros Hp r s.
  assert (quality_score r <= 4 # 10)%Q as Hscore.
  { unfold r, assess_data_quality. cbn [quality_score].
    rewrite calculate_quality_score_formula. unfold score_formula.
    pose proof (critical_issue_counted df Hp) as Hc%Qnat_mono.
    pose proof (Qnat_mono 0 (count_severity "medium" (overall_issues_of np df))
                  ltac:(lia)) as Hm.
    pose proof (size_bonus_range df) as [_ Hb].
    unfold missing_penalty. apply Qgtb_gt in Hp as Hp'. rewrite Hp'.
    change (Qnat 1) with 1%Q in Hc. change (Qnat 0) with 0%Q in Hm.
    unfold clamp01, Qmax', Qmin'. split_comparisons; lra. }
  assert (∀ c, (4 # 10 <= c)%Q → Qgtb (quality_score r) c = false) as Hc.
  { intros c Hle. apply Qgtb_le. lra. }
  split; [done|].
  unfold s, FlexibleExcelProcessor._suggest_strategy,
    IntelligentAnalysisDialog._create_action_buttons.
  cbn [FlexibleExcelProcessor.strategy FlexibleExcelProcessor.auto_proceed].
  rewrite !Hc by lra.
  split; [done|]. split; [done|]. split; [|done].
  unfold r, assess_data_quality. cbn [recommendations].
  unfold _generate_recommendations. apply Qgtb_gt in Hp. by rewrite Hp.
Qed.

Definition hollow_table : DataFrame :=
  {| columns := [("Region", Object); ("Sales", Numeric)];
     rows := [ [NaN; NaN]; [Str "A"; NaN]; [NaN; Num 1] ] |}.

Lemma mostly_missing_major_cleaning_witness :
  let r := assess_data_quality textbook hollow_table in
  let s := FlexibleExcelProcessor._suggest_strategy r in
  (quality_score r <= 4 # 10)%Q
  ∧ FlexibleExcelProcessor.strategy s = "major_cleaning"
  ∧ FlexibleExcelProcessor.auto_proceed s = false
  ∧ head (recommendations r) = Some review_data_source
  ∧ IntelligentAnalysisDialog._create_action_buttons r
    = IntelligentAnalysisDialog.WarningButton.
Proof.
  apply (mostly_missing_major_cleaning (np := textbook) hollow_table). by_computing.
Defined.

(** *** A table without a missing cell and without an outlier *)

Lemma rounded_percentage_zero {np : Numerics} (b : nat) :
  (rounded_percentage np 0 b == 0)%Q.
Proof.
  unfold rounded_percentage. destruct (0 <? b)%nat eqn:E; [|done].
  by apply round_percentage_zero, Nat.ltb_lt.
Qed.

Lemma omap_nil {A B} (f : A → option B) (l : list A) :
  omap f l = [] → Forall (λ x, f x = None) l.
Proof.
  induction l as [|x l IH]; [by constructor|].
  csimpl. destruct (f x) eqn:E; [done|]. intros H. constructor; auto.
Qed.

Lemma no_outliers_no_issue df c :
  _detect_outliers df = [] → c ∈ columns df →
  outlier_issues c.2 (series df c.1) = [].
Proof.
  intros H%omap_nil Hc. rewrite Forall_forall in H. specialize (H c Hc).
  unfold outlier_issues. simpl in H.
  destruct (is_numeric_dtype c.2); [|done].
  destruct (outlier_values _); [|done]. simpl. by rewrite andb_false_r.
Qed.

Lemma mjoin_nil {A} (ls : list (list A)) : Forall (λ l, l = []) ls → mjoin ls = [].
Proof. induction 1 as [|l ls -> _ IH]; [done|]. simpl. exact IH. Qed.

Lemma flawless_no_issues {np : Numerics} df :
  total_nan df = 0%nat → _detect_outliers df = [] → overall_issues_of np df = [].
Proof.
  intros H0 Ho. unfold overall_issues_of, analyze_columns.
  apply mjoin_nil. rewrite <- list_fmap_compose.
  apply Forall_fmap, Forall_forall. intros [c d] Hc. simpl.
  unfold _analyze_column. cbn [issues].
  pose proof (no_outliers_no_issue df (c, d) Ho Hc) as Hn.
  simpl in Hn. rewrite Hn. simpl.
  apply missing_issues_none, (total_nan_0 df c H0).
  by apply (list_elem_of_fmap_2' fst _ (c, d)).
Qed.

(** X10.  For a table without a missing cell and without an outlier the
    report lists no issue and no recommendation, the quality score is 1
    whatever the size of the table, the suggested strategy is
    [proceed_immediately] with automatic proceeding, the dialog offers the
    plain proceed button and its strategy text says that no processing is
    needed. *)
Theorem flawless_table_proceeds {np : Numerics} (df : DataFrame) :
  total_nan df = 0%nat → _detect_outliers df = [] →
  let r := assess_data_quality np df in
  let s := FlexibleExcelProcessor._suggest_strategy r in
  overall_issues r = []
  ∧ recommendations r = []
  ∧ (quality_score r == 1)%Q
  ∧ FlexibleExcelProcessor.strategy s = "proceed_immediately"
  ∧ FlexibleExcelProcessor.auto_proceed s = true
  ∧ IntelligentAnalysisDialog._create_action_buttons r
    = IntelligentAnalysisDialog.ProceedButton
  ∧ IntelligentAnalysisDialog._generate_strategy_text r
    = IntelligentAnalysisDialog.NoProcessingNeeded.
Proof.
  intros H0 Ho r s.
  pose proof (flawless_no_issues df H0 Ho) as Hi.
  pose proof (no_missing_percentage df H0) as Hp.
  assert (∀ c, (0 <= c)%Q → Qgtb (nan_percentage_of df) c = false) as Hc.
  { intros c Hle. apply Qgtb_le. lra. }
  assert (quality_score r == 1)%Q as Hscore.
  { unfold r, assess_data_quality. cbn [quality_score].
    rewrite calculate_quality_score_formula, Hi. unfold score_formula.
    unfold missing_penalty. rewrite !Hc by lra.
    pose proof (size_bonus_range df) as [Hb0 Hb1].
    change (Qnat (count_severity _ [])) with 0%Q.
    unfold clamp01, Qmax', Qmin'. split_comparisons; lra. }
  assert (∀ c, (c < 1)%Q → Qgtb (quality_score r) c = true) as Hs.
  { intros c Hlt. apply Qgtb_gt. lra. }
  split; [done|].
  split.
  { unfold r, assess_data_quality. cbn [recommendations].
    unfold _generate_recommendations. rewrite !Hc by lra. by rewrite Ho. }
  split; [done|].
  unfold s, FlexibleExcelProcessor._suggest_strategy,
    IntelligentAnalysisDialog._create_action_buttons,
    IntelligentAnalysisDialog._generate_strategy_text.
  cbn [FlexibleExcelProcessor.strategy FlexibleExcelProcessor.auto_proceed].
  rewrite !Hs by lra.
  split; [done|]. split; [done|]. split; [done|].
  assert (∀ c, (0 <= c)%Q → Qgtb (nan_percentage r) c = false) as Hr.
  { intros c Hle. apply Qgtb_le. unfold r, assess_data_quality.
    cbn [nan_percentage]. rewrite H0, rounded_percentage_zero. done. }
  by rewrite !Hr by lra.
Qed.

Definition clean_triple : DataFrame :=
  {| columns := [("Region", Object); ("Sales", Numeric)];
     rows := [ [Str "A"; Num 1]; [Str "B"; Num 2]; [Str "C"; Num 3] ] |}.

Lemma flawless_table_proceeds_witness :
  let r := assess_data_quality textbook clean_triple in
  let s := FlexibleExcelProcessor._suggest_strategy r in
  overall_issues r = []
  ∧ recommendations r = []
  ∧ (quality_score r == 1)%Q
  ∧ FlexibleExcelProcessor.strategy s = "proceed_immediately"
  ∧ FlexibleExcelProcessor.auto_proceed s = true
  ∧ IntelligentAnalysisDialog._create_action_buttons r
    = IntelligentAnalysisDialog.ProceedButton
  ∧ IntelligentAnalysisDialog._generate_strategy_text r
    = IntelligentAnalysisDialog.NoProcessingNeeded.
Proof.
  apply (flawless_table_proceeds (np := textbook) clean_triple); by_computing.
Defined.

(** *** A share of missing cells that rounds to zero *)

Lemma rounded_percentage_small {np : Numerics} (df : DataFrame) :
  (0 < nan_percentage_of df)%Q → (nan_percentage_of df < 5 # 1000)%Q →
  (rounded_percentage np (total_nan df) (size df) == 0)%Q.
Proof.
  unfold nan_percentage_of, rounded_percentage.
  destruct (0 <? size df)%nat eqn:E; [|done].
  intros _ H. by apply round_percentage_small; [apply Nat.ltb_lt|].
Qed.

Definition conservative_fill : Recommendation :=
  {| priority := "medium"; action := "conservative_fill"; confidence := 85 # 100 |}.

(** X11.  When the table has missing cells, but less than 0.005 percent
    of its cells, the dataset percentage of the report rounds to 0.0: the
    strategy text of the dialog then says that no processing is needed,
    while the same report counts the missing cells and recommends a
    conservative fill (the recommendations read the percentage before
    rounding). *)
Theorem tiny_missing_share_reads_as_perfect {np : Numerics} (df : DataFrame) :
  (0 < nan_percentage_of df)%Q → (nan_percentage_of df < 5 # 1000)%Q →
  let r := assess_data_quality np df in
  IntelligentAnalysisDialog._generate_strategy_text r
  = IntelligentAnalysisDialog.NoProcessingNeeded
  ∧ (nan_percentage r == 0)%Q
  ∧ (0 < total_nan_cells r)%nat
  ∧ head (recommendations r) = Some conservative_fill.
Proof.
  intros Hp0 Hp1 r.
  assert (nan_percentage r == 0)%Q as Hr.
  { unfold r, assess_data_quality. cbn [nan_percentage].
    by apply rounded_percentage_small. }
  assert (∀ c, (0 <= c)%Q → Qgtb (nan_percentage r) c = false) as Hc.
  { intros c Hle. apply Qgtb_le. lra. }
  split.
  { unfold IntelligentAnalysisDialog._generate_strategy_text.
    by rewrite !Hc by lra. }
  split; [done|].
  split.
  { unfold r, assess_data_quality. cbn [total_nan_cells].
    destruct (total_nan df) eqn:E; [|lia].
    rewrite (no_missing_percentage df E) in Hp0. lra. }
  unfold r, assess_data_quality. cbn [recommendations].
  unfold _generate_recommendations.
  assert (Qgtb (nan_percentage_of df) 50 = false) as -> by (apply Qgtb_le; lra).
  assert (Qgtb (nan_percentage_of df) 20 = false) as -> by (apply Qgtb_le; lra).
  assert (Qgtb (nan_percentage_of df) 0 = true) as -> by (by apply Qgtb_gt).
  done.
Qed.

Definition one_gap : DataFrame :=
  {| columns := [("Sales", Numeric)];
     rows := [NaN] :: replicate (200 * 100 + 1) [Num 1] |}.

Lemma tiny_missing_share_reads_as_perfect_witness :
  let r := assess_data_quality textbook one_gap in
  IntelligentAnalysisDialog._generate_strategy_text r
  = IntelligentAnalysisDialog.NoProcessingNeeded
  ∧ (nan_percentage r == 0)%Q
  ∧ (0 < total_nan_cells r)%nat
  ∧ head (recommendations r) = Some conservative_fill.
Proof.
  apply (tiny_missing_share_reads_as_perfect (np := textbook) one_gap); by_computing.
Defined.

End ReportFacts.

(** ** The processor: cleaning followed by aggregation *)

Module ProcessorFacts.
Import FlexibleDataProcessor FlexibleExcelProcessor.
Import CleaningFacts AggregationFacts CleaningInvariants.

Lemma analyze_with_rows {np : Numerics} to_number df x_col y_col operation :
  wf_table df → has_column df x_col = true → has_column df y_col = true →
  x_col ≠ y_col → len df ≠ 0%nat →
  ∃ result, analyze_data_flexible np to_number df x_col y_col operation = Ok result
            ∧ result ≠ [].
Proof.
  intros Hwf Hx Hy Hne Hrows.
  rewrite (analyze_data_flexible_groups _ _ _ _ _ Hwf Hx Hy Hne).
  destruct (sort_values np _) as [|r l] eqn:Es; [|by eauto].
  exfalso. apply (proj1 (sort_values_nil _)) in Es.
  unfold aggregate_groups in Es. apply fmap_nil_inv in Es.
  revert Es. apply group_keys_nonempty.
  - by apply fill_cell_no_missing.
  - unfold category_cells. intros Hnil%fmap_nil_inv.
    destruct (has_column_index df x_col Hx) as (i & Hi & _).
    apply (series_length df x_col i) in Hi. rewrite Hnil in Hi. done.
Qed.

Lemma analyze_without_rows {np : Numerics} to_number df x_col y_col operation :
  wf_table df → has_column df x_col = true → has_column df y_col = true →
  x_col ≠ y_col → len df = 0%nat →
  analyze_data_flexible np to_number df x_col y_col operation = Err empty_result.
Proof.
  intros Hwf Hx Hy Hne H0.
  rewrite (analyze_data_flexible_groups _ _ _ _ _ Hwf Hx Hy Hne).
  rewrite (series_no_rows df x_col H0).
  unfold aggregate_groups, category_cells. rewrite fmap_nil, group_keys_nil.
  by rewrite (proj2 (sort_values_nil [])).
Qed.

Lemma has_column_names d1 d2 col :
  column_names d1 = column_names d2 → has_column d1 col = has_column d2 col.
Proof. unfold has_column. by intros ->. Qed.

Lemma truthy_false_clean {np : Numerics} raw custom_strategy :
  truthy custom_strategy = false →
  (if truthy custom_strategy
   then clean_data_with_strategy np raw custom_strategy
   else clean_data np raw) = clean_data np raw.
Proof. by intros ->. Qed.

(** X12.  With no strategy, or with the empty one, processing a loaded,
    non-empty table on two distinct columns of it succeeds: the cleaned
    table has no missing cell left, the result has at least one row, and
    the processor holds both afterwards and is ready for charting. *)
Theorem default_processing_succeeds {np : Numerics} (to_number : string → option Q)
    (p : Processor) (raw : DataFrame) (x_col y_col operation : string)
    (custom_strategy : option (gmap string StrategyEntry)) :
  raw_data p = Some raw → wf_table raw → empty raw = false →
  has_column raw x_col = true → has_column raw y_col = true → x_col ≠ y_col →
  truthy custom_strategy = false →
  ∃ d r,
    process_data np to_number p x_col y_col operation custom_strategy
    = (Ok r, {| raw_data := Some raw; processed_data := Some d;
                analyzed_data := Some r |})
    ∧ clean_data np raw = Ok d
    ∧ DataQualityAssessment.total_nan d = 0%nat
    ∧ r ≠ []
    ∧ is_ready_for_charting
        (process_data np to_number p x_col y_col operation custom_strategy).2 = true.
Proof.
  intros Hraw Hwf Hne Hx Hy Hxy Ht.
  destruct (default_cleaning_result raw Hwf Hne)
    as (Hc & Hwf' & Hn & He & _ & H0 & _).
  apply empty_false in He as [Hrows _].
  rewrite <- (has_column_names _ _ x_col Hn) in Hx.
  rewrite <- (has_column_names _ _ y_col Hn) in Hy.
  destruct (analyze_with_rows to_number _ x_col y_col operation Hwf' Hx Hy Hxy Hrows)
    as (r & Hr & Hnil).
  unfold process_data. rewrite Hraw, Ht, Hc, Hr.
  eexists _, r. cbn [raw_data processed_data analyzed_data snd]. done.
Qed.

Definition loaded (raw : DataFrame) : Processor :=
  {| raw_data := Some raw; processed_data := None; analyzed_data := None |}.

Lemma default_processing_succeeds_witness :
  ∃ d r,
    process_data textbook parse_float (loaded gaps_table) "Region" "Sales" "sum" (Some ∅)
    = (Ok r, {| raw_data := Some gaps_table; processed_data := Some d;
                analyzed_data := Some r |})
    ∧ clean_data textbook gaps_table = Ok d
    ∧ DataQualityAssessment.total_nan d = 0%nat
    ∧ r ≠ []
    ∧ is_ready_for_charting
        (process_data textbook parse_float (loaded gaps_table) "Region" "Sales" "sum"
           (Some ∅)).2 = true.
Proof.
  apply (default_processing_succeeds (np := textbook) parse_float (loaded gaps_table) gaps_table
           "Region" "Sales" "sum" (Some ∅)); try by_computing.
  repeat constructor.
Defined.

(** X13.  A [drop] entry for a column all of whose cells are missing
    removes every row: cleaning returns a table without rows, the
    aggregation fails on it, and what reaches the caller is the processor's
    error around the empty-result error; the processor then holds the
    emptied table and the result of the run before. *)
Theorem drop_on_empty_column {np : Numerics} (to_number : string → option Q)
    (p : Processor) (raw : DataFrame) (x_col y_col operation : string)
    (nan_strategy : gmap string StrategyEntry) (col : string) (e : StrategyEntry) :
  raw_data p = Some raw → wf_table raw → empty raw = false →
  has_column raw x_col = true → has_column raw y_col = true → x_col ≠ y_col →
  nan_strategy !! col = Some e → method e = Some "drop" →
  has_column raw col = true →
  Forall (λ c, isnull c = true) (series raw col) →
  ∃ d,
    process_data np to_number p x_col y_col operation (Some nan_strategy)
    = (Err (ExcelProcessorError (Raised empty_result)),
       {| raw_data := Some raw; processed_data := Some d;
          analyzed_data := analyzed_data p |})
    ∧ clean_data_with_strategy np raw (Some nan_strategy) = Ok d
    ∧ len d = 0%nat.
Proof.
  intros Hraw Hwf Hne Hx Hy Hxy Hs Hm Hcol%bool_decide_eq_true_1 Hall.
  pose proof (clean_nonempty raw (Some nan_strategy) Hne) as Hc.
  set (d := drop_duplicates _) in Hc.
  assert (len d = 0%nat) as H0.
  { pose proof (sublist_length _ _
      (drop_duplicate_rows_sublist
         (rows (apply_all (analyze_nan_values np raw) nan_strategy raw)))) as Hle.
    unfold apply_all in Hle.
    pose proof (foldl_drop_empties (analyze_nan_values np raw) nan_strategy col e
                  (column_names raw) raw Hs Hm Hcol Hall Hcol) as Hz.
    unfold len in *. subst d. simpl. unfold apply_all. lia. }
  assert (column_names d = column_names raw) as Hn
    by apply foldl_apply_strategy_names.
  assert (wf_table d) as Hwf'
    by (by apply drop_duplicates_wf, foldl_apply_strategy_wf).
  rewrite <- (has_column_names _ _ x_col Hn) in Hx.
  rewrite <- (has_column_names _ _ y_col Hn) in Hy.
  pose proof (analyze_without_rows to_number d x_col y_col operation
                Hwf' Hx Hy Hxy H0) as Ha.
  exists d. unfold process_data. rewrite Hraw.
  assert (truthy (Some nan_strategy) = true) as ->.
  { simpl. apply bool_decide_eq_true_2. intros ->. by rewrite lookup_empty in Hs. }
  rewrite Hc, Ha. cbn [raw_data processed_data analyzed_data]. done.
Qed.

Definition empty_notes : DataFrame :=
  {| columns := [("Region", Object); ("Sales", Numeric); ("Notes", Object)];
     rows := [ [Str "North"; Num 10; NaN]; [Str "South"; Num 20; NaN] ] |}.

Definition drop_notes : gmap string StrategyEntry :=
  {[ "Notes" := method_only "drop" ]}.

Lemma drop_on_empty_column_witness :
  ∃ d,
    process_data textbook parse_float (loaded empty_notes) "Region" "Sales" "sum"
      (Some drop_notes)
    = (Err (ExcelProcessorError (Raised empty_result)),
       {| raw_data := Some empty_notes; processed_data := Some d;
          analyzed_data := analyzed_data (loaded empty_notes) |})
    ∧ clean_data_with_strategy textbook empty_notes (Some drop_notes) = Ok d
    ∧ len d = 0%nat.
Proof.
  apply (drop_on_empty_column (np := textbook) parse_float (loaded empty_notes) empty_notes
           "Region" "Sales" "sum" drop_notes "Notes" (method_only "drop"));
    try by_computing; repeat constructor.
Defined.

(** X14.  When one of the two selected columns is no column of the
    loaded, non-empty table, processing fails with the processor's error around the
    validation error, but not before the cleaned table has replaced
    [processed_data]: the processor is left with the new cleaned table next
    to the result of an earlier run, and still answers that it is ready for
    charting if it was. *)
Theorem failed_run_keeps_earlier_result {np : Numerics} (to_number : string → option Q)
    (p : Processor) (raw : DataFrame) (x_col y_col operation : string)
    (custom_strategy : option (gmap string StrategyEntry)) :
  raw_data p = Some raw → empty raw = false →
  has_column raw x_col = false ∨ has_column raw y_col = false →
  ∃ d msg,
    process_data np to_number p x_col y_col operation custom_strategy
    = (Err (ExcelProcessorError
              (Raised (DataProcessingError (DataValidationError msg)))),
       {| raw_data := Some raw; processed_data := Some d;
          analyzed_data := analyzed_data p |})
    ∧ column_names d = column_names raw
    ∧ is_ready_for_charting
        (process_data np to_number p x_col y_col operation custom_strategy).2
      = is_ready_for_charting p.
Proof.
  intros Hraw Hne Hy.
  assert (∃ d, (if truthy custom_strategy
                then clean_data_with_strategy np raw custom_strategy
                else clean_data np raw) = Ok d
               ∧ column_names d = column_names raw) as (d & Hc & Hn).
  { destruct (truthy custom_strategy); unfold clean_data;
      rewrite clean_nonempty by done; eexists; (split; [done|]);
      apply foldl_apply_strategy_names. }
  rewrite <- (has_column_names _ _ x_col Hn),
          <- (has_column_names _ _ y_col Hn) in Hy.
  unfold process_data. rewrite Hraw, Hc.
  unfold analyze_data_flexible, analyze_data_flexible_body,
    DataValidator.validate_column_selection.
  exists d.
  destruct Hy as [-> | ->]; [|destruct (has_column d x_col)]; simpl; by eexists.
Qed.

Definition earlier_run : Processor :=
  {| raw_data := Some gaps_table; processed_data := Some gaps_table;
     analyzed_data := Some [(Str "North", Num 10)] |}.

Lemma failed_run_keeps_earlier_result_witness :
  ∃ d msg,
    process_data textbook parse_float earlier_run "Region" "Profit" "sum" None
    = (Err (ExcelProcessorError
              (Raised (DataProcessingError (DataValidationError msg)))),
       {| raw_data := Some gaps_table; processed_data := Some d;
          analyzed_data := analyzed_data earlier_run |})
    ∧ column_names d = column_names gaps_table
    ∧ is_ready_for_charting
        (process_data textbook parse_float earlier_run "Region" "Profit" "sum" None).2
      = is_ready_for_charting earlier_run.
Proof.
  apply (failed_run_keeps_earlier_result (np := textbook) parse_float earlier_run gaps_table
           "Region" "Profit" "sum" None); [by_computing..|].
  right. by_computing.
Defined.

End ProcessorFacts.

(** ** The buttons of the NaN panel *)

Module PanelButtonFacts.
Import FlexibleDataProcessor NaNHandlingFrame.
Import CleaningFacts AggregationFacts CleaningInvariants StrategyFacts.

Lemma display_analysis_results_lookup a old col :
  get_columns_with_nan a ≠ ∅ →
  _display_analysis_results a old !! col
  = get_columns_with_nan a !! col
    ≫= λ _, Some (_create_column_strategy (get_recommendations a !! col)).
Proof.
  intros Hne. unfold _display_analysis_results.
  rewrite bool_decide_eq_false_2 by done. apply map_lookup_imap.
Qed.

Lemma columns_with_nan_nonempty {np : Numerics} df :
  (0 < DataQualityAssessment.total_nan df)%nat →
  get_columns_with_nan (analyze_nan_values np df) ≠ ∅.
Proof.
  intros H%NanAnalysisFacts.has_nan_data_positive.
  by apply bool_decide_eq_true_1 in H.
Qed.

(** The widgets of a column after [_display_analysis_results]. *)
Lemma fresh_widgets_lookup {np : Numerics} df old col :
  (0 < DataQualityAssessment.total_nan df)%nat →
  _display_analysis_results (analyze_nan_values np df) old !! col
  = if bool_decide (col ∈ column_names df) && has_nan df col
    then Some (_create_column_strategy
                 (Some (recommend (dtype_of df col) (series df col))))
    else None.
Proof.
  intros Hpos.
  rewrite display_analysis_results_lookup by by apply columns_with_nan_nonempty.
  rewrite NanAnalysisFacts.columns_with_nan_lookup_any,
    NanAnalysisFacts.recommendations_lookup_any.
  by destruct (bool_decide _ && has_nan df col).
Qed.

Lemma apply_all_unknown a s df :
  (∀ col e, s !! col = Some e → unknown_method e) → apply_all a s df = df.
Proof.
  intros Hs. unfold apply_all. generalize (column_names df).
  intros cols. induction cols as [|c l IH]; [done|]. simpl.
  destruct (s !! c) as [e|] eqn:E.
  - by rewrite (apply_strategy_unknown _ _ _ _ _ E (Hs c e E)).
  - unfold apply_strategy at 2. by rewrite E.
Qed.

Lemma row_eqb_cell_at r r' i :
  row_eqb r r' = true → cell_eqb (cell_at i r) (cell_at i r') = true.
Proof.
  revert r' i. induction r as [|a r IH]; intros [|b r'] i; simpl; try done.
  intros [Hab Hr]%andb_true_iff. destruct i as [|i]; [done|].
  exact (IH r' i Hr).
Qed.

Lemma drop_duplicates_keeps_missing df :
  (0 < DataQualityAssessment.total_nan df)%nat →
  (0 < DataQualityAssessment.total_nan (drop_duplicates df))%nat.
Proof.
  rewrite !NanAnalysisFacts.total_nan_positive.
  intros (col & Hcol & Hn). exists col. split; [done|].
  unfold has_nan in *. apply Nat.ltb_lt in Hn. apply Nat.ltb_lt.
  unfold series in *.
  rewrite (col_index_same_names (drop_duplicates df) df) by done.
  destruct (col_index df col) as [i|]; [|simpl in Hn; lia].
  unfold isnull_sum in *.
  destruct (filter _ (cell_at i <$> rows df)) as [|c l] eqn:E; [simpl in Hn; lia|].
  assert (c ∈ filter (λ c, isnull c = true) (cell_at i <$> rows df)) as Hc
    by (rewrite E; left).
  apply list_elem_of_filter in Hc as [Hc (r & -> & Hr)%list_elem_of_fmap].
  destruct (drop_duplicate_rows_complete _ _ Hr) as (r' & Hr' & Heq).
  apply (row_eqb_cell_at _ _ i) in Heq.
  assert (cell_at i r' ∈ filter (λ c, isnull c = true)
                           (cell_at i <$> rows (drop_duplicates df))) as Hin.
  { apply list_elem_of_filter. split.
    - by destruct (cell_at i r), (cell_at i r').
    - by apply list_elem_of_fmap_2. }
  destruct (filter _ (cell_at i <$> rows (drop_duplicates df)));
    [by apply elem_of_nil in Hin|simpl; lia].
Qed.

(** What the processor receives when every entry of the panel is the
    same function of its column: no entry is lost. *)
Lemma as_strategy_entries (panel : gmap string PanelEntry)
    (present : string → bool) (pe : string → PanelEntry)
    (se : string → StrategyEntry) :
  (∀ col, panel !! col = if present col then Some (pe col) else None) →
  (∀ col, as_entry (pe col) = Some (se col)) →
  finite_values panel
  ∧ ∀ col, as_strategy panel !! col = if present col then Some (se col) else None.
Proof.
  intros Hpanel Hentry. split.
  - intros col e. rewrite Hpanel. destruct (present col); [|done].
    intros [= <-]. rewrite Hentry. by eexists.
  - intros col. rewrite PanelFacts.as_strategy_lookup, Hpanel.
    destruct (present col); [|done]. simpl. apply Hentry.
Qed.

(** X15.  After the button that sets every column to [auto], the strategy
    the panel reports is not empty, so it is the one handed to the
    processor; with it cleaning fills and drops nothing: the cleaned table
    is the loaded one without its duplicate rows, and it still has missing
    cells. *)
Theorem automatic_choice_fills_nothing {np : Numerics}
    (float : string → option pyfloat) (to_number : string → option Q)
    (p : FlexibleExcelProcessor.Processor) (raw : DataFrame)
    (x_col y_col operation : string) (old : gmap string ColumnWidgets) :
  FlexibleExcelProcessor.raw_data p = Some raw → empty raw = false →
  (0 < DataQualityAssessment.total_nan raw)%nat →
  let a := analyze_nan_values np raw in
  let vars := _apply_auto_strategy (_display_analysis_results a old) in
  let panel := get_nan_strategy float a vars in
  let custom := Some (as_strategy panel) in
  finite_values panel
  ∧ ExcelProcessorGUI.nan_strategy_of custom (has_nan_data a) = custom
  ∧ clean_data_with_strategy np raw custom = Ok (drop_duplicates raw)
  ∧ FlexibleExcelProcessor.processed_data
      (FlexibleExcelProcessor.process_data np to_number p x_col y_col operation
         custom).2
    = Some (drop_duplicates raw)
  ∧ (0 < DataQualityAssessment.total_nan (drop_duplicates raw))%nat.
Proof.
  intros Hraw Hne Hpos a vars panel custom.
  destruct (as_strategy_entries panel
              (λ col, bool_decide (col ∈ column_names raw) && has_nan raw col)
              (λ _, panel_method "auto") (λ _, method_only "auto"))
    as [Hfin Hlook]; [|done|].
  { intros col. unfold panel. rewrite PanelFacts.get_nan_strategy_lookup.
    unfold vars, _apply_auto_strategy. rewrite lookup_fmap.
    unfold a. rewrite fresh_widgets_lookup by done.
    by destruct (bool_decide _ && has_nan raw col). }
  cbv beta in Hlook.
  assert (FlexibleExcelProcessor.truthy custom = true) as Ht.
  { apply bool_decide_eq_true_2. intros Hempty.
    apply NanAnalysisFacts.total_nan_positive in Hpos as (col & Hc & Hn).
    specialize (Hlook col).
    rewrite Hempty, lookup_empty, bool_decide_eq_true_2, Hn in Hlook by done.
    done. }
  assert (clean_data_with_strategy np raw custom = Ok (drop_duplicates raw)) as Hc.
  { unfold custom. rewrite clean_nonempty by done.
    rewrite apply_all_unknown; [done|].
    intros col e. rewrite Hlook.
    destruct (bool_decide _ && has_nan raw col); [|done].
    intros [= <-]. by exists "auto". }
  split; [done|].
  split.
  { unfold ExcelProcessorGUI.nan_strategy_of. rewrite Ht. unfold a.
    by rewrite (proj2 (NanAnalysisFacts.has_nan_data_positive raw) Hpos). }
  split; [done|].
  split; [|by apply drop_duplicates_keeps_missing].
  unfold FlexibleExcelProcessor.process_data. rewrite Hraw, Ht, Hc.
  by destruct (analyze_data_flexible np _ _ _ _ _).
Qed.

Lemma automatic_choice_fills_nothing_witness :
  let a := analyze_nan_values textbook gaps_table in
  let vars := _apply_auto_strategy (_display_analysis_results a ∅) in
  let panel := get_nan_strategy python_float a vars in
  let custom := Some (as_strategy panel) in
  finite_values panel
  ∧ ExcelProcessorGUI.nan_strategy_of custom (has_nan_data a) = custom
  ∧ clean_data_with_strategy textbook gaps_table custom = Ok (drop_duplicates gaps_table)
  ∧ FlexibleExcelProcessor.processed_data
      (FlexibleExcelProcessor.process_data textbook parse_float
         (ProcessorFacts.loaded gaps_table) "Region" "Sales" "sum" custom).2
    = Some (drop_duplicates gaps_table)
  ∧ (0 < DataQualityAssessment.total_nan (drop_duplicates gaps_table))%nat.
Proof.
  apply (automatic_choice_fills_nothing (np := textbook) python_float parse_float
           (ProcessorFacts.loaded gaps_table) gaps_table
           "Region" "Sales" "sum" ∅); by_computing.
Defined.

(** The fill value the two fill buttons lead to. *)
Definition button_fill (d : dtype) : cell :=
  if is_numeric_dtype d then Num 0 else Str "Unknown".

(** X16.  The button that fills with 0 sets the numeric columns of the
    panel and the button that fills with Unknown the other ones: after
    both, the strategy of the panel has for every column with a missing
    cell an entry that fills it, with 0 when the column is numeric and with
    ["Unknown"] otherwise, and no other entry; cleaning with it leaves no
    missing cell. *)
Theorem fill_buttons_cover_every_column {np : Numerics}
    (float : string → option pyfloat)
    (df : DataFrame) (old : gmap string ColumnWidgets) :
  wf_table df → empty df = false →
  (0 < DataQualityAssessment.total_nan df)%nat →
  let a := analyze_nan_values np df in
  let vars :=
    _apply_unknown_strategy a
      (_apply_zero_strategy a (_display_analysis_results a old)) in
  let panel := get_nan_strategy float a vars in
  let s := as_strategy panel in
  finite_values panel
  ∧ (∀ col, s !! col
            = if bool_decide (col ∈ column_names df) && has_nan df col
              then Some (fill_with (button_fill (dtype_of df col))) else None)
  ∧ ∃ out, clean_data_with_strategy np df (Some s) = Ok out
           ∧ DataQualityAssessment.total_nan out = 0%nat.
Proof.
  intros Hwf Hne Hpos a vars panel s.
  destruct (as_strategy_entries panel
              (λ col, bool_decide (col ∈ column_names df) && has_nan df col)
              (λ col, panel_fill (CellValue (button_fill (dtype_of df col))))
              (λ col, fill_with (button_fill (dtype_of df col))))
    as [Hfin Hlook]; [|done|].
  { intros col. unfold panel. rewrite PanelFacts.get_nan_strategy_lookup.
    unfold vars, _apply_unknown_strategy, _apply_zero_strategy.
    rewrite !map_lookup_imap. unfold a.
    rewrite fresh_widgets_lookup by done.
    rewrite NanAnalysisFacts.recommendations_lookup_any.
    destruct (bool_decide _ && has_nan df col); [|done]. simpl.
    unfold recommend, button_fill.
    by destruct (dtype_of df col). }
  cbv beta in Hlook. fold s in Hlook.
  split; [done|]. split; [exact Hlook|].
  rewrite (clean_nonempty df _ Hne). eexists. split; [done|].
  apply cleaning_removes_all; [done|]. intros col Hcol Hn.
  eexists. rewrite Hlook, bool_decide_eq_true_2, Hn by done.
  split; [done|]. right. split; [by left|].
  intros v [= <-]. unfold button_fill. by destruct (is_numeric_dtype _).
Qed.

Lemma fill_buttons_cover_every_column_witness :
  let a := analyze_nan_values textbook gaps_table in
  let vars :=
    _apply_unknown_strategy a
      (_apply_zero_strategy a (_display_analysis_results a ∅)) in
  let panel := get_nan_strategy python_float a vars in
  let s := as_strategy panel in
  finite_values panel
  ∧ (∀ col, s !! col
            = if bool_decide (col ∈ column_names gaps_table) && has_nan gaps_table col
              then Some (fill_with (button_fill (dtype_of gaps_table col))) else None)
  ∧ ∃ out, clean_data_with_strategy textbook gaps_table (Some s) = Ok out
           ∧ DataQualityAssessment.total_nan out = 0%nat.
Proof.
  apply (fill_buttons_cover_every_column (np := textbook) python_float gaps_table ∅);
    try by_computing.
  repeat constructor.
Defined.

Lemma apply_strategy_drop_only a s cur c :
  (∀ col e, s !! col = Some e → method e = Some "drop") →
  columns (apply_strategy a s cur c) = columns cur
  ∧ rows (apply_strategy a s cur c) `sublist_of` rows cur.
Proof.
  intros Hs. unfold apply_strategy.
  destruct (s !! c) as [e|] eqn:E; [|done].
  rewrite (Hs c e E). simpl.
  unfold dropna_subset. destruct (col_index cur c); [|done].
  split; [done|apply sublist_filter].
Qed.

Lemma foldl_apply_strategy_drop_only a s cols cur :
  (∀ col e, s !! col = Some e → method e = Some "drop") →
  columns (foldl (apply_strategy a s) cur cols) = columns cur
  ∧ rows (foldl (apply_strategy a s) cur cols) `sublist_of` rows cur.
Proof.
  intros Hs. revert cur. induction cols as [|c l IH]; intros cur; [done|].
  simpl. destruct (IH (apply_strategy a s cur c)) as [Hc Hr].
  destruct (apply_strategy_drop_only a s cur c Hs) as [Hc' Hr'].
  split; [congruence|by etrans].
Qed.

(** X17.  After the confirmed button that sets every column to [drop], the
    strategy of the panel has a [drop] entry for exactly the columns with a
    missing cell; cleaning with it alters no cell: it keeps the columns
    with their dtypes, every row of the result is a row of the table, in
    the same order, and the result has no missing cell. *)
Theorem drop_button_keeps_complete_rows {np : Numerics}
    (float : string → option pyfloat)
    (df : DataFrame) (old : gmap string ColumnWidgets) :
  wf_table df → empty df = false →
  (0 < DataQualityAssessment.total_nan df)%nat →
  let a := analyze_nan_values np df in
  let vars := _apply_drop_strategy true (_display_analysis_results a old) in
  let panel := get_nan_strategy float a vars in
  let s := as_strategy panel in
  finite_values panel
  ∧ (∀ col, s !! col
            = if bool_decide (col ∈ column_names df) && has_nan df col
              then Some (method_only "drop") else None)
  ∧ ∃ out, clean_data_with_strategy np df (Some s) = Ok out
           ∧ columns out = columns df
           ∧ rows out `sublist_of` rows df
           ∧ DataQualityAssessment.total_nan out = 0%nat.
Proof.
  intros Hwf Hne Hpos a vars panel s.
  destruct (as_strategy_entries panel
              (λ col, bool_decide (col ∈ column_names df) && has_nan df col)
              (λ _, panel_method "drop") (λ _, method_only "drop"))
    as [Hfin Hlook]; [|done|].
  { intros col. unfold panel. rewrite PanelFacts.get_nan_strategy_lookup.
    unfold vars, _apply_drop_strategy. rewrite lookup_fmap.
    unfold a. rewrite fresh_widgets_lookup by done.
    by destruct (bool_decide _ && has_nan df col). }
  cbv beta in Hlook. fold s in Hlook.
  split; [done|]. split; [exact Hlook|].
  rewrite (clean_nonempty df _ Hne). eexists. split; [done|].
  assert (∀ col e, s !! col = Some e → method e = Some "drop") as Hdrop.
  { intros col e. rewrite Hlook.
    destruct (bool_decide _ && has_nan df col); [|done]. by intros [= <-]. }
  destruct (foldl_apply_strategy_drop_only (analyze_nan_values np df) s
              (column_names df) df Hdrop) as [Hc Hr].
  split; [exact Hc|].
  split.
  { etrans; [apply drop_duplicate_rows_sublist|exact Hr]. }
  apply cleaning_removes_all; [done|]. intros col Hcol Hn.
  eexists. rewrite Hlook, bool_decide_eq_true_2, Hn by done.
  split; [done|]. by left.
Qed.

Lemma drop_button_keeps_complete_rows_witness :
  let a := analyze_nan_values textbook gaps_table in
  let vars := _apply_drop_strategy true (_display_analysis_results a ∅) in
  let panel := get_nan_strategy python_float a vars in
  let s := as_strategy panel in
  finite_values panel
  ∧ (∀ col, s !! col
            = if bool_decide (col ∈ column_names gaps_table) && has_nan gaps_table col
              then Some (method_only "drop") else None)
  ∧ ∃ out, clean_data_with_strategy textbook gaps_table (Some s) = Ok out
           ∧ columns out = columns gaps_table
           ∧ rows out `sublist_of` rows gaps_table
           ∧ DataQualityAssessment.total_nan out = 0%nat.
Proof.
  apply (drop_button_keeps_complete_rows (np := textbook) python_float gaps_table ∅);
    try by_computing.
  repeat constructor.
Defined.

End PanelButtonFacts.

(** ** Suggestions and the preview of an analysis *)

Module PreviewFacts.
Import FlexibleDataProcessor FlexibleExcelProcessor.
Import AggregationFacts StrategyFacts.

(** *** The suggested pair of columns *)

Lemma dtype_of_entry df c d :
  NoDup (column_names df) → (c, d) ∈ columns df → dtype_of df c = d.
Proof.
  intros Hnd Hin. unfold dtype_of.
  destruct (list_find (λ c', c'.1 = c) (columns df)) as [[i [n d']]|] eqn:E.
  - apply list_find_Some in E as (Hi & Hn & _). simpl in Hn. subst n.
    apply list_elem_of_lookup_1 in Hin as [j Hj].
    assert (i = j) as ->.
    { apply (NoDup_lookup (column_names df) i j c); [done|..];
        unfold column_names; rewrite list_lookup_fmap.
      - by rewrite Hi.
      - by rewrite Hj. }
    rewrite Hi in Hj. by injection Hj.
  - apply list_find_None in E. rewrite Forall_forall in E.
    by destruct (E (c, d) Hin).
Qed.

Lemma categorical_column_entry df x :
  x ∈ DataValidator.categorical_columns df →
  ∃ d, (x, d) ∈ columns df ∧ is_numeric_dtype d = false.
Proof.
  unfold DataValidator.categorical_columns.
  intros ([c d] & -> & [[Hd _] Hin]%list_elem_of_filter)%list_elem_of_fmap.
  by exists d.
Qed.

Lemma numeric_column_entry df y :
  y ∈ DataValidator.numeric_columns df →
  ∃ d, (y, d) ∈ columns df ∧ is_numeric_dtype d = true.
Proof.
  unfold DataValidator.numeric_columns.
  intros ([c d] & -> & [Hd Hin]%list_elem_of_filter)%list_elem_of_fmap.
  by exists d.
Qed.

Lemma entry_column_name df c d : (c, d) ∈ columns df → c ∈ column_names df.
Proof. intros H. by apply (list_elem_of_fmap_2' fst _ (c, d)). Qed.

Lemma distinct_columns_selected {np : Numerics} to_number df x_col y_col operation :
  x_col ∈ column_names df → y_col ∈ column_names df → x_col ≠ y_col →
  DataValidator.validate_column_selection df x_col y_col = Ok ()
  ∧ (wf_table df → len df ≠ 0%nat →
     ∃ result,
       analyze_data_flexible np to_number df x_col y_col operation = Ok result
       ∧ result ≠ []).
Proof.
  intros Hx%(bool_decide_eq_true_2 _) Hy%(bool_decide_eq_true_2 _) Hne.
  fold (has_column df x_col) in Hx. fold (has_column df y_col) in Hy.
  split.
  - unfold DataValidator.validate_column_selection. by rewrite Hx, Hy.
  - intros Hwf Hrows. by apply ProcessorFacts.analyze_with_rows.
Qed.

(** X18.  On a table with unique column names the pair of columns that
    the structure analysis suggests can be used as it is: the two columns
    are different columns of the table, the column selection is valid, the
    aggregation of a well-formed table with rows succeeds on them, and when
    the pair was taken from the categorical and the numeric columns the
    compatibility check finds no issue and gives the score 0.8. *)
Theorem suggested_pair_is_usable {np : Numerics} (to_number : string → option Q)
    (df : DataFrame) (x_col y_col operation : string) :
  NoDup (column_names df) →
  DataValidator.suggested_columns df = Some (x_col, y_col) →
  x_col ≠ y_col
  ∧ DataValidator.validate_column_selection df x_col y_col = Ok ()
  ∧ (wf_table df → len df ≠ 0%nat →
     ∃ result,
       analyze_data_flexible np to_number df x_col y_col operation = Ok result
       ∧ result ≠ [])
  ∧ (DataValidator.categorical_columns df ≠ [] →
     DataValidator.numeric_columns df ≠ [] →
     _check_column_compatibility df x_col y_col
     = Compatible (8 # 10) true true [] true).
Proof.
  intros Hnd Hs. unfold DataValidator.suggested_columns in Hs.
  assert (∀ x y, x ∈ DataValidator.categorical_columns df →
                 y ∈ DataValidator.numeric_columns df →
                 x ≠ y ∧ x ∈ column_names df ∧ y ∈ column_names df
                 ∧ _check_column_compatibility df x y
                   = Compatible (8 # 10) true true [] true) as Hpair.
  { intros x y (dx & Hx & Hdx)%categorical_column_entry
                (dy & Hy & Hdy)%numeric_column_entry.
    pose proof (dtype_of_entry df x dx Hnd Hx) as Ex.
    pose proof (dtype_of_entry df y dy Hnd Hy) as Ey.
    apply entry_column_name in Hx as Hxn. apply entry_column_name in Hy as Hyn.
    split; [intros ->; congruence|]. split; [done|]. split; [done|].
    unfold _check_column_compatibility, has_column.
    rewrite !bool_decide_eq_true_2 by done. simpl.
    by rewrite Ex, Ey, Hdx, Hdy. }
  destruct (DataValidator.categorical_columns df) as [|x cs] eqn:Ec.
  - assert (∃ c0 c1 l, column_names df = c0 :: c1 :: l
                       ∧ x_col = c0 ∧ y_col = c1) as (c0 & c1 & l & En & -> & ->).
    { destruct (DataValidator.numeric_columns df) as [|n0 ns];
        destruct (column_names df) as [|c0 [|c1 l]]; try done;
        injection Hs as <- <-; by eexists _, _, _. }
    rewrite En in Hnd. apply NoDup_cons in Hnd as [Hn0 _].
    assert (c0 ≠ c1) as Hne by (intros ->; apply Hn0; left).
    split; [done|].
    destruct (distinct_columns_selected to_number df c0 c1 operation)
      as [Hv Ha]; [rewrite En; left|rewrite En; right; left|done|].
    done.
  - destruct (DataValidator.numeric_columns df) as [|y ns] eqn:En.
    + assert (∃ c0 c1 l, column_names df = c0 :: c1 :: l
                         ∧ x_col = c0 ∧ y_col = c1)
        as (c0 & c1 & l & En' & -> & ->).
      { destruct (column_names df) as [|c0 [|c1 l]]; try done;
          injection Hs as <- <-; by eexists _, _, _. }
      rewrite En' in Hnd. apply NoDup_cons in Hnd as [Hn0 _].
      assert (c0 ≠ c1) as Hne by (intros ->; apply Hn0; left).
      split; [done|].
      destruct (distinct_columns_selected to_number df c0 c1 operation)
        as [Hv Ha]; [rewrite En'; left|rewrite En'; right; left|done|].
      done.
    + injection Hs as <- <-.
      destruct (Hpair x y) as (Hne & Hx & Hy & Hcompat); [left..|].
      split; [done|].
      destruct (distinct_columns_selected to_number df x y operation Hx Hy Hne)
        as [Hv Ha].
      done.
Qed.

Lemma suggested_pair_is_usable_witness :
  "Region" ≠ "Sales"
  ∧ DataValidator.validate_column_selection scenario_table "Region" "Sales" = Ok ()
  ∧ (wf_table scenario_table → len scenario_table ≠ 0%nat →
     ∃ result,
       analyze_data_flexible textbook parse_float scenario_table "Region" "Sales" "sum"
       = Ok result
       ∧ result ≠ [])
  ∧ (DataValidator.categorical_columns scenario_table ≠ [] →
     DataValidator.numeric_columns scenario_table ≠ [] →
     _check_column_compatibility scenario_table "Region" "Sales"
     = Compatible (8 # 10) true true [] true).
Proof.
  apply (suggested_pair_is_usable (np := textbook) parse_float scenario_table
           "Region" "Sales" "sum").
  - apply (bool_decide_unpack _). by_computing.
  - by_computing.
Defined.

(** *** Chart suitability and the issues of the preview *)

Lemma unique_length s : (length (unique s) ≤ length s)%nat.
Proof.
  induction s as [|c s IH]; [done|]. simpl.
  pose proof (length_filter (λ d, cell_eqb d c = false) (unique s)). lia.
Qed.

Lemma nunique_le_len df col : (nunique (series df col) ≤ len df)%nat.
Proof.
  unfold nunique. etrans; [apply unique_length|].
  etrans; [apply length_filter|].
  unfold series. destruct (col_index df col); simpl; [|lia].
  by rewrite length_fmap.
Qed.

Definition too_many_categories (i : PotentialIssue) : bool :=
  match i with TooManyCategories _ => true | _ => false end.

(** X19.  The preview's estimate and its list of potential issues agree:
    the number of categories never exceeds the number of rows; a pie chart
    rated excellent means a bar chart rated excellent and a line chart
    rated good; a bar chart rated poor means the other two are poor as
    well, and this is exactly the case in which the issue
    [too_many_categories] is reported. *)
Theorem chart_suitability_consistent (to_number : string → option Q)
    (df : DataFrame) (x_col y_col : string) (e : Estimate) :
  _estimate_results df x_col = Some e →
  (categories e ≤ data_points e)%nat
  ∧ (pie e = "excellent" → bar e = "excellent" ∧ line e = "good")
  ∧ (bar e = "poor" → pie e = "poor" ∧ line e = "poor")
  ∧ (bar e = "poor"
     ↔ TooManyCategories (categories e)
       ∈ _identify_potential_issues to_number df x_col y_col)
  ∧ (bar e ≠ "poor"
     → filter (λ i, too_many_categories i = true)
         (_identify_potential_issues to_number df x_col y_col) = []).
Proof.
  unfold _estimate_results, _identify_potential_issues.
  destruct (has_column df x_col); [|done]. intros [= <-].
  cbn [categories data_points bar pie line].
  set (u := nunique (series df x_col)).
  set (prefix := if (50 <? u)%nat then [TooManyCategories u] else []).
  set (count := if to_numeric_raises _ _ then _ else 0%nat).
  assert (∃ tail,
            (if has_column df y_col
             then (prefix ++ (if (0 <? count)%nat
                              then [NonNumericValues count] else []))%list
             else (prefix ++ [AnalysisError])%list)
            = (prefix ++ tail)%list
            ∧ Forall (λ i, too_many_categories i = false) tail)
    as (tail & -> & Htail).
  { destruct (has_column df y_col); [destruct (0 <? count)%nat|];
      eexists; (split; [done|]); by repeat constructor. }
  assert ((if (u <=? 20)%nat then "excellent"
           else if (u <=? 50)%nat then "good" else "poor") = "poor"
          ↔ (50 < u)%nat) as Hbar.
  { destruct (u <=? 20)%nat eqn:E1;
      [apply Nat.leb_le in E1|apply Nat.leb_gt in E1]; [split; [done|lia]|].
    destruct (u <=? 50)%nat eqn:E2;
      [apply Nat.leb_le in E2|apply Nat.leb_gt in E2]; [split; [done|lia]|done]. }
  assert ((if (u <=? 10)%nat then "excellent" else "poor") = "excellent"
          ↔ (u ≤ 10)%nat) as Hpie.
  { destruct (u <=? 10)%nat eqn:E1;
      [apply Nat.leb_le in E1|apply Nat.leb_gt in E1]; [done|split; [done|lia]]. }
  split; [apply nunique_le_len|].
  split.
  { rewrite Hpie. intros Hu.
    assert ((u <=? 20)%nat = true) as -> by (apply Nat.leb_le; lia).
    assert ((u <=? 30)%nat = true) as -> by (apply Nat.leb_le; lia). done. }
  split.
  { rewrite Hbar. intros Hu.
    assert ((u <=? 10)%nat = false) as -> by (apply Nat.leb_gt; lia).
    assert ((u <=? 30)%nat = false) as -> by (apply Nat.leb_gt; lia). done. }
  rewrite Hbar.
  unfold prefix.
  destruct (50 <? u)%nat eqn:E;
    [apply Nat.ltb_lt in E|apply Nat.ltb_ge in E].
  - split; [split; [intros _; left|done]|intros H; by destruct (H E)].
  - split.
    + split; [lia|]. simpl. intros H. exfalso.
      rewrite Forall_forall in Htail. by specialize (Htail _ H).
    + intros _. simpl. clear -Htail.
      induction Htail as [|i l Hi _ IH]; [done|].
      rewrite filter_cons, decide_False; [done|]. by rewrite Hi.
Qed.

Definition many_regions : DataFrame :=
  {| columns := [("Region", Object); ("Sales", Numeric)];
     rows := [ [Str "A"; Num 1]; [Str "B"; Num 2]; [Str "A"; Num 3] ] |}.

Lemma chart_suitability_consistent_witness :
  let e := {| categories := 2; data_points := 3; bar := "excellent";
              pie := "excellent"; line := "good" |} in
  (categories e ≤ data_points e)%nat
  ∧ (pie e = "excellent" → bar e = "excellent" ∧ line e = "good")
  ∧ (bar e = "poor" → pie e = "poor" ∧ line e = "poor")
  ∧ (bar e = "poor"
     ↔ TooManyCategories (categories e)
       ∈ _identify_potential_issues parse_float many_regions "Region" "Sales")
  ∧ (bar e ≠ "poor"
     → filter (λ i, too_many_categories i = true)
         (_identify_potential_issues parse_float many_regions "Region" "Sales") = []).
Proof.
  apply (chart_suitability_consistent parse_float many_regions "Region" "Sales").
  by_computing.
Defined.

(** *** The count of non-numeric values *)

(** A text that the reader does not take for a number. *)
Definition unparseable (to_number : string → option Q) (c : cell) : bool :=
  match c with Str s => bool_decide (to_number s = None) | _ => false end.

Lemma to_numeric_raises_unparseable to_number ys :
  to_numeric_raises to_number ys = true
  ↔ (0 < length (filter (λ c, unparseable to_number c = true) ys))%nat.
Proof.
  unfold to_numeric_raises.
  induction ys as [|c ys IH]; simpl; [split; [done|lia]|].
  rewrite filter_cons, orb_true_iff, IH.
  fold (unparseable to_number c).
  destruct (decide (unparseable to_number c = true)) as [->|Hn]; simpl.
  - split; [lia|by left].
  - apply not_true_is_false in Hn. rewrite Hn.
    split; [by intros [?|?]|by right].
Qed.

Lemma coerced_missing_count to_number ys :
  length (filter (λ c, isnull (to_numeric_cell to_number c) = true) ys)
  = (length (filter (λ c, unparseable to_number c = true) ys) + isnull_sum ys)%nat.
Proof.
  unfold isnull_sum. induction ys as [|c ys IH]; [done|].
  rewrite !filter_cons.
  destruct c as [q|s|]; simpl; [|destruct (to_number s) as [q|] eqn:E; simpl|];
    repeat case_decide; simpl in *; try done; lia.
Qed.

Definition non_numeric_values (i : PotentialIssue) : bool :=
  match i with NonNumericValues _ => true | _ => false end.

(** X20.  For two columns of the table, the preview reports the issue
    [non_numeric_values] exactly when the measure column holds a text
    that is no number, and the count it reports is then the number of such
    texts plus the number of missing cells of the column; a column whose
    texts all read as numbers raises no such issue, however many of its
    cells are missing. *)
Theorem non_numeric_count_includes_missing (to_number : string → option Q)
    (df : DataFrame) (x_col y_col : string) :
  has_column df x_col = true → has_column df y_col = true →
  let ys := series df y_col in
  let bad := length (filter (λ c, unparseable to_number c = true) ys) in
  filter (λ i, non_numeric_values i = true)
         (_identify_potential_issues to_number df x_col y_col)
  = if (0 <? bad)%nat then [NonNumericValues (bad + isnull_sum ys)] else [].
Proof.
  intros Hx Hy ys bad. unfold _identify_potential_issues.
  rewrite Hx, Hy. fold ys. rewrite filter_app.
  assert (filter (λ i, non_numeric_values i = true)
            (if (50 <? nunique (series df x_col))%nat
             then [TooManyCategories (nunique (series df x_col))] else []) = [])
    as -> by (by destruct (50 <? _)%nat).
  simpl.
  destruct (to_numeric_raises to_number ys) eqn:Er.
  - apply to_numeric_raises_unparseable in Er as Hbad. fold bad in Hbad.
    rewrite coerced_missing_count. fold bad.
    apply Nat.ltb_lt in Hbad as Hb. rewrite Hb.
    assert ((0 <? bad + isnull_sum ys)%nat = true) as ->
      by (apply Nat.ltb_lt; lia).
    done.
  - assert ((0 <? bad)%nat = false) as ->; [|done].
    apply Nat.ltb_ge. destruct (decide (0 < bad)%nat) as [Hb|]; [|lia].
    apply to_numeric_raises_unparseable in Hb. congruence.
Qed.

Definition noted_sales : DataFrame :=
  {| columns := [("Region", Object); ("Sales", Object)];
     rows := [ [Str "A"; Num 10]; [Str "B"; Str "n/a"];
               [Str "C"; NaN]; [Str "D"; Str "7"] ] |}.

Lemma non_numeric_count_includes_missing_witness :
  filter (λ i, non_numeric_values i = true)
         (_identify_potential_issues parse_float noted_sales "Region" "Sales")
  = [NonNumericValues 2].
Proof.
  apply (non_numeric_count_includes_missing parse_float noted_sales
           "Region" "Sales"); by_computing.
Defined.

(** *** The options offered for the two selectors *)

(** A column the NaN analysis records with more than 50% missing. *)
Definition high_nan (np : Numerics) (df : DataFrame) (col : string) : bool :=
  has_nan df col && Qgtb (recorded_percentage np df col) 50.

Lemma columns_with_high_nan_elem {np : Numerics} df col :
  col ∈ (columns_with_high_nan df (analyze_nan_values np df)).*1
  ↔ col ∈ column_names df ∧ high_nan np df col = true.
Proof.
  unfold columns_with_high_nan, high_nan.
  rewrite list_elem_of_fmap. split.
  - intros ([c q] & -> & (c' & Hc' & H)%list_elem_of_omap). simpl.
    rewrite NanAnalysisFacts.columns_with_nan_lookup_any in H.
    rewrite bool_decide_eq_true_2 in H by done. simpl in H.
    destruct (has_nan df c') eqn:En; [|done]. simpl in H.
    destruct (Qgtb _ 50) eqn:E; [|done]. injection H as -> _.
    by rewrite En, E.
  - intros [Hc [Hn Hq]%andb_true_iff].
    exists (col, recorded_percentage np df col). split; [done|].
    apply list_elem_of_omap. exists col. split; [done|].
    rewrite NanAnalysisFacts.columns_with_nan_lookup_any.
    rewrite bool_decide_eq_true_2, Hn by done. simpl. by rewrite Hq.
Qed.

Lemma available_columns {np : Numerics} df (l : list string) :
  l ⊆ column_names df →
  filter (λ col, col ∉ (columns_with_high_nan df (analyze_nan_values np df)).*1) l
  = filter (λ col, high_nan np df col = false) l.
Proof.
  intros Hl. induction l as [|c l IH]; [done|].
  rewrite !filter_cons, IH by (intros x Hx; apply Hl; by right).
  assert (c ∈ column_names df) as Hc by (apply Hl; left).
  destruct (high_nan np df c) eqn:E.
  - rewrite decide_False, decide_False; [done..|].
    intros Hn. apply Hn. by apply columns_with_high_nan_elem.
  - rewrite decide_True, decide_True; [done..|].
    intros [_ H]%columns_with_high_nan_elem. congruence.
Qed.

Lemma categorical_columns_subseteq df :
  DataValidator.categorical_columns df ⊆ column_names df.
Proof.
  intros x (d & Hx & _)%categorical_column_entry. by eapply entry_column_name.
Qed.

Lemma numeric_columns_subseteq df :
  DataValidator.numeric_columns df ⊆ column_names df.
Proof.
  intros x (d & Hx & _)%numeric_column_entry. by eapply entry_column_name.
Qed.

(** The options of one selector: the candidate columns that are not mostly
    missing or, when there is none, all columns. *)
Definition options_from (np : Numerics) (df : DataFrame) (candidates : list string) : list string :=
  let available := filter (λ col, high_nan np df col = false) candidates in
  match available with
  | [] => column_names df
  | _ => available
  end.

Lemma options_from_facts {np : Numerics} df candidates :
  candidates ⊆ column_names df →
  options_from np df candidates ⊆ column_names df
  ∧ (options_from np df candidates = [] ↔ columns df = []).
Proof.
  intros Hc. unfold options_from.
  destruct (filter _ candidates) as [|c l] eqn:E.
  - split; [done|]. unfold column_names. by destruct (columns df).
  - split.
    + intros x Hx. apply Hc. rewrite <- E in Hx.
      by apply list_elem_of_filter in Hx as [_ ?].
    + split; [done|]. intros Hnil.
      assert (c ∈ column_names df) as Hin.
      { apply Hc. assert (c ∈ filter (λ col, high_nan np df col = false) candidates)
          as [_ ?]%list_elem_of_filter by (rewrite E; left). done. }
      unfold column_names in Hin. rewrite Hnil in Hin.
      by apply elem_of_nil in Hin.
Qed.

(** X21.  The options offered for the category selector are the
    categorical columns that the NaN analysis does not record as more than
    50% missing, and the options for the measure selector the numeric
    columns of that kind; when no such column exists the selector gets all
    columns instead.  Every option is a column of the table, and a selector
    is left without options only when the table has no column. *)
Theorem analysis_options_are_columns {np : Numerics} (df : DataFrame) :
  let o := suggest_analysis_options np df in
  x_options o = options_from np df (DataValidator.categorical_columns df)
  ∧ y_options o = options_from np df (DataValidator.numeric_columns df)
  ∧ x_options o ⊆ column_names df
  ∧ y_options o ⊆ column_names df
  ∧ (x_options o = [] ↔ columns df = [])
  ∧ (y_options o = [] ↔ columns df = []).
Proof.
  simpl.
  rewrite (available_columns df _ (categorical_columns_subseteq df)).
  rewrite (available_columns df _ (numeric_columns_subseteq df)).
  fold (options_from np df (DataValidator.categorical_columns df)).
  fold (options_from np df (DataValidator.numeric_columns df)).
  destruct (options_from_facts df _ (categorical_columns_subseteq df)) as [? ?].
  destruct (options_from_facts df _ (numeric_columns_subseteq df)) as [? ?].
  done.
Qed.

End PreviewFacts.

(** ** What the groups of an aggregation add up to *)

Module GroupingFacts.
Import FlexibleDataProcessor CleaningFacts AggregationFacts.

(** *** Every category has exactly one key *)

Lemma cell_lt_not_eqb a b : cell_lt a b → cell_eqb a b = false.
Proof.
  unfold cell_lt. destruct a as [x|s|], b as [y|t|]; simpl; try done.
  - intros H%Qltb_lt. destruct (Qeq_bool x y) eqn:E; [|done].
    apply Qeq_bool_iff in E. lra.
  - intros H%string_ltb_lt. destruct (String.eqb s t) eqn:E; [|done].
    apply String.eqb_eq in E.
    by destruct (OrderedTypeEx.String_as_OT.lt_not_eq _ _ H).
Qed.

(** The keys that equal a cell. *)
Definition matches (c : cell) (ks : list cell) : nat :=
  length (filter (λ k, cell_eqb c k = true) ks).

Lemma filter_none {A} (P : A → Prop) `{!∀ x, Decision (P x)} (l : list A) :
  Forall (λ x, ¬ P x) l → filter P l = [].
Proof.
  induction 1 as [|x l Hx _ IH]; [done|].
  by rewrite filter_cons, decide_False.
Qed.

Lemma sorted_matches c ks : StronglySorted cell_lt ks → (matches c ks ≤ 1)%nat.
Proof.
  unfold matches. induction 1 as [|k ks Hs IH Hk]; [simpl; lia|].
  rewrite filter_cons. destruct (decide (cell_eqb c k = true)) as [Hc|]; [|done].
  rewrite filter_none; [done|].
  eapply Forall_impl; [exact Hk|]. intros k' Hlt%cell_lt_not_eqb Hc'.
  rewrite cell_eqb_sym in Hc.
  by rewrite (cell_eqb_trans _ _ _ Hc Hc') in Hlt.
Qed.

Lemma insert_key_has k ks : ∃ k', k' ∈ insert_key k ks ∧ cell_eqb k k' = true.
Proof.
  induction ks as [|k0 ks IH]; simpl.
  { exists k. split; [left|apply cell_eqb_refl]. }
  destruct (cell_eqb k k0) eqn:E; [exists k0; split; [left|done]|].
  destruct (cell_ltb k k0); [exists k; split; [left|apply cell_eqb_refl]|].
  destruct IH as (k' & Hin & He). exists k'. split; [by right|done].
Qed.

Lemma insert_key_keeps x k ks : x ∈ ks → x ∈ insert_key k ks.
Proof.
  induction ks as [|k0 ks IH]; simpl; [by intros ?%elem_of_nil|]. intros Hx.
  destruct (cell_eqb k k0); [done|].
  destruct (cell_ltb k k0); [by right|].
  apply elem_of_cons in Hx as [->|Hx]; [left|right; auto].
Qed.

Lemma foldl_insert_key_complete c l acc :
  c ∈ l ∨ (∃ k, k ∈ acc ∧ cell_eqb c k = true) →
  ∃ k, k ∈ foldl (λ ks k, insert_key k ks) acc l ∧ cell_eqb c k = true.
Proof.
  revert acc. induction l as [|x l IH]; intros acc [Hin|Hacc]; simpl.
  - by apply elem_of_nil in Hin.
  - done.
  - apply IH. apply elem_of_cons in Hin as [->|Hin]; [right|by left].
    apply insert_key_has.
  - apply IH. right. destruct Hacc as (k & Hk & He). exists k.
    split; [by apply insert_key_keeps|done].
Qed.

Lemma group_keys_matches xs c :
  c ∈ dropna xs → matches c (group_keys xs) = 1%nat.
Proof.
  intros Hc. pose proof (sorted_matches c _ (group_keys_sorted xs)) as Hle.
  destruct (foldl_insert_key_complete c (dropna xs) []) as (k & Hk & He);
    [by left|].
  fold (group_keys xs) in Hk.
  assert (k ∈ filter (λ k, cell_eqb c k = true) (group_keys xs)) as Hin
    by (by apply list_elem_of_filter).
  unfold matches in *.
  destruct (filter _ (group_keys xs)); [by apply elem_of_nil in Hin|].
  simpl in *. lia.
Qed.

Lemma dropna_all xs : isnull_sum xs = 0%nat → dropna xs = xs.
Proof.
  intros H%isnull_sum_0. by apply (CleaningInvariants.filter_all _).
Qed.

Lemma group_keys_elem xs k : k ∈ group_keys xs → k ∈ dropna xs.
Proof.
  unfold group_keys.
  assert (∀ l acc, k ∈ foldl (λ ks k, insert_key k ks) acc l → k ∈ l ∨ k ∈ acc)
    as Hgen.
  { intros l. induction l as [|x l IH]; intros acc; simpl; [by right|].
    intros [H|[->|H]%insert_key_elem]%IH.
    - left. by right.
    - left. left.
    - by right. }
  intros [H|H]%Hgen; [done|by apply elem_of_nil in H].
Qed.

Lemma matches_fst c (l : list (cell * cell)) :
  length (filter (λ r, cell_eqb c r.1 = true) l) = matches c l.*1.
Proof.
  unfold matches. induction l as [|r l IH]; [done|]. csimpl.
  rewrite !filter_cons.
  destruct (decide (cell_eqb c r.1 = true)); simpl; by rewrite IH.
Qed.

Lemma aggregate_groups_keys {np : Numerics} operation xs ys :
  (aggregate_groups np operation xs ys).*1 = group_keys xs.
Proof.
  unfold aggregate_groups. rewrite <- list_fmap_compose.
  induction (group_keys xs) as [|k l IH]; [done|]. csimpl. by rewrite IH.
Qed.

(** What a successful aggregation of two distinct columns of a well-formed
    table returns: the sorted rows of the groups. *)
Lemma analyze_ok_groups {np : Numerics} to_number df x_col y_col operation result :
  wf_table df → has_column df x_col = true → has_column df y_col = true →
  x_col ≠ y_col →
  analyze_data_flexible np to_number df x_col y_col operation = Ok result →
  result ≡ₚ aggregate_groups np operation
              (category_cells (series df x_col))
              (measure_cells to_number (dtype_of df y_col) operation
                 (series df y_col)).
Proof.
  intros Hwf Hx Hy Hne.
  rewrite (analyze_data_flexible_groups _ _ _ _ _ Hwf Hx Hy Hne).
  pose proof (sort_values_perm np
                (aggregate_groups np operation
                   (category_cells (series df x_col))
                   (measure_cells to_number (dtype_of df y_col) operation
                      (series df y_col)))) as Hp.
  destruct (sort_values np _); [done|]. by intros [= <-].
Qed.

Lemma has_column_elem df col : has_column df col = true → col ∈ column_names df.
Proof. unfold has_column. apply bool_decide_eq_true_1. Qed.

Lemma category_cells_no_missing xs : isnull_sum (category_cells xs) = 0%nat.
Proof. by apply fill_cell_no_missing. Qed.

(** X22.  A successful aggregation returns exactly one row for every
    category of the table, the category of a row with a missing category
    cell being ["Unknown"]: no row of the result has a missing category,
    every row's category occurs in the column, and every category of the
    column is the category of exactly one row. *)
Theorem one_row_per_category {np : Numerics} (to_number : string → option Q)
    (df : DataFrame) (x_col y_col operation : string)
    (result : list (cell * cell)) :
  wf_table df → has_column df x_col = true → has_column df y_col = true →
  x_col ≠ y_col →
  analyze_data_flexible np to_number df x_col y_col operation = Ok result →
  let categories := category_cells (series df x_col) in
  Forall (λ r, isnull r.1 = false ∧ r.1 ∈ categories) result
  ∧ Forall (λ c, length (filter (λ r, cell_eqb c r.1 = true) result) = 1%nat)
           categories.
Proof.
  intros Hwf Hx Hy Hne Hok categories.
  pose proof (analyze_ok_groups _ _ _ _ _ _ Hwf Hx Hy Hne Hok) as Hp.
  pose proof (dropna_all _ (category_cells_no_missing (series df x_col))) as Hd.
  fold categories in Hp, Hd.
  split.
  - rewrite Hp. apply Forall_forall. intros r Hr.
    assert (r.1 ∈ group_keys categories) as Hk%group_keys_elem.
    { rewrite <- (aggregate_groups_keys operation categories
                   (measure_cells to_number (dtype_of df y_col) operation
                      (series df y_col))).
      by apply list_elem_of_fmap_2. }
    split; [|by rewrite Hd in Hk].
    unfold dropna in Hk. by apply list_elem_of_filter in Hk as [? _].
  - apply Forall_forall. intros c Hc.
    rewrite Hp, matches_fst, aggregate_groups_keys.
    apply group_keys_matches. by rewrite Hd.
Qed.

Lemma one_row_per_category_witness :
  let result := [(Str "c", Num 7); (Str "a", Num 5); (Str "b", Num 5)] in
  let categories := category_cells (series ties_table "Category") in
  Forall (λ r, isnull r.1 = false ∧ r.1 ∈ categories) result
  ∧ Forall (λ c, length (filter (λ r, cell_eqb c r.1 = true) result) = 1%nat)
           categories.
Proof.
  apply (one_row_per_category (np := textbook) parse_float ties_table "Category" "Amount" "sum");
    try by_computing.
  repeat constructor.
Defined.

(** *** Sums over the groups *)

(** What a cell adds to a sum: missing cells and text add nothing. *)
Definition value_of (c : cell) : Q :=
  match c with Num q => q | _ => 0%Q end.

Lemma Qsum_numbers_cons c l :
  (Qsum (numbers (c :: l)) == value_of c + Qsum (numbers l))%Q.
Proof. unfold numbers. destruct c; csimpl; unfold Qsum; simpl; ring. Qed.

Lemma group_values_cons k p ps :
  group_values k (p :: ps)
  = if cell_eqb p.1 k then p.2 :: group_values k ps else group_values k ps.
Proof.
  unfold group_values. rewrite filter_cons.
  destruct (decide (cell_eqb p.1 k = true)) as [->|Hn]; [done|].
  by apply not_true_is_false in Hn as ->.
Qed.

Lemma Qsum_perm l l' : l ≡ₚ l' → (Qsum l == Qsum l')%Q.
Proof.
  induction 1 as [|x l l' _ IH|x y l|l1 l2 l3 _ IH1 _ IH2]; simpl; lra.
Qed.

Lemma Qsum_fmap_ext {A} (f g : A → Q) (l : list A) :
  (∀ x, f x == g x)%Q → (Qsum (f <$> l) == Qsum (g <$> l))%Q.
Proof.
  intros H. induction l as [|x l IH]; [done|]. csimpl. rewrite IH, (H x). done.
Qed.

Lemma Qsum_fmap_plus {A} (f g : A → Q) (l : list A) :
  (Qsum ((λ x, f x + g x)%Q <$> l) == Qsum (f <$> l) + Qsum (g <$> l))%Q.
Proof. induction l as [|x l IH]; csimpl; lra. Qed.

Lemma Qsum_selected (x : cell) (v : Q) (ks : list cell) :
  (Qsum ((λ k, if cell_eqb x k then v else 0) <$> ks) == v * Qnat (matches x ks))%Q.
Proof.
  unfold matches. induction ks as [|k ks IH]; csimpl.
  { change (Qnat 0) with 0%Q. lra. }
  rewrite filter_cons, IH.
  destruct (decide (cell_eqb x k = true)) as [->|Hn].
  - simpl length. rewrite ReportFacts.Qnat_succ. lra.
  - apply not_true_is_false in Hn as ->. lra.
Qed.

(** When every pair's key matches exactly one of [ks], the sums of the
    groups add up to the sum of all values. *)
Lemma grouped_sum (ks : list cell) (pairs : list (cell * cell)) :
  Forall (λ p, matches p.1 ks = 1%nat) pairs →
  (Qsum ((λ k, Qsum (numbers (group_values k pairs))) <$> ks)
   == Qsum (numbers pairs.*2))%Q.
Proof.
  induction 1 as [|p ps Hp _ IH].
  { simpl. induction ks as [|k ks IHk]; csimpl; [done|]. rewrite IHk.
    unfold group_values. simpl. lra. }
  rewrite fmap_cons, Qsum_numbers_cons, <- IH.
  rewrite (Qsum_fmap_ext _
             (λ k, (if cell_eqb p.1 k then value_of p.2 else 0)
                   + Qsum (numbers (group_values k ps)))%Q).
  - rewrite Qsum_fmap_plus, Qsum_selected, Hp.
    change (Qnat 1) with 1%Q. lra.
  - intros k. rewrite group_values_cons.
    destruct (cell_eqb p.1 k); [apply Qsum_numbers_cons|lra].
Qed.

Lemma numbers_Num (f : cell → Q) (ks : list cell) :
  numbers ((λ k, Num (f k)) <$> ks) = f <$> ks.
Proof.
  unfold numbers. induction ks as [|k ks IH]; [done|]. csimpl. by rewrite IH.
Qed.

Lemma Qsum_numbers_fill_zero l :
  (Qsum (numbers (fill_cell (Num 0) <$> l)) == Qsum (numbers l))%Q.
Proof.
  induction l as [|c l IH]; [done|]. rewrite fmap_cons, !Qsum_numbers_cons, IH.
  destruct c; simpl; lra.
Qed.

Lemma measure_cells_length to_number d operation ys :
  length (measure_cells to_number d operation ys) = length ys.
Proof.
  unfold measure_cells.
  repeat match goal with
  | |- context [if ?b then _ else _] => destruct b
  end; by rewrite ?length_fmap.
Qed.

Lemma zip_keys_match (xs ys : list cell) :
  isnull_sum xs = 0%nat →
  Forall (λ p, matches p.1 (group_keys xs) = 1%nat) (zip xs ys).
Proof.
  intros H0. apply Forall_forall. intros [x y] Hin.
  apply group_keys_matches. rewrite (dropna_all _ H0).
  apply (elem_of_zip_l _ _ _ _ Hin).
Qed.

(** *** Sums that the library computes exactly *)

Lemma forallb_Forall {A} (f : A → bool) (l : list A) :
  forallb f l = true ↔ Forall (λ x, f x = true) l.
Proof.
  induction l as [|x l IH]; simpl; [by split; [constructor|]|].
  by rewrite andb_true_iff, Forall_cons, IH.
Qed.

Lemma small_integers_spec l :
  small_integers l = true
  ↔ Forall (λ q, is_integer q = true) l
    ∧ (Qsum (Qabs <$> l) <= inject_Z (2 ^ 53))%Q.
Proof.
  unfold small_integers. by rewrite andb_true_iff, forallb_Forall, Qle_bool_iff.
Qed.

Lemma Qsum_abs_sublist l1 l2 :
  l1 `sublist_of` l2 → (Qsum (Qabs <$> l1) <= Qsum (Qabs <$> l2))%Q.
Proof.
  induction 1 as [|x l1 l2 _ IH|x l1 l2 _ IH]; csimpl; [lra|lra|].
  pose proof (Qabs_nonneg x). lra.
Qed.

Lemma small_integers_sublist l1 l2 :
  l1 `sublist_of` l2 → small_integers l2 = true → small_integers l1 = true.
Proof.
  rewrite !small_integers_spec. intros Hs [Hi Hb]. split.
  - by eapply CleaningInvariants.Forall_sublist_of.
  - eapply Qle_trans; [by apply Qsum_abs_sublist|done].
Qed.

Lemma numbers_sublist l1 l2 :
  l1 `sublist_of` l2 → numbers l1 `sublist_of` numbers l2.
Proof.
  unfold numbers.
  induction 1 as [|c l1 l2 _ IH|c l1 l2 _ IH]; csimpl; [done|..];
    destruct c; simpl; (done || by constructor).
Qed.

(** Cells filled with 0 leave the numbers whole and add nothing. *)
Lemma numbers_fill_zero_integers l :
  Forall (λ q, is_integer q = true) (numbers l) →
  Forall (λ q, is_integer q = true) (numbers (fill_cell (Num 0) <$> l)).
Proof.
  unfold numbers. induction l as [|c l IH]; [done|].
  destruct c as [q|t|]; csimpl; [|done|].
  - rewrite !Forall_cons. intros [? ?]. auto.
  - rewrite Forall_cons. auto.
Qed.

Lemma numbers_fill_zero_abs l :
  (Qsum (Qabs <$> numbers (fill_cell (Num 0) <$> l))
   == Qsum (Qabs <$> numbers l))%Q.
Proof.
  unfold numbers. induction l as [|c l IH]; [done|].
  destruct c as [q|t|]; csimpl; [|done|].
  - by rewrite IH.
  - rewrite IH. change (Z.abs 0 # 1)%Q with 0%Q. lra.
Qed.

Lemma small_integers_fill_zero l :
  small_integers (numbers l) = true →
  small_integers (numbers (fill_cell (Num 0) <$> l)) = true.
Proof.
  rewrite !small_integers_spec. intros [Hi Hb]. split.
  - by apply numbers_fill_zero_integers.
  - by rewrite numbers_fill_zero_abs.
Qed.

(** X23.  For the operation [sum] on two distinct columns of a well-formed
    table whose measure column holds whole numbers with absolute values
    that add up to at most 2^53, the values of the result add up to the sum
    of all numbers of the measure column: grouping loses and adds nothing;
    missing cells and, in a column that is not numeric, text that is no
    number count as 0. *)
Theorem sum_total_preserved {np : Numerics} (to_number : string → option Q)
    (df : DataFrame) (x_col y_col : string) (result : list (cell * cell)) :
  wf_table df → has_column df x_col = true → has_column df y_col = true →
  x_col ≠ y_col →
  small_integers
    (numbers (coerced to_number (dtype_of df y_col) (series df y_col))) = true →
  analyze_data_flexible np to_number df x_col y_col "sum" = Ok result →
  (Qsum (numbers result.*2)
   == Qsum (numbers (coerced to_number (dtype_of df y_col) (series df y_col))))%Q.
Proof.
  intros Hwf Hx Hy Hne Hsmall Hok.
  pose proof (analyze_ok_groups _ _ _ _ _ _ Hwf Hx Hy Hne Hok) as Hp.
  destruct (measure_policy to_number (dtype_of df y_col) "sum" (series df y_col))
    as [Hm _].
  specialize (Hm eq_refl).
  apply small_integers_fill_zero in Hsmall. rewrite <- Hm in Hsmall.
  set (xs := category_cells (series df x_col)) in *.
  set (ys := measure_cells _ _ _ _) in *.
  assert (length xs = length ys) as Hlen.
  { unfold xs, ys, category_cells.
    rewrite measure_cells_length, length_fmap.
    rewrite !CleaningInvariants.series_length_column; [done|..];
      by apply has_column_elem. }
  transitivity (Qsum (numbers (aggregate_groups np "sum" xs ys).*2)).
  { apply Qsum_perm. unfold numbers. by rewrite Hp. }
  unfold aggregate_groups. rewrite <- list_fmap_compose.
  rewrite (numbers_Num (λ k, group_sum np (numbers (group_values k (zip xs ys))))).
  rewrite (Qsum_fmap_ext _ (λ k, Qsum (numbers (group_values k (zip xs ys))))).
  2: { intros k. apply group_sum_exact.
       eapply small_integers_sublist; [|exact Hsmall].
       etrans; [apply numbers_sublist, fmap_sublist, sublist_filter|].
       by rewrite snd_zip by lia. }
  rewrite grouped_sum by apply zip_keys_match, category_cells_no_missing.
  rewrite snd_zip by lia. rewrite Hm. apply Qsum_numbers_fill_zero.
Qed.

Lemma sum_total_preserved_witness :
  (Qsum (numbers [(Str "c", Num 7); (Str "a", Num 5); (Str "b", Num 5)].*2)
   == Qsum (numbers (coerced parse_float (dtype_of ties_table "Amount")
                       (series ties_table "Amount"))))%Q.
Proof.
  apply (sum_total_preserved (np := textbook) parse_float ties_table "Category" "Amount");
    try by_computing.
  repeat constructor.
Defined.

(** *** Counts *)

(** A column of numeric dtype holds numbers and missing cells only. *)
Definition typed_column (df : DataFrame) (col : string) : Prop :=
  is_numeric_dtype (dtype_of df col) = true →
  Forall (λ c, match c with Str _ => False | _ => True end) (series df col).

Definition is_number (c : cell) : Prop :=
  match c with Num _ => True | _ => False end.

Lemma group_values_count k (xs ys : list cell) :
  length xs = length ys → Forall is_number ys →
  length (numbers (group_values k (zip xs ys))) = occurrences k xs.
Proof.
  unfold occurrences. revert ys.
  induction xs as [|x xs IH]; intros [|y ys] Hlen Hys; try done.
  apply Forall_cons in Hys as [Hy Hys]. simpl in Hlen.
  change (zip (x :: xs) (y :: ys)) with ((x, y) :: zip xs ys).
  rewrite group_values_cons, filter_cons. simpl.
  destruct (decide (cell_eqb x k = true)) as [->|Hn].
  - destruct y; try done. unfold numbers in *. simpl. rewrite IH; [done|lia|done].
  - apply not_true_is_false in Hn as ->. apply IH; [lia|done].
Qed.

Lemma count_cells_numbers to_number df y_col :
  typed_column df y_col →
  Forall is_number
    (measure_cells to_number (dtype_of df y_col) "count" (series df y_col)).
Proof.
  intros Ht.
  destruct (measure_policy to_number (dtype_of df y_col) "count" (series df y_col))
    as [Hm _].
  rewrite (Hm eq_refl). unfold coerced, typed_column in *.
  destruct (is_numeric_dtype (dtype_of df y_col)).
  - apply Forall_fmap. eapply Forall_impl; [exact (Ht eq_refl)|].
    intros c Hc. simpl. by destruct c.
  - rewrite <- list_fmap_compose. apply Forall_fmap, Forall_forall.
    intros c _. simpl. destruct c as [q|s|]; simpl; try done.
    by destruct (to_number s).
Qed.

Lemma aggregate_count {np : Numerics} vals :
  aggregate np "count" vals = Num (Qnat (length (numbers vals))).
Proof. done. Qed.

(** X24.  For the operation [count] on two distinct columns of a
    well-formed table whose numeric measure column holds no text, the
    value of every row of the result is the number of rows of the table
    that have the row's category (["Unknown"] for a missing category):
    rows whose measure cell is missing or no number are counted too. *)
Theorem count_counts_rows {np : Numerics} (to_number : string → option Q)
    (df : DataFrame) (x_col y_col : string) (result : list (cell * cell)) :
  wf_table df → has_column df x_col = true → has_column df y_col = true →
  x_col ≠ y_col → typed_column df y_col →
  analyze_data_flexible np to_number df x_col y_col "count" = Ok result →
  Forall (λ r, r.2 = Num (Qnat (occurrences r.1
                                   (category_cells (series df x_col)))))
         result.
Proof.
  intros Hwf Hx Hy Hne Ht Hok.
  pose proof (analyze_ok_groups _ _ _ _ _ _ Hwf Hx Hy Hne Hok) as Hp.
  rewrite Hp. unfold aggregate_groups.
  apply Forall_fmap, Forall_forall. intros k _. cbn [fst snd compose].
  rewrite aggregate_count.
  rewrite group_values_count; [done| |by apply count_cells_numbers].
  unfold category_cells. rewrite measure_cells_length, length_fmap.
  rewrite !CleaningInvariants.series_length_column; [done|..];
    by apply has_column_elem.
Qed.

Definition counted_gaps : DataFrame :=
  {| columns := [("Region", Object); ("Sales", Numeric)];
     rows := [ [Str "North"; Num 10]; [Str "North"; NaN];
               [NaN; Num 30];         [Str "East"; NaN] ] |}.

Lemma count_counts_rows_witness :
  Forall (λ r, r.2 = Num (Qnat (occurrences r.1
                                   (category_cells (series counted_gaps "Region")))))
         [(Str "North", Num 2); (Str "East", Num 1); (Str "Unknown", Num 1)].
Proof.
  apply (count_counts_rows (np := textbook) parse_float counted_gaps "Region" "Sales");
    try by_computing.
  - repeat constructor.
  - intros _. repeat constructor.
Defined.

End GroupingFacts.

(** ** The pie chart of an aggregation *)

Module ChartFacts.
Import FlexibleDataProcessor FlexibleChartCreator AggregationFacts.

Lemma StronglySorted_sublist {A} (R : A → A → Prop) (l1 l2 : list A) :
  l1 `sublist_of` l2 → StronglySorted R l2 → StronglySorted R l1.
Proof.
  induction 1 as [|x l1 l2 Hs IH|x l1 l2 Hs IH]; intros Hl.
  - constructor.
  - apply StronglySorted_cons in Hl as [Hx Hl].
    apply StronglySorted_cons. split; [|by apply IH].
    eapply CleaningInvariants.Forall_sublist_of; done.
  - apply StronglySorted_cons in Hl as [_ Hl]. by apply IH.
Qed.

Lemma analyze_result_sorted {np : Numerics} to_number df x_col y_col operation result :
  analyze_data_flexible np to_number df x_col y_col operation = Ok result →
  StronglySorted descending result.
Proof.
  intros (_ & d & groups & Hg & ->)%analyze_data_flexible_ok.
  apply sort_values_sorted.
Qed.

(** X25.  The pie chart of a successful aggregation shows its rows with a
    positive value, at most ten of them, in the order of the result; when
    rows are left out, none of them has a greater value than a row that is
    shown, so the chart shows the largest values.  Without a positive
    value the chart is refused. *)
Theorem pie_chart_shows_largest_values {np : Numerics} (to_number : string → option Q)
    (df : DataFrame) (x_col y_col operation : string)
    (result : list (cell * cell)) :
  analyze_data_flexible np to_number df x_col y_col operation = Ok result →
  let shown := filter (λ r, positive r = true) result in
  (shown = [] →
   create_pie_chart result = Err (ChartCreationError NoPositiveValues))
  ∧ (shown ≠ [] →
     create_pie_chart result = Ok (take 10 shown)
     ∧ take 10 shown `sublist_of` result
     ∧ (length (take 10 shown) ≤ 10)%nat
     ∧ ∀ r s, r ∈ drop 10 shown → s ∈ take 10 shown →
              value_before r.2 s.2 = false).
Proof.
  intros Hok shown.
  pose proof (analyze_result_sorted _ _ _ _ _ _ Hok) as Hsorted.
  apply analyze_data_flexible_ok in Hok as [Hne _].
  unfold create_pie_chart. fold shown.
  destruct result as [|r0 result]; [done|].
  split; [by intros ->|]. intros Hshown.
  split.
  { destruct shown as [|s0 shown'] eqn:E; [done|].
    destruct (10 <? length (s0 :: shown'))%nat eqn:El; [done|].
    apply Nat.ltb_ge in El. by rewrite take_ge. }
  split.
  { etrans; [apply sublist_take|apply sublist_filter]. }
  split; [rewrite length_take; lia|].
  intros r s Hr Hs.
  assert (StronglySorted descending (take 10 shown ++ drop 10 shown)) as Hsplit.
  { rewrite take_drop. eapply StronglySorted_sublist; [|exact Hsorted].
    apply sublist_filter. }
  exact (StronglySorted_app_1_elem_of _ _ _ _ _ Hsplit Hs Hr).
Qed.

Lemma pie_chart_shows_largest_values_witness :
  let result := [(Str "c", Num 7); (Str "a", Num 5); (Str "b", Num 5)] in
  let shown := filter (λ r, positive r = true) result in
  (shown = [] →
   create_pie_chart result = Err (ChartCreationError NoPositiveValues))
  ∧ (shown ≠ [] →
     create_pie_chart result = Ok (take 10 shown)
     ∧ take 10 shown `sublist_of` result
     ∧ (length (take 10 shown) ≤ 10)%nat
     ∧ ∀ r s, r ∈ drop 10 shown → s ∈ take 10 shown →
              value_before r.2 s.2 = false).
Proof.
  apply (pie_chart_shows_largest_values (np := textbook) parse_float ties_table
           "Category" "Amount" "sum").
  by_computing.
Defined.

End ChartFacts.

(** ** The selection made when a table is loaded *)

Module SelectionFacts.
Import FlexibleDataProcessor FlexibleExcelProcessor.
Import AggregationFacts StrategyFacts PreviewFacts.

Lemma suggest_analysis_options_eq {np : Numerics} df :
  x_options (suggest_analysis_options np df)
  = options_from np df (DataValidator.categorical_columns df)
  ∧ y_options (suggest_analysis_options np df)
    = options_from np df (DataValidator.numeric_columns df).
Proof.
  simpl.
  rewrite (available_columns df _ (categorical_columns_subseteq df)).
  by rewrite (available_columns df _ (numeric_columns_subseteq df)).
Qed.

Definition same_column_error : exn :=
  DataProcessingError (ValueError "cannot insert column, already exists").

Lemma analyze_same_column {np : Numerics} to_number df col operation :
  has_column df col = true →
  analyze_data_flexible np to_number df col col operation = Err same_column_error.
Proof.
  intros Hc. unfold analyze_data_flexible, analyze_data_flexible_body,
    DataValidator.validate_column_selection, groupby_aggregate.
  by rewrite Hc, String.eqb_refl.
Qed.

(** X26.  When no categorical column and no numeric column of the loaded
    table is left after the columns recorded as more than 50% missing are
    set aside, both selectors are offered all columns and loading the table
    selects its first column for X and for Y; the selection counts as
    valid, the column selection is accepted, and processing it fails,
    whatever the operation and the strategy, at the aggregation, which
    cannot return the column twice. *)
Theorem unsuitable_table_preselects_one_column {np : Numerics} (to_number : string → option Q)
    (p : Processor) (raw : DataFrame) (sel : FlexibleAnalysisFrame.Selection)
    (c0 : string) (rest : list string) (operation : string)
    (custom_strategy : option (gmap string StrategyEntry)) :
  raw_data p = Some raw → empty raw = false →
  column_names raw = c0 :: rest → c0 ≠ EmptyString →
  filter (λ col, high_nan np raw col = false) (DataValidator.categorical_columns raw) = [] →
  filter (λ col, high_nan np raw col = false) (DataValidator.numeric_columns raw) = [] →
  let chosen := ExcelProcessorGUI._on_file_selected np raw sel in
  chosen = {| FlexibleAnalysisFrame.x_column_var := c0;
              FlexibleAnalysisFrame.y_column_var := c0 |}
  ∧ FlexibleAnalysisFrame.has_valid_selection chosen = true
  ∧ DataValidator.validate_column_selection raw c0 c0 = Ok ()
  ∧ (process_data np to_number p c0 c0 operation custom_strategy).1
    = Err (ExcelProcessorError (Raised same_column_error)).
Proof.
  intros Hraw Hne Hnames Hc0 Hcat Hnum chosen.
  assert (has_column raw c0 = true) as Hcol.
  { apply bool_decide_eq_true_2. rewrite Hnames. left. }
  assert (chosen = {| FlexibleAnalysisFrame.x_column_var := c0;
                      FlexibleAnalysisFrame.y_column_var := c0 |}) as ->.
  { unfold chosen, ExcelProcessorGUI._on_file_selected.
    destruct (suggest_analysis_options_eq raw) as [-> ->].
    unfold options_from. rewrite Hcat, Hnum, Hnames. done. }
  split; [done|].
  split.
  { unfold FlexibleAnalysisFrame.has_valid_selection. simpl.
    apply String.eqb_neq in Hc0. by rewrite Hc0. }
  split.
  { unfold DataValidator.validate_column_selection. by rewrite Hcol. }
  unfold process_data. rewrite Hraw.
  assert (∃ d, (if truthy custom_strategy
                then clean_data_with_strategy np raw custom_strategy
                else clean_data np raw) = Ok d
               ∧ column_names d = column_names raw) as (d & -> & Hn).
  { destruct (truthy custom_strategy); unfold clean_data;
      rewrite CleaningFacts.clean_nonempty by done; eexists; (split; [done|]);
      apply CleaningInvariants.foldl_apply_strategy_names. }
  rewrite <- (ProcessorFacts.has_column_names _ _ c0 Hn) in Hcol.
  by rewrite (analyze_same_column to_number d c0 operation Hcol).
Qed.

Definition free_text : DataFrame :=
  {| columns := [("Comment", Object); ("Author", Object)];
     rows := [ [Str "good"; Str "An"]; [Str "bad"; Str "Binh"];
               [Str "fine"; Str "Chi"] ] |}.

Lemma unsuitable_table_preselects_one_column_witness :
  let chosen :=
    ExcelProcessorGUI._on_file_selected textbook free_text
      {| FlexibleAnalysisFrame.x_column_var := EmptyString;
         FlexibleAnalysisFrame.y_column_var := EmptyString |} in
  chosen = {| FlexibleAnalysisFrame.x_column_var := "Comment";
              FlexibleAnalysisFrame.y_column_var := "Comment" |}
  ∧ FlexibleAnalysisFrame.has_valid_selection chosen = true
  ∧ DataValidator.validate_column_selection free_text "Comment" "Comment" = Ok ()
  ∧ (process_data textbook parse_float (ProcessorFacts.loaded free_text)
       "Comment" "Comment" "count" None).1
    = Err (ExcelProcessorError (Raised same_column_error)).
Proof.
  apply (unsuitable_table_preselects_one_column (np := textbook) parse_float
           (ProcessorFacts.loaded free_text) free_text _ "Comment" ["Author"]
           "count" None); by_computing.
Defined.

(** X27.  When a categorical and a numeric column are left after the
    columns recorded as more than 50% missing are set aside, loading a
    table with unique column names selects the first such categorical
    column for X and the first such numeric column for Y: two different
    columns of the table, on which processing a well-formed, non-empty
    table without a strategy succeeds. *)
Theorem suitable_table_preselects_usable_pair {np : Numerics} (to_number : string → option Q)
    (p : Processor) (raw : DataFrame) (sel : FlexibleAnalysisFrame.Selection)
    (x y : string) (xs ys : list string) (operation : string) :
  raw_data p = Some raw → wf_table raw → empty raw = false →
  NoDup (column_names raw) →
  filter (λ col, high_nan np raw col = false) (DataValidator.categorical_columns raw)
  = x :: xs →
  filter (λ col, high_nan np raw col = false) (DataValidator.numeric_columns raw)
  = y :: ys →
  ExcelProcessorGUI._on_file_selected np raw sel
  = {| FlexibleAnalysisFrame.x_column_var := x;
       FlexibleAnalysisFrame.y_column_var := y |}
  ∧ x ≠ y
  ∧ ∃ result,
      (process_data np to_number p x y operation None).1 = Ok result ∧ result ≠ [].
Proof.
  intros Hraw Hwf Hne Hnd Hcat Hnum.
  assert (x ∈ DataValidator.categorical_columns raw) as Hx.
  { assert (x ∈ x :: xs) as Hin by left. rewrite <- Hcat in Hin.
    by apply list_elem_of_filter in Hin as [_ ?]. }
  assert (y ∈ DataValidator.numeric_columns raw) as Hy.
  { assert (y ∈ y :: ys) as Hin by left. rewrite <- Hnum in Hin.
    by apply list_elem_of_filter in Hin as [_ ?]. }
  destruct (categorical_column_entry raw x Hx) as (dx & Hxe & Hdx).
  destruct (numeric_column_entry raw y Hy) as (dy & Hye & Hdy).
  assert (x ≠ y) as Hxy.
  { intros ->. pose proof (dtype_of_entry raw y dx Hnd Hxe).
    pose proof (dtype_of_entry raw y dy Hnd Hye). congruence. }
  split.
  { unfold ExcelProcessorGUI._on_file_selected.
    destruct (suggest_analysis_options_eq raw) as [-> ->].
    unfold options_from. by rewrite Hcat, Hnum. }
  split; [done|].
  apply entry_column_name in Hxe. apply entry_column_name in Hye.
  assert (has_column raw x = true) as Hcx by by apply bool_decide_eq_true_2.
  assert (has_column raw y = true) as Hcy by by apply bool_decide_eq_true_2.
  destruct (CleaningInvariants.default_cleaning_result raw Hwf Hne)
    as (Hc & Hwf' & Hn & He & _).
  apply CleaningInvariants.empty_false in He as [Hrows _].
  rewrite <- (ProcessorFacts.has_column_names _ _ x Hn) in Hcx.
  rewrite <- (ProcessorFacts.has_column_names _ _ y Hn) in Hcy.
  destruct (ProcessorFacts.analyze_with_rows to_number _ x y operation
              Hwf' Hcx Hcy Hxy Hrows) as (r & Hr & Hnil).
  exists r. unfold process_data. rewrite Hraw. simpl truthy. cbv iota.
  by rewrite Hc, Hr.
Qed.

Lemma suitable_table_preselects_usable_pair_witness :
  ExcelProcessorGUI._on_file_selected textbook scenario_table
    {| FlexibleAnalysisFrame.x_column_var := EmptyString;
       FlexibleAnalysisFrame.y_column_var := EmptyString |}
  = {| FlexibleAnalysisFrame.x_column_var := "Region";
       FlexibleAnalysisFrame.y_column_var := "Sales" |}
  ∧ "Region" ≠ "Sales"
  ∧ ∃ result,
      (process_data textbook parse_float (ProcessorFacts.loaded scenario_table)
         "Region" "Sales" "sum" None).1 = Ok result
      ∧ result ≠ [].
Proof.
  apply (suitable_table_preselects_usable_pair (np := textbook) parse_float
           (ProcessorFacts.loaded scenario_table) scenario_table _
           "Region" "Sales" [] ["Year"] "sum"); try by_computing.
  - repeat constructor.
  - apply (bool_decide_unpack _). by_computing.
Defined.

End SelectionFacts.
